(** * photo-editor-with-llm: the WebSocket session server (server/main.py)

    A shallow embedding of [PhotoEditorServer]: the loading of the prompt
    files ([__init__]), the template renderer ([get_prompts]), the
    conversation cache ([get_conversation]), the streaming delivery engine
    ([stream_prompts]), the dispatch handlers, the two loops of a session
    ([ws_receiver], [ws_llm_worker]) and the runtime that starts and ends
    them ([ws_runtime]).

    Conventions.
    - A Python [str] is a [string] holding its UTF-8 bytes.  Every pattern
      of the source ([{], [}], [[a-zA-Z0-9_]], [[0-9]]) is ASCII, and no
      byte of a multi-byte UTF-8 sequence is ASCII, so matching on bytes
      and matching on code points agree.
    - A [TypedDict] is a record; a [NotRequired] key is an [option] field.
    - A coroutine is a state transformer on [World]; every [await] is a
      suspension point at which the environment [Env] (the receiver task,
      the transport, the generation backend) may act.  The environment is
      arbitrary, so a statement for all environments covers every
      interleaving of the two tasks of a session.
    - Inbound frames that parse are JSON objects with the keys of the
      documented interface, each of its documented type.  The connection
      closes cleanly; the cancellation of the worker after a failure of
      the receiver is outside the model.

    Sections 1 to 10 hold the definitions, sections 11 to 37 the proofs. *)

From Stdlib Require Import String Ascii List ZArith Lia Bool.
From stdpp Require Import base option gmap strings list.

Set Warnings "-register-all".
Local Open Scope string_scope.
Local Open Scope list_scope.

(* ================================================================= *)
(** ** 1. Regular expressions of [get_prompts] *)

(** The character class [[a-zA-Z0-9\_]]. *)
Definition is_word_char (c : ascii) : bool :=
  let n := N_of_ascii c in
  (((97 <=? n) && (n <=? 122)) || ((65 <=? n) && (n <=? 90))
   || ((48 <=? n) && (n <=? 57)) || (n =? 95))%N.

(** [[a-zA-Z0-9\_]+], greedy: the longest run of word characters and what
    follows it.  The token pattern continues with a closing brace, which
    is no word character, so giving back characters of the run can never
    turn a failed match into a success: the longest run decides. *)
Fixpoint span_word (s : string) : string * string :=
  match s with
  | String c r =>
      if is_word_char c
      then let (k, r') := span_word r in (String c k, r')
      else (EmptyString, s)
  | EmptyString => (EmptyString, EmptyString)
  end.

Definition is_char (c : ascii) (o : option ascii) : bool :=
  match o with Some a => Ascii.eqb a c | None => false end.

(** One attempt of [(?<!\{)\{[a-zA-Z0-9\_]+\}(?!\})] at a position:
    [prev] is the character before the position ([None] at the start of
    the text), [s] the text from the position on.  A success gives the
    key ([match.group()[1:-1]]) and the text after the match. *)
Definition match_template (prev : option ascii) (s : string)
  : option (string * string) :=
  match s with
  | String "{" r =>
      if is_char "{" prev then None
      else
        match span_word r with
        | (String k ks, String "}" r2) =>
            match r2 with
            | String "}" _ => None
            | _ => Some (String k ks, r2)
            end
        | _ => None
        end
  | _ => None
  end.

(** [template.sub(replace_content, text)]: the text is scanned once from
    left to right; at each position not inside an earlier match the pattern
    is tried, a match is replaced by [repl key] and the scan resumes after
    it.  [skip] counts the characters of the current match still to pass;
    replacement text is output, never scanned. *)
Fixpoint template_sub (repl : string -> string) (skip : nat)
    (prev : option ascii) (s : string) : string :=
  match s with
  | EmptyString => EmptyString
  | String c r =>
      match skip with
      | S k => template_sub repl k (Some c) r
      | O =>
          match match_template prev s with
          | Some (key, _) =>
              repl key +:+ template_sub repl (S (String.length key)) (Some c) r
          | None => String c (template_sub repl 0 (Some c) r)
          end
      end
  end.

(** [re.sub(cc, c, s)] for a doubled brace [cc]: non-overlapping
    occurrences from the left. *)
Fixpoint sub_pair (c : ascii) (s : string) : string :=
  match s with
  | String a (String b r as t) =>
      if Ascii.eqb a c && Ascii.eqb b c
      then String c (sub_pair c r)
      else String a (sub_pair c t)
  | _ => s
  end.

(** [replace_content]: the value of a known key, the empty string
    otherwise ([data] is [None], empty, or lacks the key). *)
Definition replace_content (data : option (gmap string string))
    (key : string) : string :=
  match data with
  | Some d => if String.eqb key "" then "" else default "" (d !! key)
  | None => ""
  end.

(** The new [msg['content']] (lines 199-201): token substitution first,
    then the closing and the opening braces are undoubled. *)
Definition render_content (data : option (gmap string string))
    (text : string) : string :=
  sub_pair "{" (sub_pair "}" (template_sub (replace_content data) 0 None text)).

(* ================================================================= *)
(** ** 2. Data model *)

Inductive ClientStatusEnum :=
  Idle | NewTask | Interrupt | Working | Responding | Closed.

Definition status_eqb (a b : ClientStatusEnum) : bool :=
  match a, b with
  | Idle, Idle | NewTask, NewTask | Interrupt, Interrupt
  | Working, Working | Responding, Responding | Closed, Closed => true
  | _, _ => false
  end.

(** [status in [ ... ]]. *)
Definition status_in (s : ClientStatusEnum) (l : list ClientStatusEnum) : bool :=
  existsb (status_eqb s) l.

(** JSON values that travel opaquely through the server (the editor
    setup, the adjustments proposed by the backend).  A number keeps its
    literal: the server never computes with it. *)
Inductive json :=
| JNull
| JBool (b : bool)
| JNumber (literal : string)
| JString (s : string)
| JArray (items : list json)
| JObject (members : list (string * json)).

Record IChatMessage := {
  msg_role : string;
  msg_content : string;
  msg_images : option (list string)
}.

Record IChatPrompt := {
  p_messages : list IChatMessage;
  p_stop : option (list string);
  p_temperature : option string;
  p_model : option string;
  p_prefix : option string;
  p_jsonPrefix : option string
}.

Record IClientChatDetails := {
  cd_page : string;
  cd_messages : list IChatMessage;
  cd_conversation : option string;
  cd_setup : option (gmap string json)
}.

Record IClientData := {
  ci_id : nat;
  ci_lang : string;
  ci_action : option string;
  ci_status : ClientStatusEnum;
  ci_chatDetails : option IClientChatDetails;
  ci_fileName : option string;
  ci_images : option (list string)
}.

(* ================================================================= *)
(** ** 3. The template renderer on values *)

Definition system_prompt (text : string) : IChatPrompt :=
  {| p_messages := [ {| msg_role := "system"; msg_content := text; msg_images := None |} ];
     p_stop := None; p_temperature := None; p_model := None;
     p_prefix := None; p_jsonPrefix := None |}.

Definition error_message_en : IChatPrompt :=
  system_prompt "Generate a message to tell someone that you've experienced an error.".

Definition error_message_zh : IChatPrompt :=
  system_prompt "請用正體中文撰寫一句話，告訴對方你正在發生錯誤，請稍後再試。".

(** The class attribute [prompt_error_message]. *)
Definition prompt_error_message : gmap string IChatPrompt :=
  {[ "en" := error_message_en; "zh" := error_message_zh ]}.

Definition set_content (f : string -> string) (m : IChatMessage) : IChatMessage :=
  {| msg_role := msg_role m; msg_content := f (msg_content m);
     msg_images := msg_images m |}.

Definition set_messages (ms : list IChatMessage) (p : IChatPrompt) : IChatPrompt :=
  {| p_messages := ms; p_stop := p_stop p; p_temperature := p_temperature p;
     p_model := p_model p; p_prefix := p_prefix p; p_jsonPrefix := p_jsonPrefix p |}.

(** Lines 198-201: every message of the copy gets its rendered content. *)
Definition fill_messages (data : option (gmap string string))
    (p : IChatPrompt) : IChatPrompt :=
  set_messages (map (set_content (render_content data)) (p_messages p)) p.

(** Lines 185-187: the catalog entry, or else the error template of the
    language, or else the English one.  A catalog entry is a prompt with
    its [messages] key, hence a non-empty (truthy) dict: [or] falls through
    exactly when [.get(prompt_id)] is [None]. *)
Definition select_prompt (prompts : gmap string (gmap string IChatPrompt))
    (lang prompt_id : string) : IChatPrompt :=
  match default ∅ (prompts !! lang) !! prompt_id with
  | Some p => p
  | None => default error_message_en (prompt_error_message !! lang)
  end.

(** [get_prompts] as a function on values: what the returned copy holds. *)
Definition get_prompts (prompts : gmap string (gmap string IChatPrompt))
    (lang prompt_id : string) (data : option (gmap string string)) : IChatPrompt :=
  fill_messages data (select_prompt prompts lang prompt_id).

(* ================================================================= *)
(** ** 4. The template renderer on the object store

    [deepcopy] and the in-place assignment [msg['content'] = ...] are about
    object identity, so this module keeps the dicts and lists of a prompt
    as objects in a store.  A prompt dict refers to its [messages] list,
    the list to its message dicts, a message to its [images] list; strings
    and numbers are immutable values. *)

Module Store.

Definition loc := positive.

Inductive obj :=
| OMessage (role content : string) (images : option loc)
| OStrList (items : list string)
| OMsgList (items : list loc)
| OPrompt (messages : loc) (stop : option loc)
          (temperature model prefix jsonPrefix : option string).

(** The server object: both catalogs refer to prompts in the store. *)
Record server := {
  prompts : gmap string (gmap string loc);
  error_prompts : gmap string loc;
  store : gmap loc obj
}.

(** A new object gets an address no object of the store has. *)
Definition alloc (o : obj) (h : gmap loc obj) : loc * gmap loc obj :=
  let l := fresh (dom h) in (l, <[l := o]> h).

Definition copy_strlist (l : loc) (h : gmap loc obj) : option (loc * gmap loc obj) :=
  match h !! l with
  | Some (OStrList xs) => Some (alloc (OStrList xs) h)
  | _ => None
  end.

Definition copy_opt_strlist (ol : option loc) (h : gmap loc obj)
  : option (option loc * gmap loc obj) :=
  match ol with
  | None => Some (None, h)
  | Some l =>
      match copy_strlist l h with
      | Some (l', h') => Some (Some l', h')
      | None => None
      end
  end.

Definition copy_message (l : loc) (h : gmap loc obj) : option (loc * gmap loc obj) :=
  match h !! l with
  | Some (OMessage r c imgs) =>
      match copy_opt_strlist imgs h with
      | Some (imgs', h1) => Some (alloc (OMessage r c imgs') h1)
      | None => None
      end
  | _ => None
  end.

Fixpoint copy_messages (ls : list loc) (h : gmap loc obj)
  : option (list loc * gmap loc obj) :=
  match ls with
  | [] => Some ([], h)
  | l :: rest =>
      match copy_message l h with
      | Some (l', h1) =>
          match copy_messages rest h1 with
          | Some (rest', h2) => Some (l' :: rest', h2)
          | None => None
          end
      | None => None
      end
  end.

(** [deepcopy] of a prompt: every dict and list reachable from it is
    allocated anew.  ([copy.deepcopy] also keeps sharing inside the copied
    value; a prompt parsed from JSON or written as a literal shares
    nothing.)  [None]: the address holds no well-formed prompt. *)
Definition deepcopy (l : loc) (h : gmap loc obj) : option (loc * gmap loc obj) :=
  match h !! l with
  | Some (OPrompt ms st t m p jp) =>
      match h !! ms with
      | Some (OMsgList items) =>
          match copy_messages items h with
          | Some (items', h1) =>
              let (ms', h2) := alloc (OMsgList items') h1 in
              match copy_opt_strlist st h2 with
              | Some (st', h3) => Some (alloc (OPrompt ms' st' t m p jp) h3)
              | None => None
              end
          | None => None
          end
      | _ => None
      end
  | _ => None
  end.

(** [msg['content'] = f(msg['content'])] for each message of a list. *)
Fixpoint assign_contents (f : string -> string) (ls : list loc)
    (h : gmap loc obj) : option (gmap loc obj) :=
  match ls with
  | [] => Some h
  | l :: rest =>
      match h !! l with
      | Some (OMessage r c imgs) =>
          assign_contents f rest (<[l := OMessage r (f c) imgs]> h)
      | _ => None
      end
  end.

(** The object [get_prompts] copies (lines 186-187). *)
Definition select_prompt (s : server) (lang prompt_id : string) : option loc :=
  match default ∅ (prompts s !! lang) !! prompt_id with
  | Some l => Some l
  | None =>
      match error_prompts s !! lang with
      | Some l => Some l
      | None => error_prompts s !! "en"
      end
  end.

(** [get_prompts] on the store: the address of the returned prompt and
    the server afterwards. *)
Definition get_prompts (s : server) (lang prompt_id : string)
    (data : option (gmap string string)) : option (loc * server) :=
  match select_prompt s lang prompt_id with
  | Some src =>
      match deepcopy src (store s) with
      | Some (p, h1) =>
          match h1 !! p with
          | Some (OPrompt ms _ _ _ _ _) =>
              match h1 !! ms with
              | Some (OMsgList items) =>
                  match assign_contents (render_content data) items h1 with
                  | Some h2 =>
                      Some (p, {| prompts := prompts s;
                                  error_prompts := error_prompts s;
                                  store := h2 |})
                  | None => None
                  end
              | _ => None
              end
          | _ => None
          end
      | None => None
      end
  | None => None
  end.

(** The value an address denotes. *)
Definition read_strlist (h : gmap loc obj) (l : loc) : option (list string) :=
  match h !! l with Some (OStrList xs) => Some xs | _ => None end.

Definition read_opt_strlist (h : gmap loc obj) (ol : option loc)
  : option (option (list string)) :=
  match ol with
  | None => Some None
  | Some l => match read_strlist h l with Some xs => Some (Some xs) | None => None end
  end.

Definition read_message (h : gmap loc obj) (l : loc) : option IChatMessage :=
  match h !! l with
  | Some (OMessage r c imgs) =>
      match read_opt_strlist h imgs with
      | Some i => Some {| msg_role := r; msg_content := c; msg_images := i |}
      | None => None
      end
  | _ => None
  end.

Fixpoint read_messages (h : gmap loc obj) (ls : list loc)
  : option (list IChatMessage) :=
  match ls with
  | [] => Some []
  | l :: rest =>
      match read_message h l, read_messages h rest with
      | Some m, Some ms => Some (m :: ms)
      | _, _ => None
      end
  end.

Definition read_prompt (h : gmap loc obj) (l : loc) : option IChatPrompt :=
  match h !! l with
  | Some (OPrompt ms st t m p jp) =>
      match h !! ms with
      | Some (OMsgList items) =>
          match read_messages h items, read_opt_strlist h st with
          | Some msgs, Some stop =>
              Some {| p_messages := msgs; p_stop := stop; p_temperature := t;
                      p_model := m; p_prefix := p; p_jsonPrefix := jp |}
          | _, _ => None
          end
      | _ => None
      end
  | _ => None
  end.

(** The addresses a prompt is made of: the dict, its lists, its messages. *)
Definition message_locs (h : gmap loc obj) (l : loc) : list loc :=
  match h !! l with
  | Some (OMessage _ _ (Some i)) => [l; i]
  | _ => [l]
  end.

Definition prompt_locs (h : gmap loc obj) (l : loc) : list loc :=
  match h !! l with
  | Some (OPrompt ms st _ _ _ _) =>
      l :: ms :: match st with Some s => [s] | None => [] end
        ++ match h !! ms with
           | Some (OMsgList items) => concat (map (message_locs h) items)
           | _ => []
           end
  | _ => [l]
  end.

(** A server whose store holds the two built-in error templates and one
    catalog entry, for the examples. *)
Definition example_server : server :=
  {| prompts := {[ "en" := {[ "welcome" := 7%positive ]} ]};
     error_prompts := {[ "en" := 1%positive; "zh" := 4%positive ]};
     store :=
       {[ 1%positive := OPrompt 2%positive None None None None None;
          2%positive := OMsgList [3%positive];
          3%positive := OMessage "system"
            "Generate a message to tell someone that you've experienced an error." None;
          4%positive := OPrompt 5%positive None None None None None;
          5%positive := OMsgList [6%positive];
          6%positive := OMessage "system"
            "請用正體中文撰寫一句話，告訴對方你正在發生錯誤，請稍後再試。" None;
          7%positive := OPrompt 8%positive (Some 11%positive) None None None None;
          8%positive := OMsgList [9%positive];
          9%positive := OMessage "system" "Greet {name} {{now}}" (Some 10%positive);
          10%positive := OStrList ["aGVsbG8="];
          11%positive := OStrList ["###"] ]} |}.

End Store.

(* ================================================================= *)
(** ** 5. Conversation strings *)

Definition role_names_en : gmap string string :=
  {[ "user" := "User"; "assistant" := "Cindex (You)" ]}.

Definition role_names_zh : gmap string string :=
  {[ "user" := "使用者"; "assistant" := "斯德 (你)" ]}.

Definition default_role_names : gmap string (gmap string string) :=
  {[ "zh" := role_names_zh; "en" := role_names_en ]}.

Definition newline : string := String (ascii_of_nat 10) EmptyString.

(** [f"{role}: ```{msg['content']}```"] *)
Definition conversation_line (names : gmap string string) (m : IChatMessage) : string :=
  default (msg_role m) (names !! msg_role m) +:+ ": ```" +:+ msg_content m +:+ "```".

Definition render_conversation (names : gmap string string)
    (ms : list IChatMessage) : string :=
  String.concat newline (map (conversation_line names) ms).

Definition set_conversation (s : string) (cd : IClientChatDetails) : IClientChatDetails :=
  {| cd_page := cd_page cd; cd_messages := cd_messages cd;
     cd_conversation := Some s; cd_setup := cd_setup cd |}.

Definition set_chatDetails (cd : option IClientChatDetails) (ci : IClientData) : IClientData :=
  {| ci_id := ci_id ci; ci_lang := ci_lang ci; ci_action := ci_action ci;
     ci_status := ci_status ci; ci_chatDetails := cd;
     ci_fileName := ci_fileName ci; ci_images := ci_images ci |}.

(** [get_conversation]: the returned string and the client data afterwards
    (the function stores the string it builds under ['conversation']).
    The chat details of a client always hold ['page'] and ['messages'], so
    [not chat_details] is [chat_details is None]. *)
Definition get_conversation (ci : IClientData) (lang : string)
    (role_names : option (gmap string (gmap string string)))
  : string * IClientData :=
  match ci_chatDetails ci with
  | None => ("", ci)
  | Some cd =>
      match cd_conversation cd with
      | Some cached => (cached, ci)
      | None =>
          let names :=
            match role_names with
            | Some r => if decide (r = ∅) then default_role_names else r
            | None => default_role_names
            end in
          let lang_role_names := default role_names_en (names !! lang) in
          let conversation_str := render_conversation lang_role_names (cd_messages cd) in
          (conversation_str,
           set_chatDetails (Some (set_conversation conversation_str cd)) ci)
      end
  end.

(* ================================================================= *)
(** ** 6. Python library functions used by the handlers *)

Definition bytes (l : list nat) : string :=
  fold_right (fun n s => String (ascii_of_nat n) s) EmptyString l.

(** The characters [str.strip()] removes ([str.isspace]), as UTF-8. *)
Definition py_whitespace : list string :=
  map bytes
    [ [9]; [10]; [11]; [12]; [13]; [28]; [29]; [30]; [31]; [32];
      [194; 133]; [194; 160]; [225; 154; 128];
      [226; 128; 128]; [226; 128; 129]; [226; 128; 130]; [226; 128; 131];
      [226; 128; 132]; [226; 128; 133]; [226; 128; 134]; [226; 128; 135];
      [226; 128; 136]; [226; 128; 137]; [226; 128; 138];
      [226; 128; 168]; [226; 128; 169]; [226; 128; 175];
      [226; 129; 159]; [227; 128; 128] ].

Fixpoint strip_prefix (p s : string) : option string :=
  match p, s with
  | EmptyString, _ => Some s
  | String a p', String b s' => if Ascii.eqb a b then strip_prefix p' s' else None
  | String _ _, EmptyString => None
  end.

Fixpoint first_stripped (ws : list string) (s : string) : option string :=
  match ws with
  | [] => None
  | w :: rest =>
      match strip_prefix w s with
      | Some s' => Some s'
      | None => first_stripped rest s
      end
  end.

Fixpoint lstrip_with (ws : list string) (fuel : nat) (s : string) : string :=
  match fuel with
  | O => s
  | S fuel' =>
      match first_stripped ws s with
      | Some s' => lstrip_with ws fuel' s'
      | None => s
      end
  end.

Definition string_rev (s : string) : string :=
  string_of_list_ascii (rev (list_ascii_of_string s)).

(** [s.strip()] *)
Definition strip (s : string) : string :=
  let l := lstrip_with py_whitespace (String.length s) s in
  string_rev
    (lstrip_with (map string_rev py_whitespace) (String.length l) (string_rev l)).

Definition is_digit (c : ascii) : bool :=
  let n := N_of_ascii c in ((48 <=? n) && (n <=? 57))%N.

Fixpoint all_digits (s : string) : bool :=
  match s with
  | EmptyString => true
  | String c r => is_digit c && all_digits r
  end.

Fixpoint digits_value (acc : N) (s : string) : N :=
  match s with
  | EmptyString => acc
  | String c r => digits_value (10 * acc + (N_of_ascii c - 48))%N r
  end.

(** [re.compile(r"^[0-9]+$").match(results)] followed by [int(results)],
    on a stripped string (so [$] can only match at the very end).  [None]
    stands for the [ValueError] the handler raises when the pattern does
    not match; [int] raises the same exception past its limit of 4300
    digits. *)
Definition parse_intent (results : string) : option N :=
  match results with
  | EmptyString => None
  | _ =>
      if all_digits results && (String.length results <=? 4300)%nat
      then Some (digits_value 0 results)
      else None
  end.

(** Truthiness of a [str]. *)
Definition truthy (s : string) : bool :=
  match s with EmptyString => false | _ => true end.

(* ================================================================= *)
(** ** 7. A session and its environment *)

Inductive Exn :=
| ConnectionError | ValueError | KeyError | IndexError | AttributeError
| JSONDecodeError | WebSocketException | ClientError.

Inductive result (A : Type) :=
| Ok (a : A)
| Raise (e : Exn).
Arguments Ok {A} a.
Arguments Raise {A} e.

(** The frames of the outbound protocol. *)
Inductive OutFrame :=
| ResponseStart (action : option string)
| Response (text : string) (action : option string)
| ResponseEnd (action : option string)
| ResponseAction (name : string) (fields : list (string * json)).

(** An inbound frame that parsed: each key may be absent. *)
Record Frame := {
  f_lang : option string;
  f_fileName : option string;
  f_images : option (list string);
  f_action : option string;
  f_details : option IClientChatDetails
}.

Inductive Inbound :=
| Malformed
| Parsed (f : Frame).

(** What the rest of the system does while the worker is suspended:
    the receiver task handles a message, or the connection closes. *)
Inductive Event :=
| Recv (m : Inbound)
| CloseConn.

(** How [client.send] ends: normally, with [ConnectionClosedError], or
    with another [WebSocketException]. *)
Inductive SendOutcome :=
| SendOk
| SendConnectionClosedError
| SendWebSocketException.

(** One object of the streamed reply, as far as [stream_prompts] looks at
    it: no ['message'] key; a dict message with or without ['content'];
    a string message; a message of another type. *)
Inductive Chunk :=
| ChunkNoMessage
| ChunkMessageDict (content : option string)
| ChunkMessageStr (s : string)
| ChunkMessageOther.

(** The environment of one session.  Suspensions of the worker task are
    numbered; the environment says what happens during each. *)
Record Env := {
  (** the catalog loaded by [__init__] *)
  catalog : gmap string (gmap string IChatPrompt);
  (** what the receiver and the transport do during suspension [n] *)
  inbound : nat -> list Event;
  (** how the [client.send] awaited at suspension [n] ends *)
  send_outcome : nat -> SendOutcome;
  (** [_response_from_llm] awaited at suspension [n] *)
  llm_response : nat -> IChatPrompt -> result string;
  (** [_stream_from_llm] started at suspension [n]: the objects it yields,
      then how it ends *)
  llm_stream : nat -> IChatPrompt -> list Chunk * option Exn;
  (** [json.loads] ([None]: [JSONDecodeError]), [json.dumps], the text an
      f-string gives a value, and [!=] on values *)
  json_loads : string -> option json;
  json_dumps : json -> string;
  py_format : json -> string;
  py_ne : json -> json -> bool
}.

Record World := {
  w_client : IClientData;      (* client_info *)
  w_closed : bool;             (* client.closed *)
  w_clients : gset nat;        (* the keys of self.clients *)
  w_tick : nat;                (* suspensions so far *)
  w_sent : list OutFrame;      (* frames the transport took, oldest first *)
  (* ghost: the status at each request to the backend, oldest first *)
  w_requests : list (ClientStatusEnum * IChatPrompt)
}.

Definition with_client (f : IClientData -> IClientData) (w : World) : World :=
  {| w_client := f (w_client w); w_closed := w_closed w; w_clients := w_clients w;
     w_tick := w_tick w; w_sent := w_sent w; w_requests := w_requests w |}.

Definition close_client (w : World) : World :=
  {| w_client := w_client w; w_closed := true; w_clients := w_clients w;
     w_tick := w_tick w; w_sent := w_sent w; w_requests := w_requests w |}.

Definition next_tick (w : World) : World :=
  {| w_client := w_client w; w_closed := w_closed w; w_clients := w_clients w;
     w_tick := S (w_tick w); w_sent := w_sent w; w_requests := w_requests w |}.

Definition push_sent (f : OutFrame) (w : World) : World :=
  {| w_client := w_client w; w_closed := w_closed w; w_clients := w_clients w;
     w_tick := w_tick w; w_sent := w_sent w ++ [f]; w_requests := w_requests w |}.

Definition push_request (p : IChatPrompt) (w : World) : World :=
  {| w_client := w_client w; w_closed := w_closed w; w_clients := w_clients w;
     w_tick := w_tick w; w_sent := w_sent w;
     w_requests := w_requests w ++ [(ci_status (w_client w), p)] |}.

Definition set_status (st : ClientStatusEnum) (ci : IClientData) : IClientData :=
  {| ci_id := ci_id ci; ci_lang := ci_lang ci; ci_action := ci_action ci;
     ci_status := st; ci_chatDetails := ci_chatDetails ci;
     ci_fileName := ci_fileName ci; ci_images := ci_images ci |}.

Definition set_action (a : option string) (ci : IClientData) : IClientData :=
  {| ci_id := ci_id ci; ci_lang := ci_lang ci; ci_action := a;
     ci_status := ci_status ci; ci_chatDetails := ci_chatDetails ci;
     ci_fileName := ci_fileName ci; ci_images := ci_images ci |}.

Definition set_lang (l : string) (ci : IClientData) : IClientData :=
  {| ci_id := ci_id ci; ci_lang := l; ci_action := ci_action ci;
     ci_status := ci_status ci; ci_chatDetails := ci_chatDetails ci;
     ci_fileName := ci_fileName ci; ci_images := ci_images ci |}.

Definition set_fileName (n : string) (ci : IClientData) : IClientData :=
  {| ci_id := ci_id ci; ci_lang := ci_lang ci; ci_action := ci_action ci;
     ci_status := ci_status ci; ci_chatDetails := ci_chatDetails ci;
     ci_fileName := Some n; ci_images := ci_images ci |}.

Definition set_images (i : list string) (ci : IClientData) : IClientData :=
  {| ci_id := ci_id ci; ci_lang := ci_lang ci; ci_action := ci_action ci;
     ci_status := ci_status ci; ci_chatDetails := ci_chatDetails ci;
     ci_fileName := ci_fileName ci; ci_images := Some i |}.

Definition on_present {A} (o : option A) (f : A -> IClientData -> IClientData)
    (ci : IClientData) : IClientData :=
  match o with Some a => f a ci | None => ci end.

(** The body of the loop of [ws_receiver] for one message (lines 886-915). *)
Definition ws_receiver_step (m : Inbound) (ci : IClientData) : IClientData :=
  match m with
  | Malformed => ci
  | Parsed data =>
      let ci := on_present (f_lang data) set_lang ci in
      let ci := on_present (f_fileName data) set_fileName ci in
      let ci := on_present (f_images data) set_images ci in
      let ci :=
        on_present (f_action data)
          (fun a ci =>
             let ci := set_action (Some a) ci in
             if status_in (ci_status ci) [Working; Responding]
             then set_status Interrupt ci
             else set_status NewTask ci) ci in
      on_present (f_details data) (fun d => set_chatDetails (Some d)) ci
  end.

(** [ws_receiver] over the messages of a connection, in arrival order. *)
Definition ws_receiver (ms : list Inbound) (ci : IClientData) : IClientData :=
  fold_left (fun ci m => ws_receiver_step m ci) ms ci.

(** One event of the environment.  The receiver's loop ends with the
    connection, so later messages change nothing. *)
Definition deliver (w : World) (ev : Event) : World :=
  match ev with
  | Recv m => if w_closed w then w else with_client (ws_receiver_step m) w
  | CloseConn => close_client w
  end.

(** The coroutines of the worker task. *)
Definition M (A : Type) : Type := World -> result A * World.

Definition ret {A} (a : A) : M A := fun w => (Ok a, w).

Definition raise {A} (e : Exn) : M A := fun w => (Raise e, w).

Definition bind {A B} (m : M A) (k : A -> M B) : M B :=
  fun w =>
    match m w with
    | (Ok a, w') => k a w'
    | (Raise e, w') => (Raise e, w')
    end.

Definition get : M World := fun w => (Ok w, w).

Definition modify (f : World -> World) : M unit := fun w => (Ok tt, f w).

Declare Scope session_scope.
Delimit Scope session_scope with session.
Notation "x <- c1 ;; c2" := (bind c1 (fun x => c2))
  (at level 100, c1 at next level, right associativity) : session_scope.
Notation "c1 ;; c2" := (bind c1 (fun _ => c2))
  (at level 100, right associativity) : session_scope.
Local Open Scope session_scope.

Definition client_do (f : IClientData -> IClientData) : M unit :=
  modify (with_client f).

Definition client : M IClientData := w <- get ;; ret (w_client w).

(** Runs the plumbing of a coroutine in a goal. *)
Ltac run_coroutine := cbv [bind ret raise get modify client client_do].

Section Session.

Variable E : Env.

(** An [await] that suspends the worker: the environment's events of this
    suspension happen; the result is the suspension's number. *)
Definition suspend : M nat :=
  fun w =>
    let n := w_tick w in
    (Ok n, fold_left deliver (inbound E n) (next_tick w)).

(** [ensure_ws_send_message] (lines 300-307): no send on a closed client;
    otherwise one [send], whose [ConnectionClosedError] alone is caught. *)
Definition ensure_ws_send_message (json_message : OutFrame) : M bool :=
  w <- get ;;
  if w_closed w then ret false
  else
    n <- suspend ;;
    match send_outcome E n with
    | SendOk => modify (push_sent json_message) ;; ret true
    | SendConnectionClosedError => ret false
    | SendWebSocketException => raise WebSocketException
    end.

(** [_response_from_llm]: one request, one awaited reply. *)
Definition _response_from_llm (prompts : IChatPrompt) : M string :=
  modify (push_request prompts) ;;
  n <- suspend ;;
  match llm_response E n prompts with
  | Ok data => ret data
  | Raise e => raise e
  end.

(** ['message' in chunk_data] *)
Definition has_message (c : Chunk) : bool :=
  match c with ChunkNoMessage => false | _ => true end.

(** Lines 350-352. *)
Definition chunk_text (c : Chunk) : option string :=
  match c with
  | ChunkMessageDict (Some content) => Some content
  | ChunkMessageStr s => Some s
  | _ => None
  end.

(** How the body of the [async for] of [stream_prompts] leaves: the
    function returns [False], or the loop goes on with a new [prev_msg]. *)
Inductive LoopExit :=
| Aborted
| Continue (prev_msg : string).

(** Lines 354-362. *)
Definition send_text (action : option string) (text : option string)
    (prev_msg : string) : M LoopExit :=
  match text with
  | Some t =>
      if truthy t then
        let text := prev_msg +:+ t in
        n <- suspend ;;
        match send_outcome E n with
        | SendOk => modify (push_sent (Response text action)) ;; ret (Continue "")
        | SendConnectionClosedError => ret Aborted
        | SendWebSocketException => ret (Continue text)
        end
      else ret (Continue prev_msg)
  | None => ret (Continue prev_msg)
  end.

(** Lines 337-362. *)
Definition on_chunk (action : option string) (chunk_data : Chunk)
    (prev_msg : string) : M LoopExit :=
  if has_message chunk_data then
    ci <- client ;;
    started <-
      (if status_eqb (ci_status ci) Working then
         client_do (set_status Responding) ;;
         ensure_ws_send_message (ResponseStart action)
       else ret true) ;;
    if started then send_text action (chunk_text chunk_data) prev_msg
    else ret Aborted
  else ret (Continue prev_msg).

(** Lines 332-334. *)
Definition must_abort (w : World) : bool :=
  negb (bool_decide (ci_id (w_client w) ∈ w_clients w))
  || w_closed w
  || status_in (ci_status (w_client w)) [Closed; Interrupt].

(** The [async for] of [stream_prompts] (lines 331-362) over the objects
    the generator still has to yield; [ending] is how the generator ends
    after them.  Each step first awaits the generator. *)
Fixpoint stream_loop (action : option string) (chunks : list Chunk)
    (ending : option Exn) (prev_msg : string) : M LoopExit :=
  suspend ;;
  match chunks with
  | [] =>
      match ending with
      | None => ret (Continue prev_msg)
      | Some e => raise e
      end
  | chunk_data :: rest =>
      w <- get ;;
      if must_abort w then ret Aborted
      else
        r <- on_chunk action chunk_data prev_msg ;;
        match r with
        | Aborted => ret Aborted
        | Continue prev_msg' => stream_loop action rest ending prev_msg'
        end
  end.

(** Lines 364-383: after the loop. *)
Definition stream_finish (flag_idle : bool) (action : option string)
    (prev_msg : string) : M bool :=
  resent <-
    (if truthy prev_msg
     then ensure_ws_send_message (Response prev_msg action)
     else ret true) ;;
  if resent then
    sent <- ensure_ws_send_message (ResponseEnd action) ;;
    if sent then
      ci <- client ;;
      (if flag_idle && status_in (ci_status ci) [Working; Responding]
       then client_do (set_status Idle)
       else ret tt) ;;
      ret true
    else ret false
  else ret false.

(** [stream_prompts] *)
Definition stream_prompts (prompts : IChatPrompt) (flag_idle : bool)
    (action : option string) : M bool :=
  client_do (set_status Working) ;;
  modify (push_request prompts) ;;
  w <- get ;;
  let (chunks, ending) := llm_stream E (w_tick w) prompts in
  r <- stream_loop action chunks ending "" ;;
  match r with
  | Aborted => ret false
  | Continue prev_msg => stream_finish flag_idle action prev_msg
  end.

(* ----------------------------------------------------------------- *)
(** *** Handlers *)

(** [self.get_prompts(lang, prompt_id, data)] on the loaded catalog. *)
Definition prompt (lang prompt_id : string) (data : list (string * string))
  : IChatPrompt :=
  get_prompts (catalog E) lang prompt_id
    (match data with [] => None | _ => Some (list_to_map data) end).

(** [self.get_conversation(client_info, lang)] *)
Definition conversation (lang : string) : M string :=
  ci <- client ;;
  let (s, ci') := get_conversation ci lang None in
  client_do (fun _ => ci') ;;
  ret s.

(** [get_last_message]: [messages[-1]] of an empty history raises. *)
Definition get_last_message : M string :=
  ci <- client ;;
  match ci_chatDetails ci with
  | Some cd =>
      match last (cd_messages cd) with
      | Some m => ret (msg_content m)
      | None => raise IndexError
      end
  | None => ret ""
  end.

(** [prompts['messages'][0]['images'] = images] *)
Definition set_first_images (imgs : list string) (p : IChatPrompt)
  : option IChatPrompt :=
  match p_messages p with
  | m :: rest =>
      Some (set_messages
              ({| msg_role := msg_role m; msg_content := msg_content m;
                  msg_images := Some imgs |} :: rest) p)
  | [] => None
  end.

Definition create_welcome_message : M unit :=
  ci <- client ;;
  let prompts := prompt (ci_lang ci) "welcome" [] in
  stream_prompts prompts true (Some "Welcome") ;;
  ret tt.

Definition create_image_opened_message : M unit :=
  ci <- client ;;
  match ci_fileName ci with
  | None => raise ValueError
  | Some file_name =>
      let prompts := prompt (ci_lang ci) "imageOpened" [("file_name", file_name)] in
      stream_prompts prompts true (Some "ImageOpened") ;;
      ret tt
  end.

Definition create_auto_image_desc_message : M unit :=
  ci <- client ;;
  match ci_images ci with
  | None => raise ValueError
  | Some imgs =>
      match set_first_images imgs (prompt (ci_lang ci) "autoDescription" []) with
      | None => raise IndexError
      | Some prompts =>
          stream_prompts prompts true (Some "AutoImageDesc") ;;
          ret tt
      end
  end.

Definition stream_not_understand : M unit :=
  ensure_ws_send_message (ResponseAction "notUnderstand" []) ;;
  ci <- client ;;
  conv <- conversation (ci_lang ci) ;;
  stream_prompts
    (prompt (ci_lang ci) "notUnderstand" [("conversation", conv)]) true None ;;
  ret tt.

(** Lines 497-500 and 557-560. *)
Definition describe_changes (original_setup adjustments : list (string * json))
  : string :=
  fold_left
    (fun changes kv =>
       match list_to_map (M := gmap string json) original_setup !! kv.1 with
       | Some old =>
           if py_ne E kv.2 old
           then changes +:+ kv.1 +:+ ": from " +:+ py_format E old
                        +:+ " to " +:+ py_format E kv.2 +:+ ". "
           else changes
       | None => changes
       end)
    adjustments "".

(** [{k: setup[k] for k in keys}], with the [KeyError] of a missing key. *)
Fixpoint pick_setup (keys : list string) (setup : gmap string json)
  : option (list (string * json)) :=
  match keys with
  | [] => Some []
  | k :: rest =>
      match setup !! k, pick_setup rest setup with
      | Some v, Some vs => Some ((k, v) :: vs)
      | _, _ => None
      end
  end.

(** [edit_photo] and [crop_rotate] are the same text but for the keys of
    the setup they read and the template they render. *)
Definition adjust_setup (keys : list string) (prompt_id : string) : M unit :=
  ci <- client ;;
  match ci_chatDetails ci with
  | None => raise ValueError
  | Some cd =>
      match cd_setup cd with
      | None => raise ValueError
      | Some setup =>
          match pick_setup keys setup with
          | None => raise KeyError
          | Some original_setup =>
              let current_setup := json_dumps E (JObject original_setup) in
              conv <- conversation "en" ;;
              let prompts :=
                prompt "en" prompt_id
                  [("current_setup", current_setup); ("conversation", conv)] in
              results <- _response_from_llm prompts ;;
              ci <- client ;;
              if status_eqb (ci_status ci) Interrupt then ret tt
              else
                let results := strip results in
                let prefix := default "" (p_jsonPrefix prompts) in
                match json_loads E (prefix +:+ results) with
                | None => stream_not_understand
                | Some adjustments =>
                    ensure_ws_send_message
                      (ResponseAction "editImage" [("setup", adjustments)]) ;;
                    ci <- client ;;
                    if status_eqb (ci_status ci) Interrupt then ret tt
                    else
                      match adjustments with
                      | JObject items =>
                          let changes := describe_changes original_setup items in
                          let prompts :=
                            if truthy changes
                            then prompt (ci_lang ci) "imageEdited" [("changes", changes)]
                            else prompt (ci_lang ci) "imageNotEdited" [] in
                          stream_prompts prompts true None ;;
                          ret tt
                      | _ => raise AttributeError
                      end
                end
          end
      end
  end.

Definition edit_photo : M unit :=
  adjust_setup ["brightness"; "contrast"; "saturation"] "editImage".

Definition crop_rotate : M unit :=
  adjust_setup ["crop"; "rotate"] "rotateCrop".

Definition describe_image : M unit :=
  ci <- client ;;
  match ci_images ci with
  | None => raise ValueError
  | Some imgs =>
      conv <- conversation (ci_lang ci) ;;
      match set_first_images imgs
              (prompt (ci_lang ci) "describeImage" [("conversation", conv)]) with
      | None => raise IndexError
      | Some prompts =>
          stream_prompts prompts true None ;;
          ret tt
      end
  end.

(** [stream_prompts(get_prompts(lang, id, {'last_message': ...}), ..., True)] *)
Definition stream_about_last_message (prompt_id : string) : M unit :=
  ci <- client ;;
  last_message <- get_last_message ;;
  stream_prompts
    (prompt (ci_lang ci) prompt_id [("last_message", last_message)]) true None ;;
  ret tt.

(** [stream_prompts(get_prompts(lang, id, {'conversation': ...}), ..., True)] *)
Definition stream_about_conversation (prompt_id : string) : M unit :=
  ci <- client ;;
  conv <- conversation (ci_lang ci) ;;
  stream_prompts
    (prompt (ci_lang ci) prompt_id [("conversation", conv)]) true None ;;
  ret tt.

(** Lines 617-635: the two supported languages. *)
Definition switch_to (lang : string) : M unit :=
  client_do (set_lang lang) ;;
  ensure_ws_send_message (ResponseAction "switchLang" [("lang", JString lang)]) ;;
  stream_prompts (prompt lang "langSwitched" [("lang", lang)]) true None ;;
  ret tt.

Definition switch_lang_by_message : M unit :=
  last_message <- get_last_message ;;
  let prompts := prompt "en" "switchLanguage" [("last_message", last_message)] in
  results <- _response_from_llm prompts ;;
  ci <- client ;;
  if status_eqb (ci_status ci) Interrupt then ret tt
  else
    match parse_intent (strip results) with
    | None => raise ValueError
    | Some intent =>
        match intent with
        | 1%N => switch_to "zh"
        | 2%N => switch_to "en"
        | 3%N => stream_about_last_message "langNotSupported"
        | 4%N => stream_about_last_message "langReAsk"
        | _ => stream_not_understand
        end
    end.

(** [ensure_ws_send_message({'responseAction': name})], then the template
    of the same flow. *)
Definition file_action (name prompt_id : string) : M unit :=
  ensure_ws_send_message (ResponseAction name []) ;;
  ci <- client ;;
  stream_prompts (prompt (ci_lang ci) prompt_id []) true None ;;
  ret tt.

Definition stream_plain (prompt_id : string) : M unit :=
  ci <- client ;;
  stream_prompts (prompt (ci_lang ci) prompt_id []) true None ;;
  ret tt.

(** Lines 718-736 and 775-793: the intent of a chat message. *)
Definition ask_intent (prompt_id : string) : M (option N) :=
  ci <- client ;;
  conv <- conversation (ci_lang ci) ;;
  let prompts := prompt "en" prompt_id [("conversation", conv)] in
  client_do (set_status Working) ;;
  results <- _response_from_llm prompts ;;
  ci <- client ;;
  if status_eqb (ci_status ci) Interrupt then ret None
  else
    match parse_intent (strip results) with
    | None => raise ValueError
    | Some intent => ret (Some intent)
    end.

Definition chat_in_blank_page : M unit :=
  r <- ask_intent "newFile" ;;
  match r with
  | None => ret tt
  | Some intent =>
      match intent with
      | 1%N => file_action "openFile" "openFile"
      | 2%N => stream_plain "saveFileNoFile"
      | 3%N => switch_lang_by_message
      | 4%N => stream_about_conversation "about"
      | 5%N => stream_about_conversation "casualChat"
      | _ => stream_not_understand
      end
  end.

Definition chat_in_editor : M unit :=
  r <- ask_intent "chatEditor" ;;
  match r with
  | None => ret tt
  | Some intent =>
      match intent with
      | 1%N => file_action "openFile" "openFile"
      | 2%N => file_action "saveFile" "saveFile"
      | 3%N => switch_lang_by_message
      | 4%N => edit_photo
      | 5%N => crop_rotate
      | 7%N => describe_image
      | 8%N => stream_about_conversation "about"
      | 9%N => stream_about_conversation "casualChat"
      | _ => stream_not_understand
      end
  end.

(* ----------------------------------------------------------------- *)
(** *** The worker loop and the runtime *)

(** Lines 860-877: the handler of an action taken from [client_info]. *)
Definition dispatch (data : string) : M unit :=
  ci <- client ;;
  if String.eqb data "Welcome" then create_welcome_message
  else if String.eqb data "ImageOpened" then create_image_opened_message
  else if String.eqb data "Chat" && bool_decide (is_Some (ci_chatDetails ci)) then
    match ci_chatDetails ci with
    | Some cd =>
        if String.eqb (cd_page cd) "blank" then chat_in_blank_page
        else if String.eqb (cd_page cd) "editor" then chat_in_editor
        else ret tt
    | None => ret tt
    end
  else if String.eqb data "AutoImageDesc" then create_auto_image_desc_message
  else ret tt.

(** Lines 857-877: one pass through the body of the loop, up to the sleep. *)
Definition worker_body : M unit :=
  ci <- client ;;
  match ci_action ci with
  | Some data =>
      if truthy data then
        client_do (set_action None) ;;
        dispatch data
      else ret tt
  | None => ret tt
  end.

Inductive WorkerExit :=
| LoopEnded      (* the loop condition failed: the coroutine returned *)
| StillRunning.  (* the passes counted by the fuel are done *)

(** [ws_llm_worker] for at most [fuel] passes of its loop. *)
Fixpoint ws_llm_worker (fuel : nat) : M WorkerExit :=
  match fuel with
  | O => ret StillRunning
  | S fuel' =>
      w <- get ;;
      if negb (w_closed w) && bool_decide (ci_id (w_client w) ∈ w_clients w) then
        worker_body ;;
        suspend ;;
        ws_llm_worker fuel'
      else ret LoopEnded
  end.

End Session.

(** How [ws_runtime] leaves its task group. *)
Inductive SessionEnd :=
| SessionClosed              (* the loops returned; lines 941-942 ran *)
| SessionCrashed (e : Exn)   (* the worker raised: the group cancels the
                                receiver and raises, lines 941-942 are skipped *)
| SessionRunning.

Definition initial_client (client_id : nat) : IClientData :=
  {| ci_id := client_id; ci_lang := "en"; ci_action := None; ci_status := Idle;
     ci_chatDetails := None; ci_fileName := None; ci_images := None |}.

Definition unregister (w : World) : World :=
  {| w_client := set_status Closed (w_client w); w_closed := w_closed w;
     w_clients := w_clients w ∖ {[ ci_id (w_client w) ]};
     w_tick := w_tick w; w_sent := w_sent w; w_requests := w_requests w |}.

(** [ws_runtime] for a connection accepted when [_client_index] is
    [client_index] and [self.clients] has the keys [clients].  The
    receiver runs inside the suspensions of the worker. *)
Definition ws_runtime (E : Env) (fuel : nat) (client_index : nat)
    (clients : gset nat) : SessionEnd * World :=
  let client_id := S client_index in
  let w0 :=
    {| w_client := initial_client client_id; w_closed := false;
       w_clients := {[ client_id ]} ∪ clients; w_tick := 0;
       w_sent := []; w_requests := [] |} in
  match ws_llm_worker E fuel w0 with
  | (Ok LoopEnded, w) => (SessionClosed, unregister w)
  | (Ok StillRunning, w) => (SessionRunning, w)
  | (Raise e, w) => (SessionCrashed e, w)
  end.

(* ================================================================= *)
(** ** 8. Specification-side definitions *)

(** A template read as a sequence of segments: literal characters and
    tokens.  The segmentation looks at the template only. *)
Inductive Segment :=
| Lit (c : ascii)
| Token (key : string).

Fixpoint segments (skip : nat) (prev : option ascii) (s : string) : list Segment :=
  match s with
  | EmptyString => []
  | String c r =>
      match skip with
      | S k => segments k (Some c) r
      | O =>
          match match_template prev s with
          | Some (key, _) => Token key :: segments (S (String.length key)) (Some c) r
          | None => Lit c :: segments 0 (Some c) r
          end
      end
  end.

Definition emit (repl : string -> string) (seg : Segment) : string :=
  match seg with
  | Lit c => String c EmptyString
  | Token key => repl key
  end.

(** A key a token can hold: one or more word characters. *)
Fixpoint all_word (s : string) : bool :=
  match s with
  | EmptyString => true
  | String c r => is_word_char c && all_word r
  end.

Definition is_key (s : string) : bool := truthy s && all_word s.

(** The world after a suspension of the worker. *)
Definition suspended (E : Env) (w : World) : World :=
  fold_left deliver (inbound E (w_tick w)) (next_tick w).

(** An event that carries no action. *)
Definition quiet_event (ev : Event) : Prop :=
  match ev with
  | Recv (Parsed f) => f_action f = None
  | _ => True
  end.

(** An environment in which no action ever arrives. *)
Definition quiet (E : Env) : Prop :=
  forall n, Forall quiet_event (inbound E n).



(** The text of the objects of a stream, as [stream_prompts] reads it. *)
Definition all_text (chunks : list Chunk) : string :=
  String.concat "" (map (fun c => default "" (chunk_text c)) chunks).

(** A frame other than [responseEnd]. *)
Definition not_end (f : OutFrame) : Prop :=
  match f with ResponseEnd _ => False | _ => True end.

(** The world in which [stream_prompts] enters its loop. *)
Definition stream_start (prompts : IChatPrompt) (w : World) : World :=
  push_request prompts (with_client (set_status Working) w).

(** The actions [ws_llm_worker] has a handler for, given the chat details
    of the client (lines 860-875). *)
Definition recognised (data : string) (cd : option IClientChatDetails) : bool :=
  String.eqb data "Welcome" || String.eqb data "ImageOpened"
  || (String.eqb data "Chat" && bool_decide (is_Some cd))
  || String.eqb data "AutoImageDesc".

(** The prompt [chat_in_blank_page] and [chat_in_editor] ask the intent
    with, and the world when the reply arrives. *)
Definition intent_prompt (E : Env) (prompt_id : string) (w : World) : IChatPrompt :=
  prompt E "en" prompt_id
    [("conversation", (get_conversation (w_client w) (ci_lang (w_client w)) None).1)].

Definition intent_asked (E : Env) (prompt_id : string) (w : World) : World :=
  suspended E
    (push_request (intent_prompt E prompt_id w)
       (with_client (set_status Working)
          (with_client
             (fun _ => (get_conversation (w_client w) (ci_lang (w_client w)) None).2)
             w))).

(** An object without the content assigned by the renderer: what stays
    of a message when its ['content'] is replaced. *)
Definition erase (o : Store.obj) : Store.obj :=
  match o with
  | Store.OMessage r _ i => Store.OMessage r "" i
  | _ => o
  end.

(** A message of the store: its address is new with respect to [h0], and
    so is the address of its list of images. *)
Definition new_message (h0 h : gmap Store.loc Store.obj) (l : Store.loc) : Prop :=
  h0 !! l = None
  /\ exists r c imgs,
       h !! l = Some (Store.OMessage r c imgs)
       /\ (forall i, imgs = Some i -> h0 !! i = None).

(** An address of the store and the value it denotes, if any. *)
Definition reads (h : gmap Store.loc Store.obj) (ol : option Store.loc)
    (ov : option IChatPrompt) : Prop :=
  match ol, ov with
  | Some l, Some v => Store.read_prompt h l = Some v
  | None, None => True
  | _, _ => False
  end.

(** The server object denotes the catalog [catalog] and the built-in
    error templates. *)
Definition abstracts (s : Store.server)
    (catalog : gmap string (gmap string IChatPrompt)) : Prop :=
  (forall lang prompt_id,
      reads (Store.store s)
        (default ∅ (Store.prompts s !! lang) !! prompt_id)
        (default ∅ (catalog !! lang) !! prompt_id))
  /\ (forall lang,
        reads (Store.store s) (Store.error_prompts s !! lang)
          (prompt_error_message !! lang)).

(* ================================================================= *)
(** ** 9. Example inputs *)

Definition example_env (stream : list Chunk) (events : nat -> list Event)
    (sends : nat -> SendOutcome) (replies : nat -> result string) : Env :=
  {| catalog := ∅; inbound := events; send_outcome := sends;
     llm_response := fun n _ => replies n;
     llm_stream := fun _ _ => (stream, None);
     json_loads := fun _ => None; json_dumps := fun _ => "";
     py_format := fun _ => ""; py_ne := fun _ _ => false |}.

Definition action_frame (a : string) : Event :=
  Recv (Parsed {| f_lang := None; f_fileName := None; f_images := None;
                  f_action := Some a; f_details := None |}).

(** The frame of a chat message typed on [page]. *)
Definition chat_frame (page : string) (setup : option (gmap string json)) : Event :=
  Recv (Parsed
    {| f_lang := None; f_fileName := None; f_images := None;
       f_action := Some "Chat";
       f_details :=
         Some {| cd_page := page;
                 cd_messages := [ {| msg_role := "user";
                                     msg_content := "make it brighter";
                                     msg_images := None |} ];
                 cd_conversation := None; cd_setup := setup |} |}).

Definition chat_arrives (page : string) (setup : option (gmap string json))
  : nat -> list Event :=
  fun n => if Nat.eqb n 0 then [chat_frame page setup] else [].

Definition no_events : nat -> list Event := fun _ => [].

Definition always_sent : nat -> SendOutcome := fun _ => SendOk.

Definition no_reply : nat -> result string := fun _ => Raise ConnectionError.

(** A connected client with nothing to do. *)
Definition open_world : World :=
  {| w_client := initial_client 1; w_closed := false; w_clients := {[ 1 ]};
     w_tick := 0; w_sent := []; w_requests := [] |}.

(** A stream whose only object has no ['message'] key. *)
Definition env_no_message : Env :=
  example_env [ChunkNoMessage] no_events always_sent no_reply.


(** Two fragments; both sends of text (suspensions 2 and 4) fail. *)
Definition env_two_failures : Env :=
  example_env [ChunkMessageStr "a"; ChunkMessageStr "b"] no_events
    (fun n => if Nat.eqb n 2 || Nat.eqb n 4 then SendWebSocketException else SendOk)
    no_reply.

(** One fragment; an action arrives while the worker waits for the end of
    the stream (suspension 3). *)
Definition env_late_action : Env :=
  example_env [ChunkMessageStr "Hi"]
    (fun n => if Nat.eqb n 3 then [action_frame "Chat"] else [])
    always_sent no_reply.

(** Two fragments; an action arrives while the worker waits for the
    second (suspension 3). *)
Definition env_interrupt : Env :=
  example_env [ChunkMessageStr "Hi"; ChunkMessageStr " there"]
    (fun n => if Nat.eqb n 3 then [action_frame "Chat"] else [])
    always_sent no_reply.

(** The world of [env_interrupt] when the worker awaits the second
    fragment: the first has been delivered. *)
Definition world_responding : World :=
  {| w_client := set_status Responding (initial_client 1); w_closed := false;
     w_clients := {[ 1 ]}; w_tick := 3;
     w_sent := [ResponseStart None; Response "Hi" None];
     w_requests := [(Working, error_message_en)] |}.

(** A client whose pending action has no handler. *)
Definition world_unknown_action : World :=
  with_client (ws_receiver_step
    (Parsed {| f_lang := None; f_fileName := None; f_images := None;
               f_action := Some "Undo"; f_details := None |})) open_world.

(** A client whose pending action is the empty string, as the receiver
    stores it from the frame [{"action": ""}]. *)
Definition world_empty_action : World :=
  with_client (ws_receiver_step
    (Parsed {| f_lang := None; f_fileName := None; f_images := None;
               f_action := Some ""; f_details := None |})) open_world.

(** A chat message on the blank page; the backend answers no request. *)
Definition env_backend_down : Env :=
  example_env [] (chat_arrives "blank" None) always_sent no_reply.

(** A chat message on the blank page; the backend answers in words. *)
Definition env_wordy_reply : Env :=
  example_env [] (chat_arrives "blank" None) always_sent
    (fun _ => Ok "You want to open a file.").

(** A chat message on the blank page; the backend answers [6]. *)
Definition env_unknown_intent : Env :=
  example_env [] (chat_arrives "blank" None) always_sent (fun _ => Ok "6").

Definition editor_setup : gmap string json :=
  {[ "brightness" := JNumber "1"; "contrast" := JNumber "1";
     "saturation" := JNumber "1" ]}.

(** A chat message in the editor; while the backend works out its intent
    (suspension 1) the client sends two more actions; the backend answers
    [4] (edit the photo). *)
Definition env_double_action : Env :=
  {| catalog :=
       {[ "en" := {[ "chatEditor" := system_prompt "Intent of: {conversation}";
                     "editImage" := system_prompt "Adjust {current_setup}" ]} ]};
     inbound := fun n =>
       if Nat.eqb n 0 then [chat_frame "editor" (Some editor_setup)]
       else if Nat.eqb n 1 then [action_frame "Chat"; action_frame "Chat"]
       else [];
     send_outcome := always_sent;
     llm_response := fun _ _ => Ok "4";
     llm_stream := fun _ _ => ([], None);
     json_loads := fun _ => None;
     json_dumps := fun _ => "{...}";
     py_format := fun _ => "";
     py_ne := fun _ _ => false |}.

(** A chat message on the blank page; two more actions arrive while the
    backend works out its intent; the backend answers [3] (change the
    language). *)
Definition env_double_action_blank : Env :=
  example_env []
    (fun n =>
       if Nat.eqb n 0 then [chat_frame "blank" None]
       else if Nat.eqb n 1 then [action_frame "Chat"; action_frame "Chat"]
       else [])
    always_sent (fun _ => Ok "3").

Definition two_messages : IClientChatDetails :=
  {| cd_page := "blank";
     cd_messages := [ {| msg_role := "user"; msg_content := "hi"; msg_images := None |};
                      {| msg_role := "assistant"; msg_content := "hello"; msg_images := None |} ];
     cd_conversation := None; cd_setup := None |}.

Definition two_messages_client : IClientData :=
  set_chatDetails (Some two_messages) (initial_client 1).

(** The catalog entry of [Store.example_server], as a value. *)
Definition example_welcome : IChatPrompt :=
  {| p_messages := [ {| msg_role := "system"; msg_content := "Greet {name} {{now}}";
                        msg_images := Some ["aGVsbG8="] |} ];
     p_stop := Some ["###"]; p_temperature := None; p_model := None;
     p_prefix := None; p_jsonPrefix := None |}.

(* ================================================================= *)
(** ** 10. Further definitions *)

(** The action an inbound message carries, if any. *)
Definition frame_action (m : Inbound) : option string :=
  match m with
  | Parsed f => f_action f
  | Malformed => None
  end.

(** [status in [Working, Responding]] (line 906). *)
Definition busy (st : ClientStatusEnum) : bool :=
  status_in st [Working; Responding].

(** A frame of the streaming protocol that carries the tag [action]. *)
Definition tagged (action : option string) (f : OutFrame) : Prop :=
  match f with
  | ResponseStart a | ResponseEnd a | Response _ a => a = action
  | ResponseAction _ _ => False
  end.

(** A frame the loop of [stream_prompts] may send for the tag [action]. *)
Definition loop_frame (action : option string) (f : OutFrame) : Prop :=
  f = ResponseStart action \/ exists t, f = Response t action.

(** The parts of the world no step of a delivery writes once its request
    is made: the requests, the registry and the id of the client. *)
Definition same_session (w w' : World) : Prop :=
  w_requests w' = w_requests w
  /\ w_clients w' = w_clients w
  /\ ci_id (w_client w') = ci_id (w_client w).

(** An environment whose transport reports the connection closed at
    every send. *)
Definition channel_closed (E : Env) : Prop :=
  forall n, send_outcome E n = SendConnectionClosedError.

(** A backend that refuses every request. *)
Definition env_refused : Env :=
  {| catalog := ∅; inbound := no_events; send_outcome := always_sent;
     llm_response := fun _ _ => Raise ConnectionError;
     llm_stream := fun _ _ => ([], Some ConnectionError);
     json_loads := fun _ => None; json_dumps := fun _ => "";
     py_format := fun _ => ""; py_ne := fun _ _ => false |}.

(** A stream of two fragments on a transport that is gone. *)
Definition env_channel_closed : Env :=
  example_env [ChunkMessageStr "Hi"; ChunkMessageStr " there"] no_events
    (fun _ => SendConnectionClosedError) no_reply.

(** A text without braces. *)
Fixpoint brace_free (s : string) : bool :=
  match s with
  | EmptyString => true
  | String c r => negb (Ascii.eqb c "{") && negb (Ascii.eqb c "}") && brace_free r
  end.

(** A template written the usual way: plain text and tokens. *)
Inductive Part : Type :=
| Plain (text : string)
| Field (key : string).

Definition part_ok (p : Part) : bool :=
  match p with Plain s => brace_free s | Field k => is_key k end.

Definition part_text (p : Part) : string :=
  match p with Plain s => s | Field k => "{" +:+ k +:+ "}" end.

Definition part_value (data : option (gmap string string)) (p : Part) : string :=
  match p with Plain s => s | Field k => replace_content data k end.

(** The chat details an inbound message carries, if any. *)
Definition frame_details (m : Inbound) : option IClientChatDetails :=
  match m with
  | Parsed f => f_details f
  | Malformed => None
  end.

(** [key in original_setup and value != original_setup[key]] (line 499). *)
Definition changed (E : Env) (original_setup : list (string * json))
    (kv : string * json) : bool :=
  match list_to_map (M := gmap string json) original_setup !! kv.1 with
  | Some old => py_ne E kv.2 old
  | None => false
  end.

(** A client whose table of role names has its own English names. *)
Definition custom_role_names : gmap string (gmap string string) :=
  {[ "en" := {[ "user" := "Customer" ]} ]}.

(** A client with an action pending and none of its inputs. *)
Definition world_image_opened : World :=
  with_client (set_status NewTask) (with_client (set_action (Some "ImageOpened")) open_world).

(** Chat details with one message of the user, and a message of the
    client that carries chat details and nothing else. *)
Definition details_with (text : string) (conv : option string) : IClientChatDetails :=
  {| cd_page := "blank";
     cd_messages := [ {| msg_role := "user"; msg_content := text; msg_images := None |} ];
     cd_conversation := conv; cd_setup := None |}.

Definition details_frame (cd : IClientChatDetails) : Inbound :=
  Parsed {| f_lang := None; f_fileName := None; f_images := None;
            f_action := None; f_details := Some cd |}.

(** The template [dispatch] has the intent of a chat message worked out
    with, by the page of the chat details (lines 719 and 776). *)
Definition chat_prompt_id (cd : IClientChatDetails) : string :=
  if String.eqb (cd_page cd) "blank" then "newFile" else "chatEditor".

(** The prompt [adjust_setup] asks the adjustments with, and the world
    when the reply arrives. *)
Definition setup_prompt (E : Env) (prompt_id : string)
    (original_setup : list (string * json)) (w : World) : IChatPrompt :=
  prompt E "en" prompt_id
    [("current_setup", json_dumps E (JObject original_setup));
     ("conversation", (get_conversation (w_client w) "en" None).1)].

Definition setup_asked (E : Env) (prompt_id : string)
    (original_setup : list (string * json)) (w : World) : World :=
  suspended E
    (push_request (setup_prompt E prompt_id original_setup w)
       (with_client (fun _ => (get_conversation (w_client w) "en" None).2) w)).

(** A chat message in the editor; the backend answers [6]. *)
Definition env_editor_six : Env :=
  example_env [] (chat_arrives "editor" (Some editor_setup)) always_sent
    (fun _ => Ok "6").

(** A chat message in the editor; an action arrives while the backend
    works out its intent (suspension 1); the backend answers in words. *)
Definition env_interrupted_reply : Env :=
  example_env []
    (fun n =>
       if Nat.eqb n 0 then [chat_frame "editor" (Some editor_setup)]
       else if Nat.eqb n 1 then [action_frame "Welcome"]
       else [])
    always_sent (fun _ => Ok "You want to edit the photo.").

(** A chat message in the editor without the settings of the photo. *)
Definition env_editor_no_setup : Env :=
  example_env [] (chat_arrives "editor" None) always_sent (fun _ => Ok "4").

(** A chat message in the editor; the backend answers every request with
    [4], which reads as the JSON number 4. *)
Definition env_number_reply : Env :=
  {| catalog := ∅;
     inbound := chat_arrives "editor" (Some editor_setup);
     send_outcome := always_sent;
     llm_response := fun _ _ => Ok "4";
     llm_stream := fun _ _ => ([], None);
     json_loads := fun s => if String.eqb s "4" then Some (JNumber "4") else None;
     json_dumps := fun _ => "{...}";
     py_format := fun _ => "";
     py_ne := fun _ _ => false |}.

(** An environment in which, from suspension [t] on, nothing disturbs the
    worker: no message and no close arrives, and every send succeeds. *)
Definition calm (E : Env) (t : nat) : Prop :=
  forall n, t <= n -> inbound E n = [] /\ send_outcome E n = SendOk.

(** The [response] frame of one object of the stream, if it has a text
    that is not empty. *)
Definition chunk_frames (action : option string) (c : Chunk) : list OutFrame :=
  match chunk_text c with
  | Some t => if truthy t then [Response t action] else []
  | None => []
  end.

(** The frames of an undisturbed delivery of a stream. *)
Definition delivered (action : option string) (chunks : list Chunk) : list OutFrame :=
  (if existsb has_message chunks then [ResponseStart action] else [])
  ++ flat_map (chunk_frames action) chunks
  ++ [ResponseEnd action].

(** A stream with an object without message, an empty text and two texts. *)
Definition env_calm : Env :=
  example_env [ChunkNoMessage; ChunkMessageStr ""; ChunkMessageStr "Hi";
               ChunkMessageDict None; ChunkMessageDict (Some " there")]
    no_events always_sent no_reply.

(** What a step of the worker task may do to the world, whatever the
    receiver does meanwhile: the registry and the id of the client stay,
    a status other than [Closed] stays other than [Closed], and the
    frames sent and the requests made only grow. *)
Definition grows (w w' : World) : Prop :=
  w_clients w' = w_clients w
  /\ ci_id (w_client w') = ci_id (w_client w)
  /\ (ci_status (w_client w) <> Closed -> ci_status (w_client w') <> Closed)
  /\ (exists new, w_sent w' = w_sent w ++ new)
  /\ (exists new, w_requests w' = w_requests w ++ new).

(** A coroutine all of whose runs do no more than that. *)
Definition steady {A} (m : M A) : Prop :=
  forall w r w', m w = (r, w') -> grows w w'.

(** A client that connects, sends nothing, and leaves during the third
    sleep of the worker. *)
Definition env_leaves : Env :=
  example_env [] (fun n => if Nat.eqb n 2 then [CloseConn] else [])
    always_sent no_reply.

(** *** Loading the prompt files ([__init__], lines 134-167) *)

(** What [json.loads(f.read())] gives for a prompt file.  A file that
    holds a JSON object holds, as the prompt files of the repository do,
    one object of prompts per language. *)
Inductive FileContent :=
| NotJson
| NotObject
| PromptData (prompt_data : gmap string (gmap string IChatPrompt)).

(** An entry of [os.listdir(prompt_folder)]: its name, whether
    [os.path.isdir(file_name)] holds (the name is looked up as it is,
    from the working directory), and what the file holds. *)
Record PromptFile := {
  pf_name : string;
  pf_isdir : bool;
  pf_content : FileContent
}.

(** [s.startswith(p)] and [s.endswith(p)] *)
Definition startswith (s p : string) : bool := String.prefix p s.

Definition endswith (s p : string) : bool :=
  String.prefix (string_rev p) (string_rev s).

(** The files the loop does not skip (lines 145-149). *)
Definition is_prompt_file (f : PromptFile) : bool :=
  negb (negb (endswith (pf_name f) ".prompts.json")
        || startswith (pf_name f) "."
        || pf_isdir f).

(** Lines 158-162: the loop over the items of one file. *)
Definition add_prompt_data
    (prompt_data prompts : gmap string (gmap string IChatPrompt))
  : gmap string (gmap string IChatPrompt) :=
  map_fold
    (fun lang_key lang_prompts prompts =>
       match prompts !! lang_key with
       | Some loaded => <[lang_key := lang_prompts ∪ loaded]> prompts
       | None => <[lang_key := lang_prompts]> prompts
       end)
    prompts prompt_data.

(** Lines 143-162: the loop over the files, from the value [prompts] of
    the class attribute [self.prompts]. *)
Fixpoint load_prompt_files (file_names : list PromptFile)
    (prompts : gmap string (gmap string IChatPrompt))
  : result (gmap string (gmap string IChatPrompt)) :=
  match file_names with
  | [] => Ok prompts
  | f :: rest =>
      if is_prompt_file f then
        match pf_content f with
        | NotJson => Raise JSONDecodeError
        | NotObject => Raise ValueError
        | PromptData prompt_data =>
            load_prompt_files rest (add_prompt_data prompt_data prompts)
        end
      else load_prompt_files rest prompts
  end.

(** [__init__]: [prompt_folder] is [None] when the path does not exist
    or is no directory, and the listing of the directory otherwise. *)
Definition __init__ (prompt_folder : option (list PromptFile))
    (prompts : gmap string (gmap string IChatPrompt))
  : result (gmap string (gmap string IChatPrompt)) :=
  match prompt_folder with
  | None => Raise ValueError
  | Some file_names => load_prompt_files file_names prompts
  end.

(** The catalog entry [get_prompts] looks for (line 186). *)
Definition catalog_entry (prompts : gmap string (gmap string IChatPrompt))
    (lang prompt_id : string) : option IChatPrompt :=
  default ∅ (prompts !! lang) !! prompt_id.

(** The entry a file of the listing contributes, if the loop reads it. *)
Definition file_entry (lang prompt_id : string) (f : PromptFile)
  : option IChatPrompt :=
  if is_prompt_file f then
    match pf_content f with
    | PromptData prompt_data => catalog_entry prompt_data lang prompt_id
    | _ => None
    end
  else None.

(** A folder with two prompt files that both define the English welcome,
    a hidden file and a file of another kind. *)
Definition example_folder : list PromptFile :=
  [ {| pf_name := "a.prompts.json"; pf_isdir := false;
       pf_content := PromptData {[ "en" := {[ "welcome" := system_prompt "Hello";
                                               "about" := system_prompt "About" ]} ]} |};
    {| pf_name := ".draft.prompts.json"; pf_isdir := false; pf_content := NotJson |};
    {| pf_name := "b.prompts.json"; pf_isdir := false;
       pf_content := PromptData {[ "en" := {[ "welcome" := system_prompt "Welcome" ]} ]} |};
    {| pf_name := "notes.json"; pf_isdir := false; pf_content := NotObject |} ].

(** The client sends ['Welcome'] during the first sleep of the worker and
    nothing after it; the backend streams two texts. *)
Definition env_welcome : Env :=
  example_env [ChunkMessageStr "Hi"; ChunkMessageStr " there"]
    (fun n => if Nat.eqb n 0 then [action_frame "Welcome"] else [])
    always_sent no_reply.

(** A client in Chinese asks for English: the request for the language
    is answered [2]. *)
Definition world_asks_english : World :=
  with_client (set_status Working)
    (with_client (set_lang "zh")
       (with_client (set_chatDetails (Some (details_with "English please" None)))
          open_world)).

Definition env_switch : Env :=
  example_env [ChunkMessageStr "OK"] no_events always_sent (fun _ => Ok " 2 ").

(** The blanks of ASCII: tab, line feed, vertical tab, form feed,
    carriage return and space. *)
Definition is_blank (c : ascii) : bool :=
  let n := N_of_ascii c in (((9 <=? n) && (n <=? 13)) || (n =? 32))%N.

Fixpoint all_blank (s : string) : bool :=
  match s with
  | EmptyString => true
  | String c r => is_blank c && all_blank r
  end.

(** The flows of a chat message that answer with one template: the
    ['responseAction'] sent first, if any, the template, and whether the
    template is given the conversation (lines 740-762 and 797-831). *)
Definition chat_flow (cd : IClientChatDetails) (intent : N)
  : option (option string * string * bool) :=
  if String.eqb (cd_page cd) "blank" then
    match intent with
    | 1%N => Some (Some "openFile", "openFile", false)
    | 2%N => Some (None, "saveFileNoFile", false)
    | 4%N => Some (None, "about", true)
    | 5%N => Some (None, "casualChat", true)
    | _ => None
    end
  else if String.eqb (cd_page cd) "editor" then
    match intent with
    | 1%N => Some (Some "openFile", "openFile", false)
    | 2%N => Some (Some "saveFile", "saveFile", false)
    | 8%N => Some (None, "about", true)
    | 9%N => Some (None, "casualChat", true)
    | _ => None
    end
  else None.

Definition action_frames (name : option string) : list OutFrame :=
  match name with Some n => [ResponseAction n []] | None => [] end.

(** The prompt such a flow answers with, for the client of [w]. *)
Definition chat_answer (E : Env) (w : World) (template : string)
    (with_conversation : bool) : IChatPrompt :=
  prompt E (ci_lang (w_client w)) template
    (if with_conversation
     then [("conversation",
            (get_conversation (w_client w) (ci_lang (w_client w)) None).1)]
     else []).

(** A chat message on the blank page; the backend answers [4] (about)
    and streams one text. *)
Definition env_about : Env :=
  example_env [ChunkMessageStr "I edit photos."] (chat_arrives "blank" None)
    always_sent (fun _ => Ok "4").

(** No action arrives at the suspensions [t], ..., [t' - 1]: those of a
    call that starts in a world at suspension [t] and ends in one at
    suspension [t']. *)
Definition quiet_during (E : Env) (t t' : nat) : Prop :=
  forall n, t <= n < t' -> Forall quiet_event (inbound E n).





(** The first character of a text, and the character before the position
    that follows a text [s] when [prev] is the character before [s]. *)
Definition first_char (s : string) : option ascii :=
  match s with String c _ => Some c | EmptyString => None end.

Fixpoint last_char (s : string) (prev : option ascii) : option ascii :=
  match s with
  | EmptyString => prev
  | String c r => last_char r (Some c)
  end.

(** What the look-behind and the look-ahead of the pattern ask of the
    text around a token: no opening brace right before it, no closing
    brace right after it. *)
Definition token_matches (pre post : string) : bool :=
  negb (is_char "{" (last_char pre None)) && negb (is_char "}" (first_char post)).

(* ================================================================= *)
(** ** 11. The template renderer: tokens and braces *)

Lemma append_cons c (s t : string) : String c s +:+ t = String c (s +:+ t).
Proof. reflexivity. Qed.

Lemma append_empty_r (s : string) : s +:+ "" = s.
Proof.
  induction s as [|c s IH]; [reflexivity|]. now rewrite append_cons, IH.
Qed.

Lemma append_assoc (a b c : string) : (a +:+ b) +:+ c = a +:+ (b +:+ c).
Proof.
  induction a as [|x a IH]; [reflexivity|]. now rewrite !append_cons, IH.
Qed.

Lemma template_sub_segments repl s :
  forall skip prev,
    template_sub repl skip prev s
    = String.concat "" (map (emit repl) (segments skip prev s)).
Proof.
  assert (Hcons : forall x l, String.concat "" (x :: l) = x +:+ String.concat "" l).
  { intros x [|y l]; [symmetry; apply append_empty_r | reflexivity]. }
  induction s as [|c r IH]; intros skip prev; [reflexivity|].
  destruct skip as [|k].
  - cbn [template_sub segments].
    destruct (match_template prev (String c r)) as [[key rest]|].
    + cbn [map]. rewrite Hcons, IH. reflexivity.
    + cbn [map]. rewrite Hcons, IH. reflexivity.
  - cbn [template_sub segments]. apply IH.
Qed.

Lemma word_char_not_brace c :
  is_word_char c = true -> Ascii.eqb c "{" = false /\ Ascii.eqb c "}" = false.
Proof.
  destruct c as [[] [] [] [] [] [] [] []]; vm_compute; intros H;
    first [discriminate H | split; reflexivity].
Qed.

Lemma span_word_key key r :
  all_word key = true ->
  span_word (key +:+ String "}" r) = (key, String "}" r).
Proof.
  induction key as [|c k IH]; intros H; [reflexivity|].
  cbn [all_word] in H. apply andb_prop in H as [Hc Hk].
  rewrite append_cons. cbn [span_word]. rewrite Hc, (IH Hk). reflexivity.
Qed.

Lemma template_sub_skip repl s :
  forall skip prev, (String.length s <= skip)%nat -> template_sub repl skip prev s = "".
Proof.
  induction s as [|c r IH]; intros skip prev H; [reflexivity|].
  destruct skip as [|k]; cbn [String.length] in H; [lia|].
  cbn [template_sub]. apply IH. lia.
Qed.

Lemma match_template_not_brace prev c r :
  Ascii.eqb c "{" = false -> match_template prev (String c r) = None.
Proof.
  intros H. apply Ascii.eqb_neq in H.
  destruct c as [[] [] [] [] [] [] [] []]; try reflexivity. now contradiction H.
Qed.

(** Word characters and a closing brace after them are copied. *)
Lemma template_sub_word repl key r :
  all_word key = true ->
  forall prev,
    template_sub repl 0 prev (key +:+ String "}" r)
    = key +:+ String "}" (template_sub repl 0 (Some "}"%char) r).
Proof.
  induction key as [|c k IH]; intros H prev.
  - change ("" +:+ String "}" r) with (String "}" r).
    cbn [template_sub]. rewrite match_template_not_brace by reflexivity. reflexivity.
  - cbn [all_word] in H. apply andb_prop in H as [Hc Hk].
    rewrite !append_cons. cbn [template_sub].
    rewrite match_template_not_brace by (apply word_char_not_brace, Hc).
    rewrite (IH Hk). reflexivity.
Qed.

Lemma sub_pair_word c key r :
  all_word key = true -> (c = "{" \/ c = "}")%char ->
  sub_pair c (key +:+ r) = key +:+ sub_pair c r.
Proof.
  intros Hk Hc. induction key as [|a k IH]; [reflexivity|].
  cbn [all_word] in Hk. apply andb_prop in Hk as [Ha Hk]. specialize (IH Hk).
  assert (Hne : Ascii.eqb a c = false).
  { destruct (word_char_not_brace a Ha) as [H1 H2]. destruct Hc; subst; assumption. }
  rewrite !append_cons. destruct (k +:+ r) as [|b t] eqn:Ht.
  - cbn [sub_pair]. f_equal. exact IH.
  - cbn [sub_pair]. rewrite Hne. cbn [andb]. f_equal. exact IH.
Qed.

Lemma length_append (a b : string) :
  String.length (a +:+ b) = (String.length a + String.length b)%nat.
Proof.
  induction a as [|c a IH]; [reflexivity|].
  rewrite append_cons. cbn [String.length]. now rewrite IH.
Qed.

Lemma is_key_inv key :
  is_key key = true -> exists c k, key = String c k /\ all_word key = true.
Proof.
  unfold is_key. destruct key as [|c k]; [discriminate|].
  intros H. exists c, k. split; [reflexivity | exact H].
Qed.

Lemma sub_pair_other c a s :
  Ascii.eqb a c = false -> sub_pair c (String a s) = String a (sub_pair c s).
Proof. intros H. destruct s; cbn [sub_pair]; [reflexivity | now rewrite H]. Qed.

Lemma sub_pair_double c s :
  sub_pair c (String c (String c s)) = String c (sub_pair c s).
Proof. cbn [sub_pair]. now rewrite Ascii.eqb_refl. Qed.

(** A token standing alone is replaced by the value of its key. *)
Lemma template_sub_token repl key :
  is_key key = true ->
  template_sub repl 0 None ("{" +:+ key +:+ "}") = repl key.
Proof.
  intros Hkey. destruct (is_key_inv key Hkey) as (c & k & -> & Hw).
  change ("{" +:+ String c k +:+ "}") with (String "{" (String c k +:+ String "}" "")).
  cbn [template_sub match_template is_char].
  rewrite (span_word_key _ "" Hw).
  rewrite template_sub_skip.
  - apply append_empty_r.
  - rewrite length_append. cbn [String.length]. lia.
Qed.

(** A token after an extra opening brace is copied. *)
Lemma template_sub_escaped_open repl key r :
  all_word key = true ->
  template_sub repl 0 None ("{{" +:+ key +:+ String "}" r)
  = "{{" +:+ key +:+ String "}" (template_sub repl 0 (Some "}"%char) r).
Proof.
  intros Hw.
  change ("{{" +:+ key +:+ String "}" r)
    with (String "{" (String "{" (key +:+ String "}" r))).
  cbn [template_sub match_template is_char span_word is_word_char].
  replace (is_word_char "{") with false by reflexivity.
  cbn [Ascii.eqb Bool.eqb].
  rewrite (template_sub_word _ _ _ Hw). reflexivity.
Qed.

(** A token before an extra closing brace is copied. *)
Lemma template_sub_escaped_close repl key :
  is_key key = true ->
  template_sub repl 0 None ("{" +:+ key +:+ "}}") = "{" +:+ key +:+ "}}".
Proof.
  intros Hkey. destruct (is_key_inv key Hkey) as (c & k & -> & Hw).
  change ("{" +:+ String c k +:+ "}}")
    with (String "{" (String c k +:+ String "}" (String "}" ""))).
  cbn [template_sub match_template is_char].
  rewrite (span_word_key _ _ Hw).
  rewrite (template_sub_word _ _ _ Hw).
  reflexivity.
Qed.

Lemma template_sub_skip_token repl key rest :
  forall prev,
    template_sub repl (S (String.length key)) prev (key +:+ String "}" rest)
    = template_sub repl 0 (Some "}"%char) rest.
Proof.
  induction key as [|c k IH]; intros prev; [reflexivity|].
  rewrite append_cons. cbn [String.length template_sub]. apply IH.
Qed.

Lemma sub_pair_brace_free c s :
  (c = "{" \/ c = "}")%char -> brace_free s = true -> sub_pair c s = s.
Proof.
  intros Hc. induction s as [|a s IH]; intros H; [reflexivity|].
  cbn [brace_free] in H. apply andb_prop in H as [Ha Hs].
  apply andb_prop in Ha as [Hopen Hclose]. apply negb_true_iff in Hopen, Hclose.
  rewrite sub_pair_other; [now rewrite (IH Hs)|]. destruct Hc; subst; assumption.
Qed.

(** The look-ahead, as a test on the first character. *)
Lemma lookahead_eq {A} (r : string) (x y : A) :
  match r with String "}" _ => x | _ => y end
  = if is_char "}" (first_char r) then x else y.
Proof.
  destruct r as [|a r]; [reflexivity|].
  destruct a as [[] [] [] [] [] [] [] []]; reflexivity.
Qed.

Lemma span_word_open r t :
  span_word (r +:+ String "{" t)
  = ((span_word r).1, (span_word r).2 +:+ String "{" t).
Proof.
  induction r as [|c r IH]; [reflexivity|].
  rewrite append_cons. cbn [span_word]. rewrite IH.
  destruct (is_word_char c); [|reflexivity].
  destruct (span_word r) as [k r']. reflexivity.
Qed.

Lemma span_word_length r :
  String.length (span_word r).1 + String.length (span_word r).2 = String.length r.
Proof.
  induction r as [|c r IH]; [reflexivity|]. cbn [span_word].
  destruct (is_word_char c); [|reflexivity].
  destruct (span_word r) as [k r']. cbn in *. lia.
Qed.

(** A match lies inside the text it is found in. *)
Lemma match_template_within prev c r key rest :
  match_template prev (String c r) = Some (key, rest) ->
  S (String.length key) <= String.length r.
Proof.
  destruct (Ascii.eqb c "{") eqn:Hc.
  2:{ now rewrite match_template_not_brace. }
  apply Ascii.eqb_eq in Hc. subst c. cbn [match_template].
  destruct (is_char "{" prev); [discriminate|].
  pose proof (span_word_length r) as Hlen.
  destruct (span_word r) as [k r']. cbn [fst snd] in Hlen.
  destruct k as [|a k]; [discriminate|].
  destruct r' as [|b r2]; [discriminate|].
  destruct b as [[] [] [] [] [] [] [] []]; try discriminate.
  rewrite lookahead_eq. destruct (is_char "}" (first_char r2)); [discriminate|].
  intros H. injection H as <- _. cbn [String.length] in *. lia.
Qed.

(** Text that starts with an opening brace, put after a text, changes no
    match in it: a match ends with a closing brace, and a text before an
    opening brace passes the look-ahead as the end of the text does. *)
Lemma match_template_open prev c r t :
  match_template prev (String c (r +:+ String "{" t))
  = match match_template prev (String c r) with
    | Some (key, rest) => Some (key, rest +:+ String "{" t)
    | None => None
    end.
Proof.
  destruct (Ascii.eqb c "{") eqn:Hc.
  2:{ now rewrite !match_template_not_brace. }
  apply Ascii.eqb_eq in Hc. subst c. cbn [match_template].
  destruct (is_char "{" prev); [reflexivity|].
  rewrite span_word_open. destruct (span_word r) as [k r']. cbn [fst snd].
  destruct k as [|a k]; [reflexivity|].
  destruct r' as [|b r2]; [reflexivity|].
  rewrite append_cons.
  destruct b as [[] [] [] [] [] [] [] []]; try reflexivity.
  rewrite !lookahead_eq.
  destruct r2 as [|x r3]; [reflexivity|].
  rewrite append_cons. cbn [first_char]. now destruct (is_char "}" (Some x)).
Qed.

Lemma template_sub_open repl t pre :
  forall skip prev,
    skip <= String.length pre ->
    template_sub repl skip prev (pre +:+ String "{" t)
    = template_sub repl skip prev pre
      +:+ template_sub repl 0 (last_char pre prev) (String "{" t).
Proof.
  induction pre as [|c r IH]; intros skip prev Hskip.
  - cbn in Hskip. assert (skip = 0) as -> by lia. reflexivity.
  - rewrite append_cons. destruct skip as [|k]; cbn [template_sub last_char].
    + rewrite match_template_open.
      destruct (match_template prev (String c r)) as [[key rest]|] eqn:Hm.
      * rewrite IH by (apply match_template_within in Hm; exact Hm).
        now rewrite append_assoc.
      * rewrite IH by lia. now rewrite append_cons.
    + apply IH. cbn in Hskip. lia.
Qed.

(** A text of the shape of a token, where it stands. *)
Lemma template_sub_token_at repl key post prev :
  is_key key = true ->
  template_sub repl 0 prev (String "{" (key +:+ String "}" post))
  = (if negb (is_char "{" prev) && negb (is_char "}" (first_char post))
     then repl key else "{" +:+ key +:+ "}")
    +:+ template_sub repl 0 (Some "}"%char) post.
Proof.
  intros Hkey. destruct (is_key_inv key Hkey) as (c & k & -> & Hw).
  assert (Hcopy : String "{" (template_sub repl 0 (Some "{"%char)
                                (String c k +:+ String "}" post))
                  = ("{" +:+ String c k +:+ "}")
                    +:+ template_sub repl 0 (Some "}"%char) post).
  { rewrite (template_sub_word _ _ _ Hw). rewrite !append_assoc. reflexivity. }
  cbn [template_sub match_template].
  destruct (is_char "{" prev); cbn [negb andb]; [exact Hcopy|].
  rewrite (span_word_key _ post Hw). cbv iota. rewrite lookahead_eq.
  destruct (is_char "}" (first_char post)); cbn [negb]; [exact Hcopy|].
  now rewrite (template_sub_skip_token _ (String c k) post).
Qed.

Lemma template_sub_context repl key pre post prev :
  is_key key = true ->
  template_sub repl 0 prev (pre +:+ "{" +:+ key +:+ "}" +:+ post)
  = template_sub repl 0 prev pre
    +:+ (if negb (is_char "{" (last_char pre prev))
            && negb (is_char "}" (first_char post))
         then repl key else "{" +:+ key +:+ "}")
    +:+ template_sub repl 0 (Some "}"%char) post.
Proof.
  intros Hkey.
  change (pre +:+ "{" +:+ key +:+ "}" +:+ post)
    with (pre +:+ String "{" (key +:+ String "}" post)).
  rewrite template_sub_open by lia. now rewrite template_sub_token_at.
Qed.

Lemma template_sub_brace_free repl s :
  brace_free s = true -> forall prev, template_sub repl 0 prev s = s.
Proof.
  induction s as [|c s IH]; intros H prev; [reflexivity|].
  cbn [brace_free] in H. apply andb_prop in H as [Hc Hs].
  apply andb_prop in Hc as [Hopen _]. apply negb_true_iff in Hopen.
  cbn [template_sub]. rewrite match_template_not_brace by exact Hopen.
  now rewrite (IH Hs).
Qed.

Lemma last_char_brace_free s :
  brace_free s = true ->
  forall prev, is_char "{" prev = false -> is_char "{" (last_char s prev) = false.
Proof.
  induction s as [|c s IH]; intros H prev Hprev; [exact Hprev|].
  cbn [brace_free] in H. apply andb_prop in H as [Hc Hs].
  apply andb_prop in Hc as [Hopen _]. apply negb_true_iff in Hopen.
  cbn [last_char]. apply (IH Hs). exact Hopen.
Qed.

Lemma last_char_snoc s c : forall prev, last_char (s +:+ String c "") prev = Some c.
Proof.
  induction s as [|a s IH]; intros prev; [reflexivity|].
  rewrite append_cons. cbn [last_char]. apply IH.
Qed.

Lemma first_char_brace_free s c :
  (c = "{" \/ c = "}")%char -> brace_free s = true -> is_char c (first_char s) = false.
Proof.
  intros Hc. destruct s as [|a s]; [reflexivity|]. cbn [brace_free first_char is_char].
  intros H. apply andb_prop in H as [Ha _].
  apply andb_prop in Ha as [Hopen Hclose]. apply negb_true_iff in Hopen, Hclose.
  destruct Hc; subst; assumption.
Qed.

Lemma sub_pair_free_l c pre s :
  (c = "{" \/ c = "}")%char -> brace_free pre = true ->
  sub_pair c (pre +:+ s) = pre +:+ sub_pair c s.
Proof.
  intros Hc. induction pre as [|a pre IH]; intros H; [reflexivity|].
  cbn [brace_free] in H. apply andb_prop in H as [Ha Hpre].
  apply andb_prop in Ha as [Hopen Hclose]. apply negb_true_iff in Hopen, Hclose.
  rewrite !append_cons, sub_pair_other; [now rewrite (IH Hpre)|].
  destruct Hc; subst; assumption.
Qed.

(** A brace that is not doubled stays. *)
Lemma sub_pair_single c s :
  is_char c (first_char s) = false ->
  sub_pair c (String c s) = String c (sub_pair c s).
Proof.
  destruct s as [|b s]; [reflexivity|]. cbn [first_char is_char]. intros H.
  cbn [sub_pair]. now rewrite H, andb_false_r.
Qed.

Lemma sub_pair_two c a b r :
  sub_pair c (String a (String b r))
  = if Ascii.eqb a c && Ascii.eqb b c
    then String c (sub_pair c r) else String a (sub_pair c (String b r)).
Proof. reflexivity. Qed.

Lemma sub_pair_free_r c post :
  (c = "{" \/ c = "}")%char -> brace_free post = true ->
  forall n v, String.length v <= n -> sub_pair c (v +:+ post) = sub_pair c v +:+ post.
Proof.
  intros Hc Hpost.
  assert (Hfree : sub_pair c post = post) by now apply sub_pair_brace_free.
  induction n as [|n IH]; intros v Hn.
  - destruct v; [exact Hfree | cbn in Hn; lia].
  - destruct v as [|a [|b r]].
    + exact Hfree.
    + change (String a "" +:+ post) with (String a post).
      change (sub_pair c (String a "") +:+ post) with (String a post).
      destruct post as [|x p]; [reflexivity|].
      pose proof (first_char_brace_free (String x p) c Hc Hpost) as Hx.
      destruct (Ascii.eqb a c) eqn:Ha.
      * apply Ascii.eqb_eq in Ha. subst a.
        rewrite (sub_pair_single c (String x p) Hx). now rewrite Hfree.
      * rewrite (sub_pair_other c a (String x p) Ha). now rewrite Hfree.
    + rewrite !append_cons, !sub_pair_two.
      destruct (Ascii.eqb a c && Ascii.eqb b c).
      * rewrite append_cons. f_equal. apply IH. cbn in Hn. lia.
      * rewrite append_cons. f_equal. rewrite <- append_cons.
        apply IH. cbn in *. lia.
Qed.

Lemma template_sub_free_open repl pre :
  brace_free pre = true ->
  template_sub repl 0 None (pre +:+ "{") = pre +:+ "{".
Proof.
  intros Hpre. rewrite (template_sub_open repl "" pre 0 None) by lia.
  rewrite (template_sub_brace_free repl pre Hpre). f_equal.
  cbn [template_sub match_template].
  now destruct (is_char "{" (last_char pre None)).
Qed.

Lemma template_sub_close_free repl post prev :
  brace_free post = true ->
  template_sub repl 0 prev (String "}" post) = String "}" post.
Proof.
  intros Hpost. cbn [template_sub].
  rewrite match_template_not_brace by reflexivity.
  now rewrite (template_sub_brace_free repl post Hpost).
Qed.

(** A token between texts without braces is replaced by its value; the
    value is put in as it is, and the doubled braces it holds are then
    resolved with those of the template. *)
Lemma render_content_token_context data key pre post :
  is_key key = true -> brace_free pre = true -> brace_free post = true ->
  render_content data (pre +:+ "{" +:+ key +:+ "}" +:+ post)
  = pre +:+ sub_pair "{" (sub_pair "}" (replace_content data key)) +:+ post.
Proof.
  intros Hkey Hpre Hpost. unfold render_content.
  rewrite (template_sub_context _ key pre post None Hkey).
  rewrite (last_char_brace_free pre Hpre None eq_refl).
  rewrite (first_char_brace_free post "}" (or_intror eq_refl) Hpost).
  cbn [negb andb].
  rewrite (template_sub_brace_free _ pre Hpre), (template_sub_brace_free _ post Hpost).
  rewrite (sub_pair_free_l "}" pre _ (or_intror eq_refl) Hpre).
  rewrite (sub_pair_free_r "}" post (or_intror eq_refl) Hpost _ _ (le_n _)).
  rewrite (sub_pair_free_l "{" pre _ (or_introl eq_refl) Hpre).
  rewrite (sub_pair_free_r "{" post (or_introl eq_refl) Hpost _ _ (le_n _)).
  reflexivity.
Qed.

(** With an extra brace on either side the substitution leaves the text
    as it is. *)
Lemma template_sub_escaped_context repl key pre post :
  is_key key = true -> brace_free pre = true -> brace_free post = true ->
  template_sub repl 0 None (pre +:+ "{{" +:+ key +:+ "}}" +:+ post)
  = pre +:+ "{{" +:+ key +:+ "}}" +:+ post
  /\ template_sub repl 0 None (pre +:+ "{{" +:+ key +:+ "}" +:+ post)
     = pre +:+ "{{" +:+ key +:+ "}" +:+ post
  /\ template_sub repl 0 None (pre +:+ "{" +:+ key +:+ "}}" +:+ post)
     = pre +:+ "{" +:+ key +:+ "}}" +:+ post.
Proof.
  intros Hkey Hpre Hpost. refine (conj _ (conj _ _)).
  - transitivity (template_sub repl 0 None
                    ((pre +:+ "{") +:+ "{" +:+ key +:+ "}" +:+ String "}" post)).
    { f_equal. rewrite (append_assoc pre "{"). reflexivity. }
    rewrite (template_sub_context _ key _ _ None Hkey), last_char_snoc.
    change (is_char "{" (Some "{"%char)) with true. cbn [negb andb].
    rewrite (template_sub_free_open _ pre Hpre), (template_sub_close_free _ post _ Hpost).
    rewrite !append_assoc. reflexivity.
  - transitivity (template_sub repl 0 None
                    ((pre +:+ "{") +:+ "{" +:+ key +:+ "}" +:+ post)).
    { f_equal. rewrite (append_assoc pre "{"). reflexivity. }
    rewrite (template_sub_context _ key _ _ None Hkey), last_char_snoc.
    change (is_char "{" (Some "{"%char)) with true. cbn [negb andb].
    rewrite (template_sub_free_open _ pre Hpre), (template_sub_brace_free _ post Hpost).
    rewrite !append_assoc. reflexivity.
  - change (pre +:+ "{" +:+ key +:+ "}}" +:+ post)
      with (pre +:+ "{" +:+ key +:+ "}" +:+ String "}" post).
    rewrite (template_sub_context _ key _ _ None Hkey).
    change (is_char "}" (first_char (String "}" post))) with true.
    rewrite andb_false_r.
    rewrite (template_sub_brace_free _ pre Hpre), (template_sub_close_free _ post _ Hpost).
    rewrite !append_assoc. reflexivity.
Qed.

(** The renders of the three: one brace of each doubled pair is dropped,
    and what is left is the text of the token. *)
Lemma render_content_escaped_context data key pre post :
  is_key key = true -> brace_free pre = true -> brace_free post = true ->
  render_content data (pre +:+ "{{" +:+ key +:+ "}}" +:+ post)
  = pre +:+ "{" +:+ key +:+ "}" +:+ post
  /\ render_content data (pre +:+ "{{" +:+ key +:+ "}" +:+ post)
     = pre +:+ "{" +:+ key +:+ "}" +:+ post
  /\ render_content data (pre +:+ "{" +:+ key +:+ "}}" +:+ post)
     = pre +:+ "{" +:+ key +:+ "}" +:+ post.
Proof.
  intros Hkey Hpre Hpost.
  destruct (template_sub_escaped_context (replace_content data) key pre post
              Hkey Hpre Hpost) as (Hboth & Hopen & Hclose).
  destruct (is_key_inv key Hkey) as (c & k & Hk & Hw).
  assert (Hfirst : forall r, is_char "{" (first_char (key +:+ r)) = false).
  { intros r. rewrite Hk in Hw |- *. cbn [all_word] in Hw.
    apply andb_prop in Hw as [Hc _]. exact (proj1 (word_char_not_brace c Hc)). }
  pose proof (sub_pair_brace_free "}" post (or_intror eq_refl) Hpost) as Hpost_close.
  pose proof (sub_pair_brace_free "{" post (or_introl eq_refl) Hpost) as Hpost_open.
  assert (Hlast : sub_pair "{" (pre +:+ String "{" (String "{" (key +:+ String "}" post)))
                  = pre +:+ "{" +:+ key +:+ "}" +:+ post).
  { rewrite (sub_pair_free_l "{" pre _ (or_introl eq_refl) Hpre), sub_pair_double.
    rewrite (sub_pair_word "{" _ _ Hw) by (now left).
    rewrite (sub_pair_other "{" "}") by reflexivity. now rewrite Hpost_open. }
  unfold render_content. rewrite Hboth, Hopen, Hclose. refine (conj _ (conj _ _)).
  - change (pre +:+ "{{" +:+ key +:+ "}}" +:+ post)
      with (pre +:+ String "{" (String "{" (key +:+ String "}" (String "}" post)))).
    rewrite (sub_pair_free_l "}" pre _ (or_intror eq_refl) Hpre).
    rewrite !(sub_pair_other "}" "{") by reflexivity.
    rewrite (sub_pair_word "}" _ _ Hw) by (now right).
    rewrite sub_pair_double, Hpost_close. exact Hlast.
  - change (pre +:+ "{{" +:+ key +:+ "}" +:+ post)
      with (pre +:+ String "{" (String "{" (key +:+ String "}" post))).
    rewrite (sub_pair_free_l "}" pre _ (or_intror eq_refl) Hpre).
    rewrite !(sub_pair_other "}" "{") by reflexivity.
    rewrite (sub_pair_word "}" _ _ Hw) by (now right).
    rewrite (sub_pair_single "}" post
               (first_char_brace_free post "}" (or_intror eq_refl) Hpost)).
    rewrite Hpost_close. exact Hlast.
  - change (pre +:+ "{" +:+ key +:+ "}}" +:+ post)
      with (pre +:+ String "{" (key +:+ String "}" (String "}" post))).
    rewrite (sub_pair_free_l "}" pre _ (or_intror eq_refl) Hpre).
    rewrite (sub_pair_other "}" "{") by reflexivity.
    rewrite (sub_pair_word "}" _ _ Hw) by (now right).
    rewrite sub_pair_double, Hpost_close.
    rewrite (sub_pair_free_l "{" pre _ (or_introl eq_refl) Hpre).
    rewrite (sub_pair_single "{" _ (Hfirst _)).
    rewrite (sub_pair_word "{" _ _ Hw) by (now left).
    rewrite (sub_pair_other "{" "}") by reflexivity. now rewrite Hpost_open.
Qed.

(** C6.  Brace doubling is resolved after token substitution, on the text
    the substitution produced; the tokens are those of the template (its
    [segments]), so the value of a variable is never read as a token.  The
    text ["{{a}} {name} {{b}}"] with [name] bound to ["X"] renders as
    ["{a} X {b}"]; a token standing alone renders as the value of its key
    with doubled braces undoubled; a token with an extra brace before or
    after it is not substituted.  The same holds wherever the token
    stands: between any two texts the substitution puts the value of the
    key in as it is when no opening brace stands right before the token
    and no closing brace right after it, and copies the token otherwise,
    the texts around it being substituted on their own; between texts
    without braces the token renders as its value with doubled braces
    undoubled, and with an extra brace before it, after it or on both
    sides it renders as the text of the token. *)
Theorem render_content_braces (data : option (gmap string string))
    (text key : string) (Hkey : is_key key = true) :
  render_content (Some {[ "name" := "X" ]}) "{{a}} {name} {{b}}" = "{a} X {b}"
  /\ render_content data text
     = sub_pair "{" (sub_pair "}"
         (String.concat "" (map (emit (replace_content data)) (segments 0 None text))))
  /\ render_content data ("{" +:+ key +:+ "}")
     = sub_pair "{" (sub_pair "}" (replace_content data key))
  /\ template_sub (replace_content data) 0 None ("{{" +:+ key +:+ "}")
     = "{{" +:+ key +:+ "}"
  /\ template_sub (replace_content data) 0 None ("{" +:+ key +:+ "}}")
     = "{" +:+ key +:+ "}}"
  /\ render_content data ("{{" +:+ key +:+ "}}") = "{" +:+ key +:+ "}"
  /\ (forall pre post,
        template_sub (replace_content data) 0 None
          (pre +:+ "{" +:+ key +:+ "}" +:+ post)
        = template_sub (replace_content data) 0 None pre
          +:+ (if token_matches pre post
               then replace_content data key else "{" +:+ key +:+ "}")
          +:+ template_sub (replace_content data) 0 (Some "}"%char) post)
  /\ (forall pre post,
        brace_free pre = true -> brace_free post = true ->
        render_content data (pre +:+ "{" +:+ key +:+ "}" +:+ post)
        = pre +:+ sub_pair "{" (sub_pair "}" (replace_content data key)) +:+ post
        /\ render_content data (pre +:+ "{{" +:+ key +:+ "}}" +:+ post)
           = pre +:+ "{" +:+ key +:+ "}" +:+ post
        /\ render_content data (pre +:+ "{{" +:+ key +:+ "}" +:+ post)
           = pre +:+ "{" +:+ key +:+ "}" +:+ post
        /\ render_content data (pre +:+ "{" +:+ key +:+ "}}" +:+ post)
           = pre +:+ "{" +:+ key +:+ "}" +:+ post).
Proof.
  destruct (is_key_inv key Hkey) as (c & k & Hk & Hw).
  refine (conj _ (conj _ (conj _ (conj _ (conj _ (conj _ (conj _ _))))))).
  7:{ intros pre post. exact (template_sub_context _ key pre post None Hkey). }
  7:{ intros pre post Hpre Hpost. split.
      - exact (render_content_token_context data key pre post Hkey Hpre Hpost).
      - exact (render_content_escaped_context data key pre post Hkey Hpre Hpost). }
  - vm_compute. reflexivity.
  - unfold render_content. now rewrite template_sub_segments.
  - unfold render_content. now rewrite template_sub_token.
  - rewrite (template_sub_escaped_open _ _ "" Hw). reflexivity.
  - now apply template_sub_escaped_close.
  - unfold render_content.
    rewrite (template_sub_escaped_open _ _ (String "}" "") Hw).
    cbn [template_sub]. rewrite match_template_not_brace by reflexivity.
    cbn [template_sub].
    change ("{{" +:+ key +:+ "}}") with (String "{" (String "{" (key +:+ "}}"))).
    rewrite !(sub_pair_other "}" "{") by reflexivity.
    rewrite (sub_pair_word "}" _ _ Hw) by (now right).
    change (sub_pair "}" "}}") with "}".
    rewrite sub_pair_double.
    rewrite (sub_pair_word "{" _ _ Hw) by (now left).
    reflexivity.
Qed.

Lemma render_content_braces_witness :
  is_key "name" = true
  /\ render_content (Some {[ "name" := "{other}"; "other" := "Y" ]}) "{name}"
     = "{other}"
  /\ render_content (Some {[ "name" := "X" ]}) "{{name}}" = "{name}"
  /\ brace_free "to " = true /\ brace_free " x" = true
  /\ render_content (Some {[ "name" := "{{other}}"; "other" := "Y" ]}) "to {name} x"
     = "to {other} x"
  /\ render_content (Some {[ "name" := "X" ]}) "to {name}} x" = "to {name} x"
  /\ render_content (Some {[ "name" := "X" ]}) "to {{name} x" = "to {name} x"
  /\ render_content (Some {[ "name" := "X" ]}) "to {{name}} x" = "to {name} x".
Proof.
  split; [reflexivity|].
  pose proof (render_content_braces (Some {[ "name" := "X" ]}) "" "name" eq_refl)
    as (_ & _ & _ & _ & _ & Hdouble & _ & Hin).
  destruct (Hin "to " " x" eq_refl eq_refl) as (_ & Hboth & Hopen & Hclose).
  refine (conj _ (conj Hdouble (conj eq_refl (conj eq_refl
            (conj _ (conj Hclose (conj Hopen Hboth))))))).
  - exact (proj1 (proj2 (proj2
      (render_content_braces (Some {[ "name" := "{other}"; "other" := "Y" ]})
         "" "name" eq_refl)))).
  - refine (eq_trans
      (proj1 (proj2 (proj2 (proj2 (proj2 (proj2 (proj2 (proj2
         (render_content_braces
            (Some {[ "name" := "{{other}}"; "other" := "Y" ]})
            "" "name" eq_refl))))))) "to " " x" eq_refl eq_refl)) _).
    vm_compute. reflexivity.
Defined.

(** A token whose key the variables do not bind renders as the empty
    string. *)
Theorem render_content_unknown_token (data : option (gmap string string))
    (key : string) (Hkey : is_key key = true)
    (Hunknown : forall d, data = Some d -> d !! key = None) :
  render_content data ("{" +:+ key +:+ "}") = "".
Proof.
  unfold render_content. rewrite template_sub_token by exact Hkey.
  unfold replace_content. destruct data as [d|]; [|reflexivity].
  destruct (String.eqb key ""); [reflexivity|].
  now rewrite (Hunknown d eq_refl).
Qed.

Lemma render_content_unknown_token_witness :
  render_content (Some ∅) "{missing}" = "".
Proof.
  apply (render_content_unknown_token (Some ∅) "missing" eq_refl).
  intros d Hd. injection Hd as <-. apply lookup_empty.
Defined.

(* ================================================================= *)
(** ** 12. The fallback chain of [get_prompts] *)

Lemma fill_error_message_en data : fill_messages data error_message_en = error_message_en.
Proof. vm_compute. reflexivity. Qed.

Lemma fill_error_message_zh data : fill_messages data error_message_zh = error_message_zh.
Proof. vm_compute. reflexivity. Qed.

Lemma prompt_error_message_lookup lang :
  prompt_error_message !! lang
  = if decide (lang = "en") then Some error_message_en
    else if decide (lang = "zh") then Some error_message_zh
    else None.
Proof.
  unfold prompt_error_message.
  destruct (decide (lang = "en")) as [->|Hen]; [apply lookup_insert_eq|].
  rewrite lookup_insert_ne by congruence.
  destruct (decide (lang = "zh")) as [->|Hzh]; [apply lookup_singleton_eq|].
  apply lookup_singleton_ne. congruence.
Qed.

(** C7.  When the catalog has no template [prompt_id] under [lang],
    [get_prompts] returns the built-in error template of [lang], and the
    English one when [lang] has none; being a total function it returns a
    prompt in every case, so no error reaches the caller. *)
Theorem get_prompts_missing_template
    (prompts : gmap string (gmap string IChatPrompt))
    (lang prompt_id : string) (data : option (gmap string string))
    (Hmissing : default ∅ (prompts !! lang) !! prompt_id = None) :
  (forall e, prompt_error_message !! lang = Some e ->
             get_prompts prompts lang prompt_id data = e)
  /\ (prompt_error_message !! lang = None ->
      get_prompts prompts lang prompt_id data = error_message_en)
  /\ prompt_error_message !! "en" = Some error_message_en
  /\ prompt_error_message !! "zh" = Some error_message_zh.
Proof.
  unfold get_prompts, select_prompt. rewrite Hmissing.
  rewrite !prompt_error_message_lookup.
  refine (conj _ (conj _ (conj _ _))); [| |reflexivity..].
  - intros e He. repeat case_decide; inversion He; subst e; cbn [default];
      [apply fill_error_message_en | apply fill_error_message_zh].
  - intros He. repeat case_decide; try discriminate He.
    cbn [default]. apply fill_error_message_en.
Qed.

Lemma get_prompts_missing_template_witness :
  get_prompts {[ "en" := {[ "welcome" := system_prompt "Greet {name}" ]} ]}
    "zh" "welcome" (Some {[ "name" := "Ann" ]}) = error_message_zh
  /\ get_prompts {[ "en" := {[ "welcome" := system_prompt "Greet {name}" ]} ]}
       "fr" "welcome" None = error_message_en.
Proof.
  split.
  - apply get_prompts_missing_template; vm_compute; reflexivity.
  - apply get_prompts_missing_template; vm_compute; reflexivity.
Defined.

(* ================================================================= *)
(** ** 13. The conversation cache *)

(** C9.  Once the chat details hold a ['conversation'] string,
    [get_conversation] returns it whatever language is asked for; on chat
    details without one, the first call renders the messages with the role
    names of its language and stores the string, and a second call with
    any other language returns that same string. *)
Theorem get_conversation_first_language_wins
    (ci : IClientData) (cd : IClientChatDetails) (lang1 lang2 : string)
    (role_names1 role_names2 : option (gmap string (gmap string string)))
    (Hcd : ci_chatDetails ci = Some cd) :
  (forall cached, cd_conversation cd = Some cached ->
     get_conversation ci lang1 role_names1 = (cached, ci))
  /\ (cd_conversation cd = None ->
      exists names,
        (get_conversation ci lang1 role_names1).1
          = render_conversation names (cd_messages cd)
        /\ (role_names1 = None -> names = default role_names_en (default_role_names !! lang1))
        /\ get_conversation (get_conversation ci lang1 role_names1).2 lang2 role_names2
           = get_conversation ci lang1 role_names1).
Proof.
  split.
  - intros cached Hc. unfold get_conversation. now rewrite Hcd, Hc.
  - intros Hnone.
    destruct (get_conversation ci lang1 role_names1) as [s1 ci1] eqn:H1.
    unfold get_conversation in H1. rewrite Hcd, Hnone in H1.
    injection H1 as Hs Hci. cbn [fst snd].
    eexists. split; [symmetry; exact Hs|]. split.
    + intros ->. reflexivity.
    + subst ci1. unfold get_conversation. cbn. now rewrite Hs.
Qed.

Lemma get_conversation_first_language_wins_witness :
  (get_conversation two_messages_client "en" None).1
    = "User: ```hi```" +:+ newline +:+ "Cindex (You): ```hello```"
  /\ (get_conversation (get_conversation two_messages_client "en" None).2 "zh" None).1
     = "User: ```hi```" +:+ newline +:+ "Cindex (You): ```hello```"
  /\ (get_conversation two_messages_client "zh" None).1
     <> "User: ```hi```" +:+ newline +:+ "Cindex (You): ```hello```".
Proof.
  destruct (proj2 (get_conversation_first_language_wins
                     two_messages_client two_messages "en" "zh" None None eq_refl)
              eq_refl)
    as (names & H1 & H2 & H3).
  split; [vm_compute; reflexivity|]. split.
  - rewrite H3. vm_compute. reflexivity.
  - vm_compute. discriminate.
Defined.

(* ================================================================= *)
(** ** 14. Suspensions and sends *)

Lemma concat_cons (x : string) (l : list string) :
  String.concat "" (x :: l) = x +:+ String.concat "" l.
Proof. destruct l; [symmetry; apply append_empty_r | reflexivity]. Qed.

Lemma concat_app (l1 l2 : list string) :
  String.concat "" (l1 ++ l2) = String.concat "" l1 +:+ String.concat "" l2.
Proof.
  induction l1 as [|x l1 IH]; [reflexivity|].
  change ((x :: l1) ++ l2) with (x :: (l1 ++ l2)).
  now rewrite !concat_cons, IH, append_assoc.
Qed.

Lemma suspend_eq E w : suspend E w = (Ok (w_tick w), suspended E w).
Proof. reflexivity. Qed.

Lemma deliver_frame w ev :
  w_sent (deliver w ev) = w_sent w
  /\ w_requests (deliver w ev) = w_requests w
  /\ w_clients (deliver w ev) = w_clients w
  /\ w_tick (deliver w ev) = w_tick w
  /\ ci_id (w_client (deliver w ev)) = ci_id (w_client w).
Proof.
  destruct ev as [[|f]|]; cbn; destruct (w_closed w); cbn; try tauto.
  repeat split. unfold on_present.
  destruct (f_lang f), (f_fileName f), (f_images f), (f_action f), (f_details f);
    cbn; try reflexivity;
    match goal with |- context [if ?b then _ else _] => destruct b end; reflexivity.
Qed.

Lemma suspended_frame E w :
  w_sent (suspended E w) = w_sent w
  /\ w_requests (suspended E w) = w_requests w
  /\ w_clients (suspended E w) = w_clients w
  /\ w_tick (suspended E w) = S (w_tick w)
  /\ ci_id (w_client (suspended E w)) = ci_id (w_client w).
Proof.
  unfold suspended.
  assert (H : forall evs w0,
             w_sent (fold_left deliver evs w0) = w_sent w0
             /\ w_requests (fold_left deliver evs w0) = w_requests w0
             /\ w_clients (fold_left deliver evs w0) = w_clients w0
             /\ w_tick (fold_left deliver evs w0) = w_tick w0
             /\ ci_id (w_client (fold_left deliver evs w0)) = ci_id (w_client w0)).
  { induction evs as [|ev evs IH]; intros w0; [tauto|].
    cbn [fold_left]. destruct (IH (deliver w0 ev)) as (-> & -> & -> & -> & ->).
    apply deliver_frame. }
  destruct (H (inbound E (w_tick w)) (next_tick w)) as (-> & -> & -> & -> & ->).
  tauto.
Qed.

(** The receiver never sets [Working]. *)
Lemma receiver_never_sets_working m ci :
  ci_status (ws_receiver_step m ci) = Working -> ci_status ci = Working.
Proof.
  destruct m as [|f]; [tauto|]. cbn. unfold on_present.
  destruct (f_lang f), (f_fileName f), (f_images f), (f_action f), (f_details f);
    cbn; try tauto;
    match goal with |- context [if ?b then _ else _] => destruct b end;
    cbn; discriminate.
Qed.

Lemma deliver_never_sets_working w ev :
  ci_status (w_client (deliver w ev)) = Working -> ci_status (w_client w) = Working.
Proof.
  destruct ev as [m|]; cbn; [|tauto].
  destruct (w_closed w); [tauto|]. apply receiver_never_sets_working.
Qed.

Lemma suspended_never_sets_working E w :
  ci_status (w_client (suspended E w)) = Working -> ci_status (w_client w) = Working.
Proof.
  unfold suspended.
  assert (H : forall evs w0,
             ci_status (w_client (fold_left deliver evs w0)) = Working ->
             ci_status (w_client w0) = Working).
  { induction evs as [|ev evs IH]; intros w0 Hw; [exact Hw|].
    apply deliver_never_sets_working with ev. apply IH. exact Hw. }
  intros Hw. apply H in Hw. exact Hw.
Qed.

(** A message without an action leaves the status alone. *)
Lemma quiet_event_status w ev :
  quiet_event ev -> ci_status (w_client (deliver w ev)) = ci_status (w_client w).
Proof.
  destruct ev as [[|f]|]; cbn; try reflexivity.
  - destruct (w_closed w); reflexivity.
  - intros Hq. destruct (w_closed w); [reflexivity|]. cbn. unfold on_present.
    rewrite Hq. destruct (f_lang f), (f_fileName f), (f_images f), (f_details f);
      reflexivity.
Qed.

Lemma quiet_suspended_status E w :
  quiet E -> ci_status (w_client (suspended E w)) = ci_status (w_client w).
Proof.
  intros Hq. unfold suspended. specialize (Hq (w_tick w)).
  change (ci_status (w_client w)) with (ci_status (w_client (next_tick w))).
  generalize (next_tick w) as w0.
  induction Hq as [|ev evs Hev _ IH]; intros w0; [reflexivity|].
  cbn [fold_left]. rewrite IH. now apply quiet_event_status.
Qed.

(** The same for one suspension: only its own messages count. *)
Lemma quiet_at_suspended_status E w :
  Forall quiet_event (inbound E (w_tick w)) ->
  ci_status (w_client (suspended E w)) = ci_status (w_client w).
Proof.
  intros Hq. unfold suspended.
  change (ci_status (w_client w)) with (ci_status (w_client (next_tick w))).
  generalize (next_tick w) as w0.
  induction Hq as [|ev evs Hev _ IH]; intros w0; [reflexivity|].
  cbn [fold_left]. rewrite IH. now apply quiet_event_status.
Qed.

Lemma quiet_during_weaken E t t' a b :
  quiet_during E t t' -> t <= a -> b <= t' -> quiet_during E a b.
Proof. intros Hq Ha Hb n Hn. apply Hq. lia. Qed.

Lemma quiet_quiet_during E t t' : quiet E -> quiet_during E t t'.
Proof. intros Hq n _. apply Hq. Qed.

Lemma ensure_ws_send_message_eq E f w :
  ensure_ws_send_message E f w
  = if w_closed w then (Ok false, w)
    else match send_outcome E (w_tick w) with
         | SendOk => (Ok true, push_sent f (suspended E w))
         | SendConnectionClosedError => (Ok false, suspended E w)
         | SendWebSocketException => (Raise WebSocketException, suspended E w)
         end.
Proof.
  unfold ensure_ws_send_message, bind, get, ret, raise, modify, suspend, suspended.
  destruct (w_closed w); [reflexivity|].
  destruct (send_outcome E (w_tick w)); reflexivity.
Qed.

Lemma send_text_eq E action text prev w :
  send_text E action text prev w
  = match text with
    | Some t =>
        if truthy t then
          match send_outcome E (w_tick w) with
          | SendOk => (Ok (Continue ""),
                       push_sent (Response (prev +:+ t) action) (suspended E w))
          | SendConnectionClosedError => (Ok Aborted, suspended E w)
          | SendWebSocketException => (Ok (Continue (prev +:+ t)), suspended E w)
          end
        else (Ok (Continue prev), w)
    | None => (Ok (Continue prev), w)
    end.
Proof.
  unfold send_text, bind, ret, modify, suspend, suspended.
  destruct text as [t|]; [|reflexivity]. destruct (truthy t); [|reflexivity].
  destruct (send_outcome E (w_tick w)); reflexivity.
Qed.

Lemma stream_loop_nil E action ending prev w :
  stream_loop E action [] ending prev w
  = match ending with
    | None => (Ok (Continue prev), suspended E w)
    | Some e => (Raise e, suspended E w)
    end.
Proof. cbn. unfold bind, suspend, suspended. destruct ending; reflexivity. Qed.

Lemma stream_loop_cons E action c rest ending prev w :
  stream_loop E action (c :: rest) ending prev w
  = if must_abort (suspended E w) then (Ok Aborted, suspended E w)
    else match on_chunk E action c prev (suspended E w) with
         | (Ok Aborted, w2) => (Ok Aborted, w2)
         | (Ok (Continue p), w2) => stream_loop E action rest ending p w2
         | (Raise e, w2) => (Raise e, w2)
         end.
Proof.
  cbn [stream_loop]. unfold bind at 1 2. unfold suspend, get.
  fold (suspended E w).
  destruct (must_abort (suspended E w)); [reflexivity|].
  unfold bind at 1.
  destruct (on_chunk E action c prev (suspended E w)) as [[[|p]|e] w2]; reflexivity.
Qed.

(** Suspensions are counted: no step of a delivery goes back. *)
Lemma ensure_ws_send_message_tick E f w r w' :
  ensure_ws_send_message E f w = (r, w') ->
  w_tick w <= w_tick w' <= S (w_tick w).
Proof.
  rewrite ensure_ws_send_message_eq. destruct (w_closed w).
  - intros H; inversion H; subst. lia.
  - destruct (send_outcome E (w_tick w)); intros H; inversion H; subst;
      cbn [push_sent w_tick]; rewrite (proj1 (proj2 (proj2 (proj2 (suspended_frame E w)))));
      lia.
Qed.

Lemma send_text_tick E action text prev w r w' :
  send_text E action text prev w = (r, w') ->
  w_tick w <= w_tick w' <= S (w_tick w).
Proof.
  rewrite send_text_eq.
  destruct text as [t|]; [destruct (truthy t)|]; try (intros H; inversion H; subst; lia).
  destruct (send_outcome E (w_tick w)); intros H; inversion H; subst;
    cbn [push_sent w_tick]; rewrite (proj1 (proj2 (proj2 (proj2 (suspended_frame E w)))));
    lia.
Qed.

Lemma on_chunk_eq E action c prev w :
  on_chunk E action c prev w
  = if has_message c then
      if status_eqb (ci_status (w_client w)) Working then
        match ensure_ws_send_message E (ResponseStart action)
                (with_client (set_status Responding) w) with
        | (Ok true, w1) => send_text E action (chunk_text c) prev w1
        | (Ok false, w1) => (Ok Aborted, w1)
        | (Raise e, w1) => (Raise e, w1)
        end
      else send_text E action (chunk_text c) prev w
    else (Ok (Continue prev), w).
Proof.
  unfold on_chunk. destruct (has_message c); [|reflexivity].
  unfold bind at 1. unfold client at 1. unfold bind at 1. unfold get at 1, ret at 1.
  unfold bind at 1.
  destruct (status_eqb (ci_status (w_client w)) Working); [|reflexivity].
  unfold bind at 1. unfold client_do at 1, modify at 1.
  destruct (ensure_ws_send_message E (ResponseStart action)
              (with_client (set_status Responding) w)) as [[[|]|e] w1]; reflexivity.
Qed.

Lemma status_eqb_eq a b : status_eqb a b = true <-> a = b.
Proof. destruct a, b; cbn; split; intros H; try reflexivity; discriminate H. Qed.

Lemma on_chunk_tick E action c prev w r w' :
  on_chunk E action c prev w = (r, w') -> w_tick w <= w_tick w'.
Proof.
  rewrite on_chunk_eq. destruct (has_message c); [|intros H; inversion H; subst; lia].
  destruct (status_eqb (ci_status (w_client w)) Working).
  - destruct (ensure_ws_send_message E (ResponseStart action) _) as [r1 w1] eqn:Hsend.
    apply ensure_ws_send_message_tick in Hsend. cbn [with_client w_tick] in Hsend.
    destruct r1 as [[|]|e]; try (intros H; inversion H; subst; lia).
    intros H. apply send_text_tick in H. lia.
  - intros H. apply send_text_tick in H. lia.
Qed.

Lemma stream_loop_tick E action ending chunks :
  forall prev w r w',
    stream_loop E action chunks ending prev w = (r, w') -> w_tick w < w_tick w'.
Proof.
  induction chunks as [|c rest IH]; intros prev w r w'.
  - rewrite stream_loop_nil.
    destruct ending; intros H; inversion H; subst;
      rewrite (proj1 (proj2 (proj2 (proj2 (suspended_frame E w))))); lia.
  - rewrite stream_loop_cons.
    pose proof (proj1 (proj2 (proj2 (proj2 (suspended_frame E w))))) as Ht.
    destruct (must_abort (suspended E w)); [intros H; inversion H; subst; lia|].
    destruct (on_chunk E action c prev (suspended E w)) as [r2 w2] eqn:Hon.
    apply on_chunk_tick in Hon.
    destruct r2 as [[|p]|e]; try (intros H; inversion H; subst; lia).
    intros H. apply IH in H. lia.
Qed.

(** What one object of the stream adds to the frames sent and to the text
    carried, when the loop goes on after it. *)
Lemma on_chunk_spec E action c prev w p' w' :
  on_chunk E action c prev w = (Ok (Continue p'), w') ->
  exists start texts,
    w_sent w' = w_sent w ++ start ++ map (fun t => Response t action) texts
    /\ String.concat "" texts +:+ p' = prev +:+ default "" (chunk_text c)
    /\ start = (if has_message c && status_eqb (ci_status (w_client w)) Working
                then [ResponseStart action] else [])
    /\ (has_message c = true -> ci_status (w_client w') <> Working)
    /\ (has_message c = false -> w' = w /\ texts = []).
Proof.
  assert (Htext : forall w0 p0 w0',
    send_text E action (chunk_text c) prev w0 = (Ok (Continue p0), w0') ->
    exists texts,
      w_sent w0' = w_sent w0 ++ map (fun t => Response t action) texts
      /\ String.concat "" texts +:+ p0 = prev +:+ default "" (chunk_text c)
      /\ (ci_status (w_client w0') = Working -> ci_status (w_client w0) = Working)).
  { intros w0 p0 w0'. rewrite send_text_eq.
    destruct (chunk_text c) as [t|]; cbn [default].
    - destruct (truthy t) eqn:Ht.
      + destruct (send_outcome E (w_tick w0)); intros H; inversion H; subst.
        * exists [prev +:+ t]. cbn [map w_sent push_sent w_client].
          rewrite (proj1 (suspended_frame E w0)).
          refine (conj eq_refl (conj _ _)).
          -- apply append_empty_r.
          -- apply suspended_never_sets_working.
        * exists []. cbn [map]. rewrite (proj1 (suspended_frame E w0)), app_nil_r.
          refine (conj eq_refl (conj eq_refl _)).
          apply suspended_never_sets_working.
      + intros H; inversion H; subst. exists []. cbn [map]. rewrite app_nil_r.
        destruct t; [|discriminate Ht].
        refine (conj eq_refl (conj _ (fun h => h))). now rewrite append_empty_r.
    - intros H; inversion H; subst. exists []. cbn [map]. rewrite app_nil_r.
      refine (conj eq_refl (conj _ (fun h => h))). now rewrite append_empty_r. }
  rewrite on_chunk_eq. destruct (has_message c) eqn:Hm.
  - destruct (status_eqb (ci_status (w_client w)) Working) eqn:Hst.
    + rewrite ensure_ws_send_message_eq. cbn [with_client w_closed w_tick].
      destruct (w_closed w); [discriminate|].
      destruct (send_outcome E (w_tick w)); try discriminate.
      intros H. apply Htext in H as (texts & Hs & Ht & Hw).
      exists [ResponseStart action], texts.
      refine (conj _ (conj Ht (conj eq_refl (conj _ _)))).
      * rewrite Hs. cbn [w_sent push_sent].
        rewrite (proj1 (suspended_frame E _)). cbn [w_sent with_client].
        now rewrite <- app_assoc.
      * intros _ Hw'. apply Hw in Hw'. cbn [w_client push_sent] in Hw'.
        apply suspended_never_sets_working in Hw'. discriminate Hw'.
      * discriminate.
    + intros H. apply Htext in H as (texts & Hs & Ht & Hw).
      exists [], texts. refine (conj Hs (conj Ht (conj eq_refl (conj _ _)))).
      * intros _ Hw'. apply Hw in Hw'. rewrite Hw' in Hst. discriminate Hst.
      * discriminate.
  - intros H; inversion H; subst. exists [], []. cbn [map andb app].
    rewrite app_nil_r.
    refine (conj eq_refl (conj _ (conj eq_refl (conj _ _)))).
    + destruct c; try discriminate Hm. cbn [chunk_text default].
      now rewrite append_empty_r.
    + discriminate.
    + intros _. split; reflexivity.
Qed.

(** The frames and the text of a run of the loop that reaches the end of
    the stream. *)
Lemma stream_loop_spec E action ending chunks :
  forall prev w p' w',
    stream_loop E action chunks ending prev w = (Ok (Continue p'), w') ->
    exists start texts,
      w_sent w' = w_sent w ++ start ++ map (fun t => Response t action) texts
      /\ String.concat "" texts +:+ p' = prev +:+ all_text chunks
      /\ (start = [] \/ start = [ResponseStart action])
      /\ (ci_status (w_client w) <> Working -> start = [])
      /\ (quiet_during E (w_tick w) (w_tick w') ->
          ci_status (w_client w) = Working ->
          start = if existsb has_message chunks then [ResponseStart action] else []).
Proof.
  induction chunks as [|c rest IH]; intros prev w p' w'.
  - rewrite stream_loop_nil. destruct ending; [discriminate|].
    intros H; inversion H; subst. exists [], []. cbn [map app existsb].
    rewrite app_nil_r, (proj1 (suspended_frame E w)).
    repeat split; auto. unfold all_text. cbn. now rewrite append_empty_r.
  - rewrite stream_loop_cons.
    destruct (must_abort (suspended E w)); [discriminate|].
    destruct (on_chunk E action c prev (suspended E w)) as [[[|p]|e] w2] eqn:Hc;
      try discriminate.
    intros H.
    assert (Hticks : S (w_tick w) <= w_tick w2 /\ w_tick w2 < w_tick w').
    { split; [|now apply stream_loop_tick in H].
      apply on_chunk_tick in Hc.
      now rewrite (proj1 (proj2 (proj2 (proj2 (suspended_frame E w))))) in Hc. }
    apply IH in H as (start2 & texts2 & Hs2 & Ht2 & Hshape2 & Hnw2 & Hq2).
    apply on_chunk_spec in Hc as (start1 & texts1 & Hs1 & Ht1 & Hstart1 & Hmsg & Hnomsg).
    rewrite (proj1 (suspended_frame E w)) in Hs1.
    assert (Htext : String.concat "" (texts1 ++ texts2) +:+ p'
                    = prev +:+ all_text (c :: rest)).
    { unfold all_text in *. cbn [map]. rewrite concat_cons, concat_app.
      rewrite append_assoc, Ht2, <- append_assoc, Ht1, append_assoc. reflexivity. }
    destruct (has_message c) eqn:Hm.
    + specialize (Hnw2 (Hmsg eq_refl)). subst start2.
      exists start1, (texts1 ++ texts2).
      refine (conj _ (conj Htext (conj _ (conj _ _)))).
      * rewrite Hs2, Hs1, map_app. cbn [app]. now rewrite <- !app_assoc.
      * subst start1. cbn [andb].
        destruct (status_eqb _ Working); [now right | now left].
      * intros Hnw. subst start1. cbn [andb].
        destruct (status_eqb _ Working) eqn:Hst; [|reflexivity].
        apply status_eqb_eq, suspended_never_sets_working in Hst. contradiction.
      * intros Hq Hw. subst start1. cbn [andb existsb]. rewrite Hm. cbn [orb].
        rewrite (quiet_at_suspended_status E w), Hw; [reflexivity|].
        apply Hq. lia.
    + destruct (Hnomsg eq_refl) as [-> ->]. subst start1. cbn [andb app] in *.
      exists start2, texts2.
      refine (conj _ (conj Htext (conj Hshape2 (conj _ _)))).
      * rewrite Hs2, (proj1 (suspended_frame E w)). reflexivity.
      * intros Hnw. apply Hnw2. intros Hw.
        apply suspended_never_sets_working in Hw. contradiction.
      * intros Hq Hw. cbn [existsb]. rewrite Hm. cbn [orb]. apply Hq2.
        -- apply (quiet_during_weaken E _ _ _ _ Hq); lia.
        -- rewrite (quiet_at_suspended_status E w); [exact Hw|]. apply Hq. lia.
Qed.

Lemma stream_finish_eq E flag_idle action prev w :
  stream_finish E flag_idle action prev w
  = match (if truthy prev
           then ensure_ws_send_message E (Response prev action) w
           else (Ok true, w)) with
    | (Ok true, w1) =>
        match ensure_ws_send_message E (ResponseEnd action) w1 with
        | (Ok true, w2) =>
            (Ok true,
             if flag_idle && status_in (ci_status (w_client w2)) [Working; Responding]
             then with_client (set_status Idle) w2 else w2)
        | (Ok false, w2) => (Ok false, w2)
        | (Raise e, w2) => (Raise e, w2)
        end
    | (Ok false, w1) => (Ok false, w1)
    | (Raise e, w1) => (Raise e, w1)
    end.
Proof.
  unfold stream_finish. run_coroutine.
  destruct (truthy prev);
    [destruct (ensure_ws_send_message E (Response prev action) w) as [[[|]|e] w1]|];
    try reflexivity;
    (match goal with
     | |- context [ensure_ws_send_message E (ResponseEnd action) ?x] =>
         destruct (ensure_ws_send_message E (ResponseEnd action) x) as [[[|]|e2] w2]
     end; try reflexivity;
     destruct (flag_idle && status_in (ci_status (w_client w2)) [Working; Responding]);
     reflexivity).
Qed.

Lemma stream_finish_tick E flag_idle action prev w r w' :
  stream_finish E flag_idle action prev w = (r, w') -> w_tick w <= w_tick w'.
Proof.
  rewrite stream_finish_eq.
  assert (H1 : forall r1 w1,
             (if truthy prev
              then ensure_ws_send_message E (Response prev action) w
              else (Ok true, w)) = (r1, w1) -> w_tick w <= w_tick w1).
  { intros r1 w1. destruct (truthy prev).
    - intros H. apply ensure_ws_send_message_tick in H. lia.
    - intros H; inversion H; subst. lia. }
  destruct (if truthy prev then _ else _) as [r1 w1].
  specialize (H1 _ _ eq_refl).
  destruct r1 as [[|]|e]; try (intros H; inversion H; subst; lia).
  destruct (ensure_ws_send_message E (ResponseEnd action) w1) as [r2 w2] eqn:H2.
  apply ensure_ws_send_message_tick in H2.
  destruct r2 as [[|]|e]; intros H; inversion H; subst; try lia.
  destruct (flag_idle && _); cbn [with_client w_tick]; lia.
Qed.

Lemma stream_prompts_eq E prompts flag_idle action w :
  stream_prompts E prompts flag_idle action w
  = match stream_loop E action (llm_stream E (w_tick w) prompts).1
            (llm_stream E (w_tick w) prompts).2 "" (stream_start prompts w) with
    | (Ok Aborted, w1) => (Ok false, w1)
    | (Ok (Continue prev), w1) => stream_finish E flag_idle action prev w1
    | (Raise e, w1) => (Raise e, w1)
    end.
Proof.
  unfold stream_prompts, stream_start.
  unfold bind at 1. unfold client_do at 1, modify at 1.
  unfold bind at 1. unfold modify at 1.
  unfold bind at 1. unfold get at 1.
  cbn [w_tick push_request with_client].
  destruct (llm_stream E (w_tick w) prompts) as [chunks ending]. cbn [fst snd].
  unfold bind at 1.
  destruct (stream_loop E action chunks ending "" _) as [[[|p]|e] w1]; reflexivity.
Qed.

(** What a send adds to the frames. *)
Lemma ensure_ws_send_message_sent E f w r w' :
  ensure_ws_send_message E f w = (r, w') ->
  (r = Ok true /\ w_sent w' = w_sent w ++ [f])
  \/ (r <> Ok true /\ w_sent w' = w_sent w).
Proof.
  rewrite ensure_ws_send_message_eq. destruct (w_closed w).
  - intros H; inversion H; subst. right. split; [discriminate | reflexivity].
  - destruct (send_outcome E (w_tick w)); intros H; inversion H; subst.
    + left. cbn. now rewrite (proj1 (suspended_frame E w)).
    + right. rewrite (proj1 (suspended_frame E w)). split; [discriminate | reflexivity].
    + right. rewrite (proj1 (suspended_frame E w)). split; [discriminate | reflexivity].
Qed.

(** However the loop ends, it has sent no [responseEnd]. *)
Lemma stream_loop_no_end E action ending chunks :
  forall prev w r w',
    stream_loop E action chunks ending prev w = (r, w') ->
    exists new, w_sent w' = w_sent w ++ new /\ Forall not_end new.
Proof.
  induction chunks as [|c rest IH]; intros prev w r w'.
  - rewrite stream_loop_nil. intros H. exists [].
    rewrite app_nil_r. split; [|constructor].
    destruct ending; inversion H; subst; apply suspended_frame.
  - rewrite stream_loop_cons.
    destruct (must_abort (suspended E w)).
    { intros H; inversion H; subst. exists []. rewrite app_nil_r.
      split; [apply suspended_frame | constructor]. }
    assert (Hc : forall r2 w2, on_chunk E action c prev (suspended E w) = (r2, w2) ->
              exists new, w_sent w2 = w_sent w ++ new /\ Forall not_end new).
    { intros r2 w2. rewrite on_chunk_eq.
      assert (Ht : forall w0 r0 w0', send_text E action (chunk_text c) prev w0 = (r0, w0') ->
                exists new, w_sent w0' = w_sent w0 ++ new /\ Forall not_end new).
      { intros w0 r0 w0'. rewrite send_text_eq.
        destruct (chunk_text c) as [t|]; [destruct (truthy t);
          [destruct (send_outcome E (w_tick w0))|]|];
          intros H; inversion H; subst; cbn [w_sent push_sent];
          rewrite ?(proj1 (suspended_frame E w0));
          first [ exists []; rewrite app_nil_r; split; [reflexivity | constructor]
                | eexists; split; [reflexivity | repeat constructor] ]. }
      destruct (has_message c).
      - destruct (status_eqb _ Working).
        + destruct (ensure_ws_send_message E (ResponseStart action) _)
            as [r1 w1] eqn:Hsend.
          apply ensure_ws_send_message_sent in Hsend.
          cbn [w_sent with_client] in Hsend.
          rewrite (proj1 (suspended_frame E w)) in Hsend.
          destruct Hsend as [[-> Hs]|[Hne Hs]].
          * intros H. apply Ht in H as (new & Hn & Hf).
            exists (ResponseStart action :: new). split.
            -- rewrite Hn, Hs, <- app_assoc. reflexivity.
            -- constructor; [exact I | exact Hf].
          * intros H. exists []. rewrite app_nil_r. split; [|constructor].
            destruct r1 as [[|]|e]; inversion H; subst; try exact Hs.
            now contradiction Hne.
        + intros H. apply Ht in H as (new & Hn & Hf). exists new.
          rewrite Hn, (proj1 (suspended_frame E w)). now split.
      - intros H; inversion H; subst. exists []. rewrite app_nil_r.
        split; [apply suspended_frame | constructor]. }
    destruct (on_chunk E action c prev (suspended E w)) as [[[|p]|e] w2] eqn:Hon;
      specialize (Hc _ _ eq_refl) as (new1 & Hn1 & Hf1).
    + intros H; inversion H; subst. now exists new1.
    + intros H. apply IH in H as (new2 & Hn2 & Hf2).
      exists (new1 ++ new2). split.
      * rewrite Hn2, Hn1, <- app_assoc. reflexivity.
      * apply Forall_app. now split.
    + intros H; inversion H; subst. now exists new1.
Qed.



(** The frames and the text of a call of [stream_prompts] that returns
    [True]. *)
Lemma stream_prompts_spec E prompts flag_idle action w w' :
  stream_prompts E prompts flag_idle action w = (Ok true, w') ->
  exists start texts,
    w_sent w' = w_sent w ++ start ++ map (fun t => Response t action) texts
                         ++ [ResponseEnd action]
    /\ (start = [] \/ start = [ResponseStart action])
    /\ (quiet_during E (w_tick w) (w_tick w') ->
        start = if existsb has_message (llm_stream E (w_tick w) prompts).1
                then [ResponseStart action] else [])
    /\ String.concat "" texts = all_text (llm_stream E (w_tick w) prompts).1.
Proof.
  rewrite stream_prompts_eq.
  destruct (stream_loop E action _ _ "" (stream_start prompts w)) as [[[|p]|e] w1] eqn:Hloop;
    try discriminate.
  intros Hfinish. pose proof (stream_finish_tick _ _ _ _ _ _ _ Hfinish) as Htick.
  revert Hfinish.
  apply stream_loop_spec in Hloop as (start & texts & Hs & Ht & Hshape & _ & Hq).
  change (w_tick (stream_start prompts w)) with (w_tick w) in Hq.
  cbn [stream_start w_sent push_request with_client] in Hs.
  change ("" +:+ all_text (llm_stream E (w_tick w) prompts).1)
    with (all_text (llm_stream E (w_tick w) prompts).1) in Ht.
  rewrite stream_finish_eq.
  assert (Hend : forall w1' texts',
    w_sent w1' = w_sent w ++ start ++ map (fun t => Response t action) texts' ->
    String.concat "" texts' = all_text (llm_stream E (w_tick w) prompts).1 ->
    match ensure_ws_send_message E (ResponseEnd action) w1' with
    | (Ok true, w2) =>
        (Ok true,
         if flag_idle && status_in (ci_status (w_client w2)) [Working; Responding]
         then with_client (set_status Idle) w2 else w2)
    | (Ok false, w2) => (Ok false, w2)
    | (Raise e, w2) => (Raise e, w2)
    end = (Ok true, w') ->
    exists start0 texts0,
      w_sent w' = w_sent w ++ start0 ++ map (fun t => Response t action) texts0
                           ++ [ResponseEnd action]
      /\ (start0 = [] \/ start0 = [ResponseStart action])
      /\ (quiet_during E (w_tick w) (w_tick w') ->
          start0 = if existsb has_message (llm_stream E (w_tick w) prompts).1
                   then [ResponseStart action] else [])
      /\ String.concat "" texts0 = all_text (llm_stream E (w_tick w) prompts).1).
  { intros w1' texts' Hs' Ht'.
    destruct (ensure_ws_send_message E (ResponseEnd action) w1') as [r2 w2] eqn:H2.
    apply ensure_ws_send_message_sent in H2 as [[-> Hs2]|[Hne Hs2]].
    - intros H; inversion H; subst w'. exists start, texts'.
      refine (conj _ (conj Hshape (conj _ Ht'))).
      + transitivity (w_sent w2);
          [destruct (flag_idle && _); reflexivity|].
        rewrite Hs2, Hs', <- !app_assoc. reflexivity.
      + intros Hquiet. apply Hq; [|reflexivity].
        apply (quiet_during_weaken E _ _ _ _ Hquiet); lia.
    - destruct r2 as [[|]|e]; try discriminate. now contradiction Hne. }
  destruct (truthy p) eqn:Hp.
  - destruct (ensure_ws_send_message E (Response p action) w1) as [r1 w1'] eqn:H1.
    apply ensure_ws_send_message_sent in H1 as [[-> Hs1]|[Hne Hs1]].
    + apply (Hend w1' (texts ++ [p])).
      * rewrite Hs1, Hs, map_app, <- !app_assoc. reflexivity.
      * rewrite concat_app, concat_cons. cbn. now rewrite append_empty_r.
    + destruct r1 as [[|]|e]; try discriminate. now contradiction Hne.
  - apply (Hend w1 texts Hs). destruct p; [|discriminate Hp].
    now rewrite append_empty_r in Ht.
Qed.

(** C3 (as amended).  A call of [stream_prompts] that returns [True] has
    sent at most one [responseStart], then [response] frames, then exactly
    one [responseEnd], in this order; when no action arrives during the
    call (at the suspensions from the one the call starts at to the one
    it ends at; what arrived before or arrives after does not count),
    the [responseStart] is there exactly when the stream holds an object
    with a ['message'] key. *)
Theorem stream_prompts_frames E prompts flag_idle action w w'
    (Hdone : stream_prompts E prompts flag_idle action w = (Ok true, w')) :
  exists start texts,
    w_sent w' = w_sent w ++ start ++ map (fun t => Response t action) texts
                         ++ [ResponseEnd action]
    /\ (start = [] \/ start = [ResponseStart action])
    /\ (quiet_during E (w_tick w) (w_tick w') ->
        start = if existsb has_message (llm_stream E (w_tick w) prompts).1
                then [ResponseStart action] else []).
Proof.
  destruct (stream_prompts_spec _ _ _ _ _ _ Hdone) as (start & texts & H1 & H2 & H3 & _).
  now exists start, texts.
Qed.

Lemma status_eqb_neq st1 st2 : st1 <> st2 -> status_eqb st1 st2 = false.
Proof. intros H. destruct st1, st2; try reflexivity; now contradiction H. Qed.







Lemma quiet_no_events stream sends replies :
  quiet (example_env stream no_events sends replies).
Proof. intros n. constructor. Qed.

(** The call that answers the action ['Welcome'] of a session: the action
    arrived before the call (so the session is not [quiet]), nothing
    arrives during it. *)
Lemma stream_prompts_frames_witness :
  inbound env_welcome 0 = [action_frame "Welcome"]
  /\ exists texts,
       w_sent (stream_prompts env_welcome error_message_en true (Some "Welcome")
                 (with_client (set_action None) (suspended env_welcome open_world))).2
       = [ResponseStart (Some "Welcome")]
         ++ map (fun t => Response t (Some "Welcome")) texts
         ++ [ResponseEnd (Some "Welcome")].
Proof.
  split; [reflexivity|].
  destruct (stream_prompts_frames env_welcome error_message_en true (Some "Welcome")
              (with_client (set_action None) (suspended env_welcome open_world))
              (stream_prompts env_welcome error_message_en true (Some "Welcome")
                 (with_client (set_action None) (suspended env_welcome open_world))).2)
    as (start & texts & Hsent & _ & Hstart).
  - vm_compute. reflexivity.
  - exists texts. rewrite Hsent, Hstart; [reflexivity|].
    intros n [Hn _].
    change (w_tick (with_client (set_action None) (suspended env_welcome open_world)))
      with 1 in Hn.
    destruct n as [|n]; [lia | constructor].
Defined.

(** C3, as stated, fails: a call that returns [True], with no action
    arriving, on a stream whose only object has no ['message'] key sends
    [responseEnd] and no [responseStart]. *)
Lemma stream_prompts_without_start :
  quiet env_no_message
  /\ (stream_prompts env_no_message error_message_en true None open_world).1 = Ok true
  /\ w_sent (stream_prompts env_no_message error_message_en true None open_world).2
     = [ResponseEnd None].
Proof.
  split; [apply quiet_no_events|]. split; vm_compute; reflexivity.
Qed.



(* ================================================================= *)
(** ** 15. Interruption *)

Lemma receiver_interrupts f a ci :
  f_action f = Some a ->
  status_in (ci_status ci) [Working; Responding] = true ->
  ci_status (ws_receiver_step (Parsed f) ci) = Interrupt
  /\ ci_action (ws_receiver_step (Parsed f) ci) = Some a.
Proof.
  intros Ha Hst. cbn. unfold on_present. rewrite Ha.
  destruct (f_lang f), (f_fileName f), (f_images f), (f_details f);
    cbn in *; rewrite Hst; split; reflexivity.
Qed.

Lemma stream_prompts_false_no_end E prompts flag_idle action w w' :
  stream_prompts E prompts flag_idle action w = (Ok false, w') ->
  exists new, w_sent w' = w_sent w ++ new /\ Forall not_end new.
Proof.
  rewrite stream_prompts_eq.
  destruct (stream_loop E action _ _ "" (stream_start prompts w)) as [[[|p]|e] w1] eqn:Hloop;
    try discriminate;
    apply stream_loop_no_end in Hloop as (new & Hn & Hf);
    cbn [stream_start w_sent push_request with_client] in Hn.
  - intros H; inversion H; subst. now exists new.
  - rewrite stream_finish_eq.
    destruct (if truthy p then _ else _) as [r1 w1'] eqn:H1.
    assert (Hs1 : exists new1, w_sent w1' = w_sent w ++ new1 /\ Forall not_end new1
                               /\ (r1 <> Ok true -> True)).
    { destruct (truthy p).
      - apply ensure_ws_send_message_sent in H1 as [[-> Hs]|[Hne Hs]].
        + exists (new ++ [Response p action]). split; [|split; [|tauto]].
          * now rewrite Hs, Hn, <- app_assoc.
          * apply Forall_app. split; [exact Hf | repeat constructor].
        + exists new. rewrite Hs. tauto.
      - inversion H1; subst. exists new. tauto. }
    destruct Hs1 as (new1 & Hn1 & Hf1 & _).
    destruct r1 as [[|]|e].
    + destruct (ensure_ws_send_message E (ResponseEnd action) w1') as [r2 w2] eqn:H2.
      apply ensure_ws_send_message_sent in H2 as [[-> Hs]|[Hne Hs]]; [discriminate|].
      destruct r2 as [[|]|e]; try discriminate.
      intros H; inversion H; subst. exists new1. now rewrite Hs.
    + intros H; inversion H; subst. now exists new1.
    + discriminate.
Qed.

(** C2 (as amended).  An action that arrives while the status is
    [Working] or [Responding] makes the receiver set [Interrupt].  If the
    status is [Interrupt] when the loop of [stream_prompts] has fetched its
    next fragment, the loop stops there having sent nothing more, and
    [stream_prompts] returns [False]; a call that returns [False] has sent
    no [responseEnd].  (An action that arrives when no further fragment is
    fetched does not stop the delivery.) *)
Theorem interrupt_aborts_at_next_fragment E action f a ci c rest ending prev w
    (Haction : f_action f = Some a)
    (Hbusy : status_in (ci_status ci) [Working; Responding] = true)
    (Hinterrupt : ci_status (w_client (suspended E w)) = Interrupt) :
  ci_status (ws_receiver_step (Parsed f) ci) = Interrupt
  /\ stream_loop E action (c :: rest) ending prev w = (Ok Aborted, suspended E w)
  /\ w_sent (suspended E w) = w_sent w
  /\ (forall prompts flag_idle w0 w1,
        stream_loop E action (llm_stream E (w_tick w0) prompts).1
          (llm_stream E (w_tick w0) prompts).2 "" (stream_start prompts w0)
        = (Ok Aborted, w1) ->
        stream_prompts E prompts flag_idle action w0 = (Ok false, w1))
  /\ (forall prompts flag_idle w0 w1,
        stream_prompts E prompts flag_idle action w0 = (Ok false, w1) ->
        exists new, w_sent w1 = w_sent w0 ++ new /\ Forall not_end new).
Proof.
  refine (conj _ (conj _ (conj _ (conj _ _)))).
  - exact (proj1 (receiver_interrupts f a ci Haction Hbusy)).
  - rewrite stream_loop_cons. unfold must_abort. rewrite Hinterrupt.
    cbn [status_in existsb status_eqb]. now rewrite !orb_true_r.
  - apply suspended_frame.
  - intros prompts flag_idle w0 w1 H. now rewrite stream_prompts_eq, H.
  - intros prompts flag_idle w0 w1. apply stream_prompts_false_no_end.
Qed.

Lemma interrupt_aborts_at_next_fragment_witness :
  stream_loop env_interrupt None [ChunkMessageStr " there"] None "" world_responding
  = (Ok Aborted, suspended env_interrupt world_responding)
  /\ stream_prompts env_interrupt error_message_en true None open_world
     = (Ok false, suspended env_interrupt world_responding).
Proof.
  destruct (interrupt_aborts_at_next_fragment env_interrupt None
              {| f_lang := None; f_fileName := None; f_images := None;
                 f_action := Some "Chat"; f_details := None |}
              "Chat" (w_client world_responding) (ChunkMessageStr " there") [] None ""
              world_responding eq_refl eq_refl eq_refl)
    as (_ & H & _ & _ & _).
  split; [exact H | vm_compute; reflexivity].
Defined.

(** C2, as stated, fails: the action arrives while the status is
    [Responding] (the receiver sets [Interrupt]), but the worker is
    already waiting for the end of the stream; the call returns [True] and
    has sent [responseEnd]. *)
Lemma late_action_does_not_abort :
  stream_prompts env_late_action error_message_en true None open_world
  = (Ok true,
     {| w_client := set_action (Some "Chat") (set_status Interrupt (initial_client 1));
        w_closed := false; w_clients := {[ 1 ]}; w_tick := 5;
        w_sent := [ResponseStart None; Response "Hi" None; ResponseEnd None];
        w_requests := [(Working, error_message_en)] |}).
Proof. vm_compute. reflexivity. Qed.

(* ================================================================= *)
(** ** 16. The worker loop *)

Lemma worker_body_eq E w :
  worker_body E w
  = match ci_action (w_client w) with
    | Some data =>
        if truthy data then dispatch E data (with_client (set_action None) w)
        else (Ok tt, w)
    | None => (Ok tt, w)
    end.
Proof.
  unfold worker_body. run_coroutine.
  destruct (ci_action (w_client w)) as [data|]; [|reflexivity].
  destruct (truthy data); reflexivity.
Qed.

Lemma dispatch_unrecognised E data w :
  recognised data (ci_chatDetails (w_client w)) = false ->
  dispatch E data w = (Ok tt, w).
Proof.
  unfold recognised, dispatch. run_coroutine.
  intros H. apply orb_false_elim in H as [H H4].
  apply orb_false_elim in H as [H H3]. apply orb_false_elim in H as [H1 H2].
  now rewrite H1, H2, H3, H4.
Qed.

Lemma ws_llm_worker_step E fuel w :
  w_closed w = false -> ci_id (w_client w) ∈ w_clients w ->
  ws_llm_worker E (S fuel) w
  = match worker_body E w with
    | (Ok _, w1) => ws_llm_worker E fuel (suspended E w1)
    | (Raise e, w1) => (Raise e, w1)
    end.
Proof.
  intros Hopen Hreg. cbn [ws_llm_worker]. unfold bind at 1. unfold get at 1.
  rewrite Hopen, bool_decide_true by exact Hreg. cbn [negb andb].
  unfold bind at 1. destruct (worker_body E w) as [[[]|e] w1]; [|reflexivity].
  unfold bind at 1. reflexivity.
Qed.

(** C10 (as amended).  A pass of the worker loop that finds a truthy
    (non-null, non-empty) action clears it before dispatching on its
    value.  When the value has no handler, nothing else happens: no frame
    is sent, no request is made, the status stays what it was (a
    [NewTask] stays [NewTask]). *)
Theorem worker_drops_unknown_action E w data
    (Haction : ci_action (w_client w) = Some data)
    (Htruthy : truthy data = true) :
  worker_body E w = dispatch E data (with_client (set_action None) w)
  /\ (recognised data (ci_chatDetails (w_client w)) = false ->
      worker_body E w = (Ok tt, with_client (set_action None) w)
      /\ ci_action (w_client (worker_body E w).2) = None
      /\ w_sent (worker_body E w).2 = w_sent w
      /\ w_requests (worker_body E w).2 = w_requests w
      /\ ci_status (w_client (worker_body E w).2) = ci_status (w_client w)).
Proof.
  rewrite worker_body_eq, Haction, Htruthy. split; [reflexivity|].
  intros Hunk. rewrite dispatch_unrecognised by exact Hunk.
  repeat split.
Qed.

Lemma worker_drops_unknown_action_witness :
  ci_status (w_client world_unknown_action) = NewTask
  /\ worker_body env_no_message world_unknown_action
     = (Ok tt, with_client (set_action None) world_unknown_action)
  /\ ci_status (w_client (worker_body env_no_message world_unknown_action).2) = NewTask.
Proof.
  destruct (worker_drops_unknown_action env_no_message world_unknown_action "Undo"
              eq_refl eq_refl) as [_ H].
  destruct (H eq_refl) as (H1 & _ & _ & _ & H5).
  split; [reflexivity|]. split; [exact H1|]. rewrite H5. reflexivity.
Defined.

(** C10, as stated, fails for a pending action that is not null but
    falsy: the worker neither clears nor dispatches it. *)
Lemma worker_keeps_empty_action :
  ci_action (w_client world_empty_action) = Some ""
  /\ worker_body env_no_message world_empty_action = (Ok tt, world_empty_action)
  /\ ci_action (w_client (worker_body env_no_message world_empty_action).2) = Some "".
Proof. repeat split. Qed.

(* ================================================================= *)
(** ** 17. Failures inside a handler *)

Lemma _response_from_llm_eq E prompts w :
  _response_from_llm E prompts w
  = match llm_response E (w_tick w) prompts with
    | Ok data => (Ok data, suspended E (push_request prompts w))
    | Raise e => (Raise e, suspended E (push_request prompts w))
    end.
Proof.
  unfold _response_from_llm. cbv [bind modify suspend ret raise].
  cbn [w_tick push_request]. unfold suspended.
  destruct (llm_response E (w_tick w) prompts); reflexivity.
Qed.

Lemma ask_intent_eq E prompt_id w :
  ask_intent E prompt_id w
  = match llm_response E (w_tick w) (intent_prompt E prompt_id w) with
    | Raise e => (Raise e, intent_asked E prompt_id w)
    | Ok results =>
        if status_eqb (ci_status (w_client (intent_asked E prompt_id w))) Interrupt
        then (Ok None, intent_asked E prompt_id w)
        else match parse_intent (strip results) with
             | None => (Raise ValueError, intent_asked E prompt_id w)
             | Some intent => (Ok (Some intent), intent_asked E prompt_id w)
             end
    end.
Proof.
  unfold ask_intent, conversation, intent_asked, intent_prompt.
  unfold bind at 1. unfold client at 1. unfold bind at 1. unfold get at 1, ret at 1.
  unfold bind at 1. unfold bind at 1. unfold client at 1.
  unfold bind at 1. unfold get at 1, ret at 1.
  destruct (get_conversation (w_client w) (ci_lang (w_client w)) None) as [s ci'] eqn:Hc.
  unfold bind at 1. unfold client_do at 1, modify at 1. unfold ret at 1.
  unfold bind at 1. unfold client_do at 1, modify at 1.
  unfold bind at 1. rewrite _response_from_llm_eq.
  cbn [w_tick with_client fst snd].
  destruct (llm_response E (w_tick w) _) as [results|e]; [|reflexivity].
  run_coroutine.
  destruct (status_eqb _ Interrupt); [reflexivity|].
  destruct (parse_intent (strip results)); reflexivity.
Qed.

Lemma dispatch_blank_chat E w cd :
  ci_chatDetails (w_client w) = Some cd -> cd_page cd = "blank" ->
  dispatch E "Chat" w = chat_in_blank_page E w.
Proof.
  intros Hcd Hpage. unfold dispatch. run_coroutine.
  rewrite Hcd, Hpage. reflexivity.
Qed.

(** C1 (as amended).  The worker loop catches nothing: an exception
    raised in a pass of its body leaves [ws_llm_worker].  For a chat
    message on the blank page: a failure of the generation call, and the
    [ValueError] raised for a reply that is no number, leave
    [ws_llm_worker] as an exception, in the world in which the reply
    arrived; a reply that is a number outside the known intents falls back
    to [stream_not_understand]. *)
Theorem handler_failure_ends_worker E fuel w cd
    (Hopen : w_closed w = false)
    (Hreg : ci_id (w_client w) ∈ w_clients w)
    (Haction : ci_action (w_client w) = Some "Chat")
    (Hcd : ci_chatDetails (w_client w) = Some cd)
    (Hpage : cd_page cd = "blank") :
  (forall e w',
      worker_body E w = (Raise e, w') -> ws_llm_worker E (S fuel) w = (Raise e, w'))
  /\ (forall e,
      llm_response E (w_tick w)
        (intent_prompt E "newFile" (with_client (set_action None) w)) = Raise e ->
      ws_llm_worker E (S fuel) w
      = (Raise e, intent_asked E "newFile" (with_client (set_action None) w)))
  /\ (forall results,
        llm_response E (w_tick w)
          (intent_prompt E "newFile" (with_client (set_action None) w)) = Ok results ->
        ci_status (w_client (intent_asked E "newFile" (with_client (set_action None) w)))
          <> Interrupt ->
        parse_intent (strip results) = None ->
        ws_llm_worker E (S fuel) w
        = (Raise ValueError, intent_asked E "newFile" (with_client (set_action None) w)))
  /\ (forall results intent,
        llm_response E (w_tick w)
          (intent_prompt E "newFile" (with_client (set_action None) w)) = Ok results ->
        ci_status (w_client (intent_asked E "newFile" (with_client (set_action None) w)))
          <> Interrupt ->
        parse_intent (strip results) = Some intent ->
        (intent = 0 \/ 5 < intent)%N ->
        worker_body E w
        = stream_not_understand E
            (intent_asked E "newFile" (with_client (set_action None) w))).
Proof.
  assert (Hbody : worker_body E w
                  = chat_in_blank_page E (with_client (set_action None) w)).
  { rewrite worker_body_eq, Haction. cbn [truthy].
    apply dispatch_blank_chat with cd; [exact Hcd | exact Hpage]. }
  assert (Hnot : forall st, st <> Interrupt -> status_eqb st Interrupt = false).
  { intros st Hst. destruct st; try reflexivity. now contradiction Hst. }
  refine (conj _ (conj _ (conj _ _))).
  - intros e w' He. now rewrite (ws_llm_worker_step E fuel w Hopen Hreg), He.
  - intros e He. rewrite (ws_llm_worker_step E fuel w Hopen Hreg), Hbody.
    unfold chat_in_blank_page. unfold bind at 1.
    rewrite ask_intent_eq. cbn [w_tick with_client]. rewrite He. reflexivity.
  - intros results Hr Hst Hp.
    rewrite (ws_llm_worker_step E fuel w Hopen Hreg), Hbody.
    unfold chat_in_blank_page. unfold bind at 1.
    rewrite ask_intent_eq. cbn [w_tick with_client]. rewrite Hr, (Hnot _ Hst), Hp.
    reflexivity.
  - intros results intent Hr Hst Hp Hi. rewrite Hbody.
    unfold chat_in_blank_page. unfold bind at 1.
    rewrite ask_intent_eq. cbn [w_tick with_client]. rewrite Hr, (Hnot _ Hst), Hp.
    destruct intent as [|p]; [reflexivity|].
    destruct Hi as [Hi|Hi]; [discriminate Hi|].
    do 3 (try (destruct p as [p|p|]; try reflexivity; try lia)).
Qed.

Lemma handler_failure_ends_worker_witness :
  ws_llm_worker env_backend_down 1 (suspended env_backend_down open_world)
  = (Raise ConnectionError,
     intent_asked env_backend_down "newFile"
       (with_client (set_action None) (suspended env_backend_down open_world)))
  /\ worker_body env_unknown_intent (suspended env_unknown_intent open_world)
     = stream_not_understand env_unknown_intent
         (intent_asked env_unknown_intent "newFile"
            (with_client (set_action None) (suspended env_unknown_intent open_world))).
Proof.
  split.
  - eapply (proj1 (proj2 (handler_failure_ends_worker env_backend_down 0
                     (suspended env_backend_down open_world) _
                     eq_refl ltac:(vm_compute; set_solver) eq_refl eq_refl eq_refl))).
    reflexivity.
  - eapply (proj2 (proj2 (proj2 (handler_failure_ends_worker env_unknown_intent 0
                     (suspended env_unknown_intent open_world) _
                     eq_refl ltac:(vm_compute; set_solver) eq_refl eq_refl eq_refl)))).
    + reflexivity.
    + vm_compute. discriminate.
    + vm_compute. reflexivity.
    + right. reflexivity.
Defined.

(** C1, as stated, fails: with the connection open, a request the backend
    does not answer, and a reply that is no number, end the session with
    an exception; no fallback message is sent. *)
Lemma backend_failure_ends_session :
  (ws_runtime env_backend_down 2 0 ∅).1 = SessionCrashed ConnectionError
  /\ w_closed (ws_runtime env_backend_down 2 0 ∅).2 = false
  /\ w_sent (ws_runtime env_backend_down 2 0 ∅).2 = []
  /\ (ws_runtime env_wordy_reply 2 0 ∅).1 = SessionCrashed ValueError
  /\ w_closed (ws_runtime env_wordy_reply 2 0 ∅).2 = false
  /\ w_sent (ws_runtime env_wordy_reply 2 0 ∅).2 = [].
Proof. repeat split; vm_compute; reflexivity. Qed.

(* ================================================================= *)
(** ** 18. The status at a generation request *)

(** C5: the code at the failing input.  The first request of the handler
    is made under [Working]; the request of [edit_photo] that follows is
    made under [NewTask].  The same happens to the request of
    [switch_lang_by_message] on the blank page. *)
Lemma edit_photo_requests_under_new_task :
  firstn 2 (w_requests (ws_llm_worker env_double_action 2 open_world).2)
  = [ (Working,
       system_prompt "Intent of: User: ```make it brighter```");
      (NewTask, system_prompt "Adjust {...}") ]
  /\ firstn 2 (map fst
        (w_requests (ws_llm_worker env_double_action_blank 2 open_world).2))
     = [Working; NewTask].
Proof. split; vm_compute; reflexivity. Qed.

(* ================================================================= *)
(** ** 19. The renderer copies *)

Lemma alloc_spec o (h : gmap Store.loc Store.obj) l h' :
  Store.alloc o h = (l, h') -> h !! l = None /\ h' = <[l := o]> h /\ h ⊆ h'.
Proof.
  unfold Store.alloc. intros H. injection H as <- <-.
  assert (Hf : h !! fresh (dom h) = None) by apply not_elem_of_dom, is_fresh.
  split; [exact Hf|]. split; [reflexivity|]. now apply insert_subseteq.
Qed.

Lemma copy_opt_strlist_spec ol (h : gmap Store.loc Store.obj) ol' h' :
  Store.copy_opt_strlist ol h = Some (ol', h') ->
  h ⊆ h' /\ (forall i, ol' = Some i -> h !! i = None).
Proof.
  unfold Store.copy_opt_strlist, Store.copy_strlist. destruct ol as [l|].
  - destruct (h !! l) as [[| xs | |]|]; try discriminate.
    destruct (Store.alloc (Store.OStrList xs) h) as [l' h1] eqn:Ha.
    apply alloc_spec in Ha as (Hf & -> & Hsub).
    intros H. injection H as <- <-. split; [exact Hsub|].
    intros i Hi. now injection Hi as <-.
  - intros H. injection H as <- <-. split; [reflexivity | discriminate].
Qed.

Lemma copy_message_spec l (h : gmap Store.loc Store.obj) l' h' :
  Store.copy_message l h = Some (l', h') -> h ⊆ h' /\ new_message h h' l'.
Proof.
  unfold Store.copy_message.
  destruct (h !! l) as [[r c imgs | | |]|]; try discriminate.
  destruct (Store.copy_opt_strlist imgs h) as [[imgs' h1]|] eqn:Hc; [|discriminate].
  apply copy_opt_strlist_spec in Hc as [Hsub1 Himgs].
  destruct (Store.alloc (Store.OMessage r c imgs') h1) as [l2 h2] eqn:Ha.
  apply alloc_spec in Ha as (Hf & -> & Hsub2).
  intros H. injection H as <- <-.
  split; [now transitivity h1|]. split.
  - now apply (lookup_weaken_None h h1).
  - exists r, c, imgs'. split; [apply lookup_insert_eq | exact Himgs].
Qed.

Lemma new_message_weaken (h0 h h' : gmap Store.loc Store.obj) l :
  h ⊆ h' -> new_message h0 h l -> new_message h0 h' l.
Proof.
  intros Hsub (Hf & r & c & imgs & Hl & Hi). split; [exact Hf|].
  exists r, c, imgs. split; [now apply (lookup_weaken h) | exact Hi].
Qed.

Lemma new_message_older (h0 h1 h : gmap Store.loc Store.obj) l :
  h0 ⊆ h1 -> new_message h1 h l -> new_message h0 h l.
Proof.
  intros Hsub (Hf & r & c & imgs & Hl & Hi). split.
  - now apply (lookup_weaken_None h0 h1).
  - exists r, c, imgs. split; [exact Hl|].
    intros i Himg. apply (lookup_weaken_None h0 h1); [now apply Hi | exact Hsub].
Qed.

Lemma copy_messages_spec ls :
  forall (h : gmap Store.loc Store.obj) ls' h',
    Store.copy_messages ls h = Some (ls', h') ->
    h ⊆ h' /\ Forall (new_message h h') ls'.
Proof.
  induction ls as [|l rest IH]; intros h ls' h'; cbn [Store.copy_messages].
  - intros H. injection H as <- <-. split; [reflexivity | constructor].
  - destruct (Store.copy_message l h) as [[l1 h1]|] eqn:Hm; [|discriminate].
    destruct (Store.copy_messages rest h1) as [[rest' h2]|] eqn:Hr; [|discriminate].
    intros H. injection H as <- <-.
    apply copy_message_spec in Hm as [Hsub1 Hnew1].
    apply IH in Hr as [Hsub2 Hnew2].
    split; [now transitivity h1|]. constructor.
    + now apply (new_message_weaken h h1 h2).
    + eapply Forall_impl; [exact Hnew2|]. intros x Hx.
      now apply (new_message_older h h1 h2).
Qed.

(** What [deepcopy] builds: a prompt, its list and its messages, all at
    addresses the store did not have. *)
Lemma deepcopy_spec l (h : gmap Store.loc Store.obj) p h' :
  Store.deepcopy l h = Some (p, h') ->
  h ⊆ h'
  /\ exists ms st t m pf jp items,
       h' !! p = Some (Store.OPrompt ms st t m pf jp)
       /\ h' !! ms = Some (Store.OMsgList items)
       /\ h !! p = None /\ h !! ms = None
       /\ (forall i, st = Some i -> h !! i = None)
       /\ Forall (new_message h h') items.
Proof.
  unfold Store.deepcopy.
  destruct (h !! l) as [[| | | ms0 st0 t m pf jp]|]; try discriminate.
  destruct (h !! ms0) as [[| | items0 |]|]; try discriminate.
  destruct (Store.copy_messages items0 h) as [[items h1]|] eqn:Hc; [|discriminate].
  apply copy_messages_spec in Hc as [Hsub1 Hnew].
  destruct (Store.alloc (Store.OMsgList items) h1) as [ms h2] eqn:Ha1.
  apply alloc_spec in Ha1 as (Hf2 & -> & Hsub2).
  destruct (Store.copy_opt_strlist st0 (<[ms:=Store.OMsgList items]> h1))
    as [[st h3]|] eqn:Hst; [|discriminate].
  apply copy_opt_strlist_spec in Hst as [Hsub3 Hfst].
  destruct (Store.alloc (Store.OPrompt ms st t m pf jp) h3) as [p0 h4] eqn:Ha2.
  apply alloc_spec in Ha2 as (Hf4 & -> & Hsub4).
  intros H. injection H as <- <-.
  assert (Hsub : h ⊆ h3) by (transitivity h1; [exact Hsub1|]; now transitivity (<[ms:=Store.OMsgList items]> h1)).
  split; [now transitivity h3|].
  exists ms, st, t, m, pf, jp, items.
  refine (conj _ (conj _ (conj _ (conj _ (conj _ _))))).
  - apply lookup_insert_eq.
  - apply (lookup_weaken h3); [|exact Hsub4].
    apply (lookup_weaken (<[ms:=Store.OMsgList items]> h1)); [|exact Hsub3].
    apply lookup_insert_eq.
  - now apply (lookup_weaken_None h h3).
  - now apply (lookup_weaken_None h h1).
  - intros i Hi. apply (lookup_weaken_None h (<[ms:=Store.OMsgList items]> h1)).
    + now apply Hfst.
    + now transitivity h1.
  - eapply Forall_impl; [exact Hnew|]. intros x Hx.
    apply (new_message_weaken h h1); [|exact Hx].
    transitivity (<[ms:=Store.OMsgList items]> h1); [exact Hsub2|].
    now transitivity h3.
Qed.

(** The assignments of [get_prompts] touch the listed messages only, and
    only their content. *)
Lemma assign_contents_spec f ls :
  forall (h0 h h' : gmap Store.loc Store.obj),
    Forall (fun l => h0 !! l = None) ls -> h0 ⊆ h ->
    Store.assign_contents f ls h = Some h' ->
    h0 ⊆ h' /\ (forall l, erase <$> (h' !! l) = erase <$> (h !! l)).
Proof.
  induction ls as [|l rest IH]; intros h0 h h' Hnew Hsub; cbn [Store.assign_contents].
  - intros H. injection H as <-. now split.
  - destruct (h !! l) as [[r c imgs | | |]|] eqn:Hl; try discriminate.
    intros H. inversion Hnew as [|? ? Hl0 Hrest]; subst.
    apply (IH h0) in H as [Hsub' Herase]; [| exact Hrest | now apply insert_subseteq_r].
    split; [exact Hsub'|]. intros x. rewrite Herase.
    destruct (decide (l = x)) as [->|Hne].
    + now rewrite lookup_insert_eq, Hl.
    + now rewrite lookup_insert_ne.
Qed.

Lemma erase_lookup (h h' : gmap Store.loc Store.obj) l :
  erase <$> (h' !! l) = erase <$> (h !! l) ->
  match h !! l with
  | Some (Store.OMessage r c i) => exists c', h' !! l = Some (Store.OMessage r c' i)
  | o => h' !! l = o
  end.
Proof.
  destruct (h !! l) as [[r c i| | |]|], (h' !! l) as [[r' c' i'| | |]|];
    cbn; intros H; try discriminate H; try (injection H as <-; reflexivity);
    try reflexivity; try (now inversion H).
  injection H as <- <-. now exists c'.
Qed.

Lemma prompt_locs_erase (h h' : gmap Store.loc Store.obj) p :
  (forall l, erase <$> (h' !! l) = erase <$> (h !! l)) ->
  Store.prompt_locs h' p = Store.prompt_locs h p.
Proof.
  intros He. unfold Store.prompt_locs.
  assert (Hmsg : forall x, Store.message_locs h' x = Store.message_locs h x).
  { intros x. unfold Store.message_locs.
    pose proof (erase_lookup h h' x (He x)) as Hx.
    destruct (h !! x) as [[r c i| xs | items | ms st t m pf jp]|];
      [destruct Hx as [c' ->] | rewrite Hx ..]; reflexivity. }
  pose proof (erase_lookup h h' p (He p)) as Hp.
  destruct (h !! p) as [[r c i| xs | items | ms st t m pf jp]|];
    [destruct Hp as [c' ->]; reflexivity | rewrite Hp ..]; try reflexivity.
  pose proof (erase_lookup h h' ms (He ms)) as Hms.
  destruct (h !! ms) as [[r c i| xs | items | ms2 st2 t2 m2 pf2 jp2]|];
    [destruct Hms as [c' ->]; reflexivity | rewrite Hms ..]; try reflexivity.
  do 4 f_equal. apply map_ext. exact Hmsg.
Qed.

Lemma message_locs_new (h0 h : gmap Store.loc Store.obj) items :
  Forall (new_message h0 h) items ->
  forall l, l ∈ concat (map (Store.message_locs h) items) -> h0 !! l = None.
Proof.
  induction 1 as [|x xs Hx _ IH]; intros l Hl; [now apply elem_of_nil in Hl|].
  cbn [map concat] in Hl. apply elem_of_app in Hl as [Hl|Hl]; [|now apply IH].
  destruct Hx as (Hfx & r & c & imgs & Hxl & Hi).
  unfold Store.message_locs in Hl. rewrite Hxl in Hl.
  destruct imgs as [i|].
  - apply elem_of_cons in Hl as [->|Hl]; [exact Hfx|].
    apply list_elem_of_singleton in Hl as ->. now apply Hi.
  - apply list_elem_of_singleton in Hl as ->. exact Hfx.
Qed.

Lemma prompt_locs_new (h0 h : gmap Store.loc Store.obj) p ms st t m pf jp items :
  h !! p = Some (Store.OPrompt ms st t m pf jp) ->
  h !! ms = Some (Store.OMsgList items) ->
  h0 !! p = None -> h0 !! ms = None ->
  (forall i, st = Some i -> h0 !! i = None) ->
  Forall (new_message h0 h) items ->
  forall l, l ∈ Store.prompt_locs h p -> h0 !! l = None.
Proof.
  intros Hp Hms H0p H0ms Hst Hnew l. unfold Store.prompt_locs. rewrite Hp, Hms.
  rewrite !elem_of_cons, elem_of_app. intros [->|[->|[Hl|Hl]]]; try assumption.
  - destruct st as [i|]; [|now apply elem_of_nil in Hl].
    apply list_elem_of_singleton in Hl as ->. now apply Hst.
  - now apply (message_locs_new h0 h items).
Qed.

Lemma read_opt_strlist_mono (h h' : gmap Store.loc Store.obj) ol v :
  h ⊆ h' -> Store.read_opt_strlist h ol = Some v -> Store.read_opt_strlist h' ol = Some v.
Proof.
  intros Hsub. unfold Store.read_opt_strlist, Store.read_strlist.
  destruct ol as [l|]; [|tauto].
  destruct (h !! l) as [o|] eqn:Hl; [|discriminate].
  now rewrite (lookup_weaken _ _ _ _ Hl Hsub).
Qed.

Lemma read_message_mono (h h' : gmap Store.loc Store.obj) l v :
  h ⊆ h' -> Store.read_message h l = Some v -> Store.read_message h' l = Some v.
Proof.
  intros Hsub. unfold Store.read_message.
  destruct (h !! l) as [o|] eqn:Hl; [|discriminate].
  rewrite (lookup_weaken _ _ _ _ Hl Hsub).
  destruct o as [r c imgs| | |]; try discriminate.
  destruct (Store.read_opt_strlist h imgs) as [i|] eqn:Hi; [|discriminate].
  now rewrite (read_opt_strlist_mono _ _ _ _ Hsub Hi).
Qed.

Lemma read_messages_mono (h h' : gmap Store.loc Store.obj) ls :
  h ⊆ h' ->
  forall v, Store.read_messages h ls = Some v -> Store.read_messages h' ls = Some v.
Proof.
  intros Hsub. induction ls as [|l rest IH]; intros v; [tauto|].
  cbn [Store.read_messages].
  destruct (Store.read_message h l) as [m|] eqn:Hm; [|discriminate].
  rewrite (read_message_mono _ _ _ _ Hsub Hm).
  destruct (Store.read_messages h rest) as [ms|]; [|discriminate].
  now rewrite (IH ms eq_refl).
Qed.

(** Objects added to a store change no prompt that could be read before. *)
Lemma read_prompt_mono (h h' : gmap Store.loc Store.obj) l v :
  h ⊆ h' -> Store.read_prompt h l = Some v -> Store.read_prompt h' l = Some v.
Proof.
  intros Hsub. unfold Store.read_prompt.
  destruct (h !! l) as [o|] eqn:Hl; [|discriminate].
  rewrite (lookup_weaken _ _ _ _ Hl Hsub).
  destruct o as [| | | ms st t m pf jp]; try discriminate.
  destruct (h !! ms) as [o|] eqn:Hms; [|discriminate].
  rewrite (lookup_weaken _ _ _ _ Hms Hsub).
  destruct o as [| | items |]; try discriminate.
  destruct (Store.read_messages h items) as [msgs|] eqn:Hmsgs; [|discriminate].
  rewrite (read_messages_mono _ _ _ Hsub _ Hmsgs).
  destruct (Store.read_opt_strlist h st) as [stop|] eqn:Hst; [|discriminate].
  now rewrite (read_opt_strlist_mono _ _ _ _ Hsub Hst).
Qed.

(** One call of [get_prompts] on the store. *)
Lemma get_prompts_frame (s : Store.server) lang prompt_id data p s' :
  Store.get_prompts s lang prompt_id data = Some (p, s') ->
  Store.prompts s' = Store.prompts s
  /\ Store.error_prompts s' = Store.error_prompts s
  /\ Store.store s ⊆ Store.store s'
  /\ (forall l, l ∈ Store.prompt_locs (Store.store s') p -> Store.store s !! l = None).
Proof.
  unfold Store.get_prompts.
  destruct (Store.select_prompt s lang prompt_id) as [src|]; [|discriminate].
  destruct (Store.deepcopy src (Store.store s)) as [[p0 h1]|] eqn:Hcopy; [|discriminate].
  apply deepcopy_spec in Hcopy
    as (Hsub & ms & st & t & m & pf & jp & items & Hp & Hms & H0p & H0ms & Hst & Hnew).
  rewrite Hp, Hms.
  destruct (Store.assign_contents (render_content data) items h1) as [h2|] eqn:Ha;
    [|discriminate].
  intros H. injection H as <- <-. cbn [Store.prompts Store.error_prompts Store.store].
  apply (assign_contents_spec _ _ (Store.store s)) in Ha as [Hsub2 Herase];
    [| | exact Hsub].
  - refine (conj eq_refl (conj eq_refl (conj Hsub2 _))).
    intros l. rewrite (prompt_locs_erase h1 h2 p0 Herase).
    now apply (prompt_locs_new _ _ _ ms st t m pf jp items).
  - eapply Forall_impl; [exact Hnew|]. now intros x [Hx _].
Qed.

(** C8.  [get_prompts] changes neither catalog and no object the store
    had: every prompt that could be read before reads the same after.
    The prompt it returns is made of objects the store did not have, so
    whatever is done to these objects afterwards, every prompt of the old
    store, the catalog entries and the built-in error templates among
    them, still reads the same; and so after rendering the same entry
    with the same variables once more. *)
Theorem get_prompts_independent_copy (s : Store.server) lang prompt_id data p s'
    (Hget : Store.get_prompts s lang prompt_id data = Some (p, s')) :
  Store.prompts s' = Store.prompts s
  /\ Store.error_prompts s' = Store.error_prompts s
  /\ (forall l o, Store.store s !! l = Some o -> Store.store s' !! l = Some o)
  /\ (forall l v, Store.read_prompt (Store.store s) l = Some v ->
                  Store.read_prompt (Store.store s') l = Some v)
  /\ (forall l, l ∈ Store.prompt_locs (Store.store s') p -> Store.store s !! l = None)
  /\ (forall h : gmap Store.loc Store.obj,
        (forall l, l ∉ Store.prompt_locs (Store.store s') p ->
                   h !! l = Store.store s' !! l) ->
        forall l v, Store.read_prompt (Store.store s) l = Some v ->
                    Store.read_prompt h l = Some v)
  /\ (forall p2 s2,
        Store.get_prompts s' lang prompt_id data = Some (p2, s2) ->
        Store.prompts s2 = Store.prompts s
        /\ Store.error_prompts s2 = Store.error_prompts s
        /\ forall l v, Store.read_prompt (Store.store s) l = Some v ->
                       Store.read_prompt (Store.store s2) l = Some v).
Proof.
  destruct (get_prompts_frame _ _ _ _ _ _ Hget) as (Hp & He & Hsub & Hnew).
  refine (conj Hp (conj He (conj _ (conj _ (conj Hnew (conj _ _)))))).
  - intros l o Hl. now apply (lookup_weaken (Store.store s)).
  - intros l v. now apply read_prompt_mono.
  - intros h Hh l v. apply read_prompt_mono.
    apply map_subseteq_spec. intros x o Hx. rewrite Hh.
    + now apply (lookup_weaken (Store.store s)).
    + intros Hin. apply Hnew in Hin. congruence.
  - intros p2 s2 H2.
    destruct (get_prompts_frame _ _ _ _ _ _ H2) as (Hp2 & He2 & Hsub2 & _).
    refine (conj _ (conj _ _)); [congruence | congruence |].
    intros l v Hl. apply (read_prompt_mono (Store.store s')); [exact Hsub2|].
    now apply (read_prompt_mono (Store.store s)).
Qed.

Lemma get_prompts_independent_copy_witness :
  match Store.get_prompts Store.example_server "en" "welcome"
          (Some {[ "name" := "Ann" ]}) with
  | Some (p, s') =>
      Store.read_prompt (Store.store s') p
      = Some (get_prompts {[ "en" := {[ "welcome" := example_welcome ]} ]}
                "en" "welcome" (Some {[ "name" := "Ann" ]}))
      /\ Store.read_prompt (Store.store s') 7%positive = Some example_welcome
      /\ Store.read_prompt (<[p := Store.OStrList []]> (Store.store s')) 7%positive
         = Some example_welcome
  | None => False
  end.
Proof.
  destruct (Store.get_prompts Store.example_server "en" "welcome"
              (Some {[ "name" := "Ann" ]})) as [[p s']|] eqn:Hget.
  - destruct (get_prompts_independent_copy _ _ _ _ _ _ Hget)
      as (_ & _ & _ & Hread & Hnew & Hmut & _).
    split; [|split].
    + vm_compute in Hget. injection Hget as <- <-. vm_compute. reflexivity.
    + apply Hread. vm_compute. reflexivity.
    + apply Hmut; [|vm_compute; reflexivity].
      intros l Hl. apply lookup_insert_ne. intros <-. apply Hl.
      vm_compute in Hget. injection Hget as <- <-. vm_compute. left.
  - vm_compute in Hget. discriminate Hget.
Defined.

(* ================================================================= *)
(** ** 20. The renderer on the store computes the renderer on values *)

Lemma copy_opt_strlist_read ol (h : gmap Store.loc Store.obj) v :
  Store.read_opt_strlist h ol = Some v ->
  exists ol' h',
    Store.copy_opt_strlist ol h = Some (ol', h')
    /\ Store.read_opt_strlist h' ol' = Some v.
Proof.
  unfold Store.read_opt_strlist, Store.read_strlist, Store.copy_opt_strlist,
    Store.copy_strlist, Store.alloc.
  destruct ol as [l|].
  - destruct (h !! l) as [[| xs | |]|]; try discriminate.
    intros H. injection H as <-. eexists _, _. split; [reflexivity|].
    cbn. now rewrite lookup_insert_eq.
  - intros H. injection H as <-. now exists None, h.
Qed.

Lemma copy_message_read l (h : gmap Store.loc Store.obj) m :
  Store.read_message h l = Some m ->
  exists l' h',
    Store.copy_message l h = Some (l', h') /\ Store.read_message h' l' = Some m.
Proof.
  unfold Store.read_message, Store.copy_message.
  destruct (h !! l) as [[r c imgs | | |]|]; try discriminate.
  destruct (Store.read_opt_strlist h imgs) as [i|] eqn:Hi; [|discriminate].
  intros H. injection H as <-.
  destruct (copy_opt_strlist_read _ _ _ Hi) as (imgs' & h1 & Hc & Hr).
  rewrite Hc.
  destruct (Store.alloc (Store.OMessage r c imgs') h1) as [l' h2] eqn:Ha.
  apply alloc_spec in Ha as (Hf & -> & Hsub).
  exists l', (<[l':=Store.OMessage r c imgs']> h1). split; [reflexivity|].
  rewrite lookup_insert_eq. now rewrite (read_opt_strlist_mono _ _ _ _ Hsub Hr).
Qed.

Lemma copy_messages_read ls :
  forall (h : gmap Store.loc Store.obj) ms,
    Store.read_messages h ls = Some ms ->
    exists ls' h',
      Store.copy_messages ls h = Some (ls', h')
      /\ Store.read_messages h' ls' = Some ms
      /\ NoDup ls'.
Proof.
  induction ls as [|l rest IH]; intros h ms; cbn [Store.read_messages Store.copy_messages].
  - intros H. injection H as <-. exists [], h. repeat split. constructor.
  - destruct (Store.read_message h l) as [m|] eqn:Hm; [|discriminate].
    destruct (Store.read_messages h rest) as [msr|] eqn:Hr; [|discriminate].
    intros H. injection H as <-.
    destruct (copy_message_read _ _ _ Hm) as (l' & h1 & Hc & Hrm).
    rewrite Hc.
    pose proof (copy_message_spec _ _ _ _ Hc) as [Hsub1 Hnew1].
    destruct (IH h1 msr (read_messages_mono _ _ _ Hsub1 _ Hr))
      as (rest' & h2 & Hcr & Hrr & Hnd).
    rewrite Hcr.
    pose proof (copy_messages_spec _ _ _ _ Hcr) as [Hsub2 Hnew2].
    exists (l' :: rest'), h2. split; [reflexivity|]. split.
    + cbn [Store.read_messages].
      now rewrite (read_message_mono _ _ _ _ Hsub2 Hrm), Hrr.
    + constructor; [|exact Hnd]. intros Hin.
      rewrite Forall_forall in Hnew2. destruct (Hnew2 _ Hin) as [Hnone _].
      destruct Hnew1 as (_ & r & c & i & Hl' & _). congruence.
Qed.

Lemma deepcopy_read l (h : gmap Store.loc Store.obj) v :
  Store.read_prompt h l = Some v ->
  exists p h' ms st t m pf jp items,
    Store.deepcopy l h = Some (p, h')
    /\ Store.read_prompt h' p = Some v
    /\ h' !! p = Some (Store.OPrompt ms st t m pf jp)
    /\ h' !! ms = Some (Store.OMsgList items)
    /\ NoDup items.
Proof.
  unfold Store.read_prompt, Store.deepcopy.
  destruct (h !! l) as [[| | | ms0 st0 t m pf jp]|]; try discriminate.
  destruct (h !! ms0) as [[| | items0 |]|]; try discriminate.
  destruct (Store.read_messages h items0) as [msgs|] eqn:Hm; [|discriminate].
  destruct (Store.read_opt_strlist h st0) as [stop|] eqn:Hs; [|discriminate].
  intros H. injection H as <-.
  destruct (copy_messages_read _ _ _ Hm) as (items & h1 & Hc & Hrm & Hnd).
  rewrite Hc. pose proof (copy_messages_spec _ _ _ _ Hc) as [Hsub1 _].
  destruct (Store.alloc (Store.OMsgList items) h1) as [ms h2] eqn:Ha1.
  apply alloc_spec in Ha1 as (Hf2 & -> & Hsub2).
  assert (Hs2 : Store.read_opt_strlist (<[ms:=Store.OMsgList items]> h1) st0 = Some stop).
  { apply (read_opt_strlist_mono h); [|exact Hs]. now transitivity h1. }
  destruct (copy_opt_strlist_read _ _ _ Hs2) as (st & h3 & Hcs & Hrs).
  rewrite Hcs. pose proof (copy_opt_strlist_spec _ _ _ _ Hcs) as [Hsub3 _].
  destruct (Store.alloc (Store.OPrompt ms st t m pf jp) h3) as [p h4] eqn:Ha2.
  apply alloc_spec in Ha2 as (Hf4 & -> & Hsub4).
  assert (Hms : <[p:=Store.OPrompt ms st t m pf jp]> h3 !! ms
                = Some (Store.OMsgList items)).
  { apply (lookup_weaken h3); [|exact Hsub4].
    apply (lookup_weaken (<[ms:=Store.OMsgList items]> h1)); [|exact Hsub3].
    apply lookup_insert_eq. }
  exists p, (<[p:=Store.OPrompt ms st t m pf jp]> h3), ms, st, t, m, pf, jp, items.
  refine (conj eq_refl (conj _ (conj _ (conj Hms Hnd)))); [|apply lookup_insert_eq].
  rewrite lookup_insert_eq, Hms.
  assert (Hsub14 : h1 ⊆ <[p:=Store.OPrompt ms st t m pf jp]> h3).
  { transitivity (<[ms:=Store.OMsgList items]> h1); [exact Hsub2|].
    now transitivity h3. }
  rewrite (read_messages_mono _ _ _ Hsub14 _ Hrm).
  now rewrite (read_opt_strlist_mono _ _ _ _ Hsub4 Hrs).
Qed.

(** Assigning to the content of a message changes what this message
    reads as, and nothing else. *)
Lemma read_opt_strlist_assign (h : gmap Store.loc Store.obj) l r c c' i ol :
  h !! l = Some (Store.OMessage r c i) ->
  Store.read_opt_strlist (<[l:=Store.OMessage r c' i]> h) ol
  = Store.read_opt_strlist h ol.
Proof.
  intros Hl. unfold Store.read_opt_strlist, Store.read_strlist.
  destruct ol as [x|]; [|reflexivity].
  destruct (decide (l = x)) as [<-|Hne].
  - now rewrite lookup_insert_eq, Hl.
  - now rewrite lookup_insert_ne.
Qed.

Lemma read_message_assign_other (h : gmap Store.loc Store.obj) l r c c' i x :
  h !! l = Some (Store.OMessage r c i) -> x <> l ->
  Store.read_message (<[l:=Store.OMessage r c' i]> h) x = Store.read_message h x.
Proof.
  intros Hl Hne. unfold Store.read_message.
  rewrite lookup_insert_ne by congruence.
  destruct (h !! x) as [[r0 c0 i0| | |]|]; try reflexivity.
  now rewrite (read_opt_strlist_assign _ _ _ _ _ _ _ Hl).
Qed.

Lemma read_message_assign_same (h : gmap Store.loc Store.obj) l r c i f :
  h !! l = Some (Store.OMessage r c i) ->
  Store.read_message (<[l:=Store.OMessage r (f c) i]> h) l
  = set_content f <$> Store.read_message h l.
Proof.
  intros Hl. unfold Store.read_message.
  rewrite lookup_insert_eq, Hl, (read_opt_strlist_assign _ _ _ _ _ _ _ Hl).
  now destruct (Store.read_opt_strlist h i).
Qed.

Lemma read_messages_assign_other (h : gmap Store.loc Store.obj) l r c c' i ls :
  h !! l = Some (Store.OMessage r c i) -> l ∉ ls ->
  Store.read_messages (<[l:=Store.OMessage r c' i]> h) ls = Store.read_messages h ls.
Proof.
  intros Hl. induction ls as [|x rest IH]; intros Hnin; [reflexivity|].
  cbn [Store.read_messages]. apply not_elem_of_cons in Hnin as [Hne Hrest].
  rewrite (read_message_assign_other _ _ _ _ _ _ _ Hl) by congruence.
  now rewrite IH.
Qed.

Lemma assign_contents_read_other f ls :
  forall (h h' : gmap Store.loc Store.obj) x,
    x ∉ ls -> Store.assign_contents f ls h = Some h' ->
    Store.read_message h' x = Store.read_message h x.
Proof.
  induction ls as [|l rest IH]; intros h h' x Hnin; cbn [Store.assign_contents].
  - intros H. now injection H as <-.
  - apply not_elem_of_cons in Hnin as [Hne Hrest].
    destruct (h !! l) as [[r c i| | |]|] eqn:Hl; try discriminate.
    intros H. rewrite (IH _ _ _ Hrest H).
    now apply (read_message_assign_other _ _ _ c).
Qed.

Lemma assign_contents_read f ls :
  forall (h : gmap Store.loc Store.obj) ms,
    NoDup ls -> Store.read_messages h ls = Some ms ->
    exists h',
      Store.assign_contents f ls h = Some h'
      /\ Store.read_messages h' ls = Some (map (set_content f) ms).
Proof.
  induction ls as [|l rest IH]; intros h ms Hnd;
    cbn [Store.assign_contents Store.read_messages].
  - intros H. injection H as <-. now exists h.
  - inversion Hnd as [|? ? Hnin Hnd']; subst.
    destruct (Store.read_message h l) as [m|] eqn:Hm; [|discriminate].
    destruct (Store.read_messages h rest) as [msr|] eqn:Hr; [|discriminate].
    intros H. injection H as <-.
    assert (Hl : exists r c i, h !! l = Some (Store.OMessage r c i)).
    { unfold Store.read_message in Hm.
      destruct (h !! l) as [[r c i| | |]|]; try discriminate. now exists r, c, i. }
    destruct Hl as (r & c & i & Hl). rewrite Hl.
    destruct (IH (<[l:=Store.OMessage r (f c) i]> h) msr Hnd') as (h' & Ha & Hread).
    { now rewrite (read_messages_assign_other _ _ _ c). }
    exists h'. split; [exact Ha|].
    rewrite (assign_contents_read_other _ _ _ _ _ Hnin Ha).
    rewrite (read_message_assign_same _ _ _ _ _ f Hl), Hm, Hread. reflexivity.
Qed.

Lemma read_opt_strlist_erase (h h' : gmap Store.loc Store.obj) ol :
  (forall l, erase <$> (h' !! l) = erase <$> (h !! l)) ->
  Store.read_opt_strlist h' ol = Store.read_opt_strlist h ol.
Proof.
  intros He. unfold Store.read_opt_strlist, Store.read_strlist.
  destruct ol as [l|]; [|reflexivity].
  pose proof (erase_lookup h h' l (He l)) as Hl.
  destruct (h !! l) as [[r c i| xs | items | ms st t m pf jp]|];
    [destruct Hl as [c' ->] | rewrite Hl ..]; reflexivity.
Qed.

Lemma select_prompt_abstracts (s : Store.server) catalog lang prompt_id :
  abstracts s catalog ->
  exists src,
    Store.select_prompt s lang prompt_id = Some src
    /\ Store.read_prompt (Store.store s) src
       = Some (select_prompt catalog lang prompt_id).
Proof.
  intros [Hcat Herr]. unfold Store.select_prompt, select_prompt.
  specialize (Hcat lang prompt_id). unfold reads in Hcat.
  destruct (default ∅ (Store.prompts s !! lang) !! prompt_id) as [l|],
    (default ∅ (catalog !! lang) !! prompt_id) as [v|]; try contradiction.
  - now exists l.
  - pose proof (Herr lang) as Hl. pose proof (Herr "en") as Hen.
    unfold reads in Hl, Hen.
    destruct (Store.error_prompts s !! lang) as [l|],
      (prompt_error_message !! lang) as [v|]; try contradiction.
    + now exists l.
    + cbn [default].
      replace (prompt_error_message !! "en") with (Some error_message_en) in Hen
        by reflexivity.
      destruct (Store.error_prompts s !! "en") as [l|]; [|contradiction].
      now exists l.
Qed.

(** On a server that denotes a catalog, [get_prompts] on the store
    returns a prompt, the prompt reads as the value [get_prompts] computes
    from the catalog, and the server still denotes the catalog. *)
Theorem store_get_prompts_refines (s : Store.server) catalog lang prompt_id data
    (Habs : abstracts s catalog) :
  exists p s',
    Store.get_prompts s lang prompt_id data = Some (p, s')
    /\ Store.read_prompt (Store.store s') p
       = Some (get_prompts catalog lang prompt_id data)
    /\ abstracts s' catalog.
Proof.
  destruct (select_prompt_abstracts s catalog lang prompt_id Habs) as (src & Hsel & Hsrc).
  destruct (deepcopy_read _ _ _ Hsrc)
    as (p & h1 & ms & st & t & m & pf & jp & items & Hcopy & Hread & Hp & Hms & Hnd).
  assert (Hget : exists h2,
    Store.assign_contents (render_content data) items h1 = Some h2
    /\ Store.read_prompt h2 p = Some (get_prompts catalog lang prompt_id data)).
  { unfold Store.read_prompt in Hread. rewrite Hp, Hms in Hread.
    destruct (Store.read_messages h1 items) as [msgs|] eqn:Hmsgs; [|discriminate].
    destruct (Store.read_opt_strlist h1 st) as [stop|] eqn:Hstop; [|discriminate].
    destruct (assign_contents_read (render_content data) _ _ _ Hnd Hmsgs)
      as (h2 & Ha & Hr2).
    exists h2. split; [exact Ha|].
    destruct (assign_contents_spec (render_content data) items ∅ h1 h2)
      as [_ Herase]; [| |exact Ha|].
    { apply Forall_forall. intros x _. apply lookup_empty. }
    { apply map_empty_subseteq. }
    pose proof (erase_lookup h1 h2 p (Herase p)) as Hp2. rewrite Hp in Hp2.
    pose proof (erase_lookup h1 h2 ms (Herase ms)) as Hms2. rewrite Hms in Hms2.
    unfold Store.read_prompt. rewrite Hp2, Hms2, Hr2.
    rewrite (read_opt_strlist_erase h1 h2 st Herase), Hstop.
    unfold get_prompts. injection Hread as <-. reflexivity. }
  destruct Hget as (h2 & Ha & Hr).
  assert (Hrun : Store.get_prompts s lang prompt_id data
                 = Some (p, {| Store.prompts := Store.prompts s;
                               Store.error_prompts := Store.error_prompts s;
                               Store.store := h2 |})).
  { unfold Store.get_prompts. now rewrite Hsel, Hcopy, Hp, Hms, Ha. }
  eexists _, _. split; [exact Hrun|]. split; [exact Hr|].
  destruct (get_prompts_frame _ _ _ _ _ _ Hrun) as (_ & _ & Hsub & _).
  cbn [Store.store] in Hsub.
  assert (Hreads : forall ol ov, reads (Store.store s) ol ov -> reads h2 ol ov).
  { intros [l|] [v|]; cbn; try tauto. now apply read_prompt_mono. }
  destruct Habs as [Hcat Herr]. split.
  - intros lang' pid'. apply Hreads, Hcat.
  - intros lang'. apply Hreads, Herr.
Qed.

Lemma example_server_abstracts :
  abstracts Store.example_server {[ "en" := {[ "welcome" := example_welcome ]} ]}.
Proof.
  split.
  - intros lang prompt_id. unfold reads. cbn [Store.prompts Store.example_server].
    destruct (decide (lang = "en")) as [->|Hl].
    + rewrite !lookup_singleton_eq. cbn [from_option id].
      destruct (decide (prompt_id = "welcome")) as [->|Hp].
      * rewrite !lookup_singleton_eq. vm_compute. reflexivity.
      * now rewrite !lookup_singleton_ne by congruence.
    + rewrite !lookup_singleton_ne by congruence. cbn [from_option id].
      now rewrite !lookup_empty.
  - intros lang. unfold reads. rewrite prompt_error_message_lookup.
    cbn [Store.error_prompts Store.example_server].
    destruct (decide (lang = "en")) as [->|Hen].
    + rewrite lookup_insert_eq. vm_compute. reflexivity.
    + rewrite lookup_insert_ne by congruence.
      destruct (decide (lang = "zh")) as [->|Hzh].
      * rewrite lookup_singleton_eq. vm_compute. reflexivity.
      * now rewrite lookup_singleton_ne by congruence.
Qed.

Lemma store_get_prompts_refines_witness :
  exists p s',
    Store.get_prompts Store.example_server "fr" "welcome" None = Some (p, s')
    /\ Store.read_prompt (Store.store s') p = Some error_message_en.
Proof.
  destruct (store_get_prompts_refines Store.example_server _ "fr" "welcome" None
              example_server_abstracts) as (p & s' & Hget & Hread & _).
  exists p, s'. split; [exact Hget|]. rewrite Hread. vm_compute. reflexivity.
Defined.

(* ================================================================= *)
(** ** 21. The receiver over a sequence of messages *)

Lemma ws_receiver_step_action m ci :
  ci_action (ws_receiver_step m ci)
  = match frame_action m with Some a => Some a | None => ci_action ci end.
Proof.
  destruct m as [|f]; [reflexivity|]. cbn. unfold on_present.
  destruct (f_lang f), (f_fileName f), (f_images f), (f_action f), (f_details f);
    cbn; try reflexivity;
    match goal with |- context [if ?b then _ else _] => destruct b end; reflexivity.
Qed.

Lemma ws_receiver_step_status m ci :
  ci_status (ws_receiver_step m ci)
  = match frame_action m with
    | Some _ => if busy (ci_status ci) then Interrupt else NewTask
    | None => ci_status ci
    end.
Proof.
  destruct m as [|f]; [reflexivity|]. cbn. unfold on_present, busy.
  destruct (f_lang f), (f_fileName f), (f_images f), (f_action f), (f_details f);
    cbn; try reflexivity;
    match goal with |- context [if ?b then _ else _] => destruct b end; reflexivity.
Qed.

Lemma ws_receiver_step_id m ci : ci_id (ws_receiver_step m ci) = ci_id ci.
Proof.
  destruct m as [|f]; [reflexivity|]. cbn. unfold on_present.
  destruct (f_lang f), (f_fileName f), (f_images f), (f_action f), (f_details f);
    cbn; try reflexivity;
    match goal with |- context [if ?b then _ else _] => destruct b end; reflexivity.
Qed.

Lemma ws_receiver_cons m ms ci :
  ws_receiver (m :: ms) ci = ws_receiver ms (ws_receiver_step m ci).
Proof. reflexivity. Qed.

(** The pending action is a single slot: after the receiver has handled a
    sequence of messages it holds the action of the last message that
    carried one, and what it held before when none did; earlier actions
    are gone.  The id of the client never changes. *)
Theorem ws_receiver_keeps_latest_action (ms : list Inbound) (ci : IClientData) :
  ci_action (ws_receiver ms ci)
  = match last (omap frame_action ms) with
    | Some a => Some a
    | None => ci_action ci
    end
  /\ ci_id (ws_receiver ms ci) = ci_id ci.
Proof.
  revert ci. induction ms as [|m ms IH]; intros ci; [split; reflexivity|].
  rewrite ws_receiver_cons. destruct (IH (ws_receiver_step m ci)) as [-> ->].
  rewrite ws_receiver_step_action, ws_receiver_step_id. split; [|reflexivity].
  cbn [omap list_omap]. destruct (frame_action m) as [a|]; [|reflexivity].
  rewrite last_cons. now destruct (last (omap frame_action ms)).
Qed.

Lemma ws_receiver_status_idle ms :
  forall ci, busy (ci_status ci) = false ->
    ci_status (ws_receiver ms ci)
    = match omap frame_action ms with [] => ci_status ci | _ => NewTask end.
Proof.
  induction ms as [|m ms IH]; intros ci Hidle; [reflexivity|].
  rewrite ws_receiver_cons, IH; rewrite ws_receiver_step_status;
    cbn [omap list_omap]; destruct (frame_action m) as [a|]; rewrite ?Hidle;
    try reflexivity; try exact Hidle.
  now destruct (omap frame_action ms).
Qed.

(** The status after a sequence of messages, by the number of actions it
    carried: none leaves the status alone; one makes it [Interrupt] when
    the client was [Working] or [Responding] and [NewTask] otherwise; two
    or more make it [NewTask] whatever it was, so a second action takes
    back the interrupt the first one asked for. *)
Theorem ws_receiver_status (ms : list Inbound) (ci : IClientData) :
  ci_status (ws_receiver ms ci)
  = match omap frame_action ms with
    | [] => ci_status ci
    | [_] => if busy (ci_status ci) then Interrupt else NewTask
    | _ :: _ :: _ => NewTask
    end.
Proof.
  revert ci. induction ms as [|m ms IH]; intros ci; [reflexivity|].
  rewrite ws_receiver_cons. cbn [omap list_omap].
  destruct (frame_action m) as [a|] eqn:Hm.
  - rewrite ws_receiver_status_idle.
    + rewrite ws_receiver_step_status, Hm.
      destruct (omap frame_action ms) as [|b [|c l]]; reflexivity.
    + rewrite ws_receiver_step_status, Hm. now destruct (busy (ci_status ci)).
  - rewrite IH, ws_receiver_step_status, Hm. reflexivity.
Qed.

(* ================================================================= *)
(** ** 22. What a delivery touches *)

Lemma same_session_refl w : same_session w w.
Proof. repeat split. Qed.

Lemma same_session_trans w1 w2 w3 :
  same_session w1 w2 -> same_session w2 w3 -> same_session w1 w3.
Proof.
  intros (H1 & H2 & H3) (H4 & H5 & H6). repeat split; congruence.
Qed.

Lemma same_session_suspended E w : same_session w (suspended E w).
Proof.
  destruct (suspended_frame E w) as (_ & H1 & H2 & _ & H3). now repeat split.
Qed.

Lemma same_session_push_sent f w : same_session w (push_sent f w).
Proof. repeat split. Qed.

Lemma same_session_status st w : same_session w (with_client (set_status st) w).
Proof. repeat split. Qed.

Lemma ensure_ws_send_message_session E f w r w' :
  ensure_ws_send_message E f w = (r, w') -> same_session w w'.
Proof.
  rewrite ensure_ws_send_message_eq. destruct (w_closed w).
  - intros H; inversion H; subst. apply same_session_refl.
  - destruct (send_outcome E (w_tick w)); intros H; inversion H; subst.
    + apply same_session_trans with (suspended E w);
        [apply same_session_suspended | apply same_session_push_sent].
    + apply same_session_suspended.
    + apply same_session_suspended.
Qed.

Lemma send_text_session E action text prev w r w' :
  send_text E action text prev w = (r, w') ->
  same_session w w'
  /\ exists new, w_sent w' = w_sent w ++ new /\ Forall (loop_frame action) new.
Proof.
  assert (Hnone : forall w0 : World,
             exists new, w_sent w0 = w_sent w0 ++ new /\ Forall (loop_frame action) new).
  { intros w0. exists []. rewrite app_nil_r. split; [reflexivity | constructor]. }
  assert (Hsusp : exists new, w_sent (suspended E w) = w_sent w ++ new
                              /\ Forall (loop_frame action) new).
  { exists []. rewrite app_nil_r. split; [apply suspended_frame | constructor]. }
  rewrite send_text_eq. destruct text as [t|].
  - destruct (truthy t).
    + destruct (send_outcome E (w_tick w)); intros H; inversion H; subst.
      * split.
        -- apply same_session_trans with (suspended E w);
             [apply same_session_suspended | apply same_session_push_sent].
        -- exists [Response (prev +:+ t) action]. cbn [w_sent push_sent].
           rewrite (proj1 (suspended_frame E w)). split; [reflexivity|].
           constructor; [right; now exists (prev +:+ t) | constructor].
      * split; [apply same_session_suspended | exact Hsusp].
      * split; [apply same_session_suspended | exact Hsusp].
    + intros H; inversion H; subst. split; [apply same_session_refl | apply Hnone].
  - intros H; inversion H; subst. split; [apply same_session_refl | apply Hnone].
Qed.

Lemma on_chunk_session E action c prev w r w' :
  on_chunk E action c prev w = (r, w') ->
  same_session w w'
  /\ exists new, w_sent w' = w_sent w ++ new /\ Forall (loop_frame action) new.
Proof.
  rewrite on_chunk_eq. destruct (has_message c).
  - destruct (status_eqb (ci_status (w_client w)) Working).
    + destruct (ensure_ws_send_message E (ResponseStart action)
                  (with_client (set_status Responding) w)) as [r1 w1] eqn:Hsend.
      pose proof (ensure_ws_send_message_session _ _ _ _ _ Hsend) as Hs1.
      apply ensure_ws_send_message_sent in Hsend.
      cbn [w_sent with_client] in Hsend.
      assert (Hs : same_session w w1).
      { apply same_session_trans with (with_client (set_status Responding) w);
          [apply same_session_status | exact Hs1]. }
      destruct Hsend as [[-> Hsent]|[Hne Hsent]].
      * intros H. apply send_text_session in H as (Hs2 & new & Hn & Hf).
        split; [now apply same_session_trans with w1|].
        exists (ResponseStart action :: new). split.
        -- rewrite Hn, Hsent, <- app_assoc. reflexivity.
        -- constructor; [now left | exact Hf].
      * intros H. assert (w' = w1) as ->.
        { destruct r1 as [[|]|e]; inversion H; subst; try reflexivity.
          now contradiction Hne. }
        split; [exact Hs|]. exists []. rewrite app_nil_r. split; [exact Hsent | constructor].
    + apply send_text_session.
  - intros H; inversion H; subst. split; [apply same_session_refl|].
    exists []. rewrite app_nil_r. split; [reflexivity | constructor].
Qed.

(** However the loop of [stream_prompts] ends: it makes no request and
    leaves the registry and the id alone; it sends [responseStart] and
    [response] frames with its tag and nothing else; and it goes on to the
    end only of a stream that ended without an exception. *)
Lemma stream_loop_session E action ending chunks :
  forall prev w r w',
    stream_loop E action chunks ending prev w = (r, w') ->
    same_session w w'
    /\ (exists new, w_sent w' = w_sent w ++ new /\ Forall (loop_frame action) new)
    /\ (forall p, r = Ok (Continue p) -> ending = None).
Proof.
  induction chunks as [|c rest IH]; intros prev w r w'.
  - rewrite stream_loop_nil. intros H.
    assert (w' = suspended E w) as -> by (destruct ending; now inversion H).
    split; [apply same_session_suspended|]. split.
    + exists []. rewrite app_nil_r. split; [apply suspended_frame | constructor].
    + intros p ->. destruct ending; [discriminate H | reflexivity].
  - rewrite stream_loop_cons.
    destruct (must_abort (suspended E w)).
    { intros H; inversion H; subst. split; [apply same_session_suspended|]. split.
      - exists []. rewrite app_nil_r. split; [apply suspended_frame | constructor].
      - discriminate. }
    destruct (on_chunk E action c prev (suspended E w)) as [r2 w2] eqn:Hon.
    apply on_chunk_session in Hon as (Hs2 & new2 & Hn2 & Hf2).
    rewrite (proj1 (suspended_frame E w)) in Hn2.
    assert (Hs : same_session w w2).
    { apply same_session_trans with (suspended E w);
        [apply same_session_suspended | exact Hs2]. }
    destruct r2 as [[|p]|e].
    + intros H; inversion H; subst. split; [exact Hs|]. split; [now exists new2|].
      discriminate.
    + intros H. apply IH in H as (Hs3 & (new3 & Hn3 & Hf3) & Hend).
      split; [now apply same_session_trans with w2|]. split; [|exact Hend].
      exists (new2 ++ new3). split.
      * rewrite Hn3, Hn2, <- app_assoc. reflexivity.
      * apply Forall_app. now split.
    + intros H; inversion H; subst. split; [exact Hs|]. split; [now exists new2|].
      discriminate.
Qed.

Lemma stream_finish_session E flag_idle action prev w r w' :
  stream_finish E flag_idle action prev w = (r, w') ->
  same_session w w'
  /\ exists new, w_sent w' = w_sent w ++ new /\ Forall (tagged action) new.
Proof.
  rewrite stream_finish_eq.
  destruct (if truthy prev then _ else _) as [r1 w1] eqn:H1.
  assert (Hs1 : same_session w w1
                /\ exists new1, w_sent w1 = w_sent w ++ new1 /\ Forall (tagged action) new1).
  { destruct (truthy prev).
    - split; [now apply ensure_ws_send_message_session in H1|].
      apply ensure_ws_send_message_sent in H1 as [[_ Hs]|[_ Hs]].
      + eexists. split; [exact Hs|]. constructor; [reflexivity | constructor].
      + exists []. rewrite app_nil_r. split; [exact Hs | constructor].
    - inversion H1; subst. split; [apply same_session_refl|].
      exists []. rewrite app_nil_r. split; [reflexivity | constructor]. }
  destruct Hs1 as (Hs1 & new1 & Hn1 & Hf1).
  destruct r1 as [[|]|e]; try (intros H; inversion H; subst; split; [exact Hs1 | now exists new1]).
  destruct (ensure_ws_send_message E (ResponseEnd action) w1) as [r2 w2] eqn:H2.
  pose proof (ensure_ws_send_message_session _ _ _ _ _ H2) as Hs2.
  assert (Hsent2 : exists new2, w_sent w2 = w_sent w ++ new2 /\ Forall (tagged action) new2).
  { apply ensure_ws_send_message_sent in H2 as [[_ Hs]|[_ Hs]].
    - exists (new1 ++ [ResponseEnd action]). split.
      + now rewrite Hs, Hn1, <- app_assoc.
      + apply Forall_app. split; [exact Hf1 | constructor; [reflexivity | constructor]].
    - exists new1. now rewrite Hs. }
  assert (Hs : same_session w w2) by now apply same_session_trans with w1.
  destruct r2 as [[|]|e]; intros H; inversion H; subst;
    try (split; [exact Hs | exact Hsent2]).
  destruct (flag_idle && _); split; first [exact Hs | exact Hsent2].
Qed.

Lemma loop_frame_tagged action f : loop_frame action f -> tagged action f.
Proof. intros [->|[t ->]]; reflexivity. Qed.

(** Every call of [stream_prompts], however it ends, makes exactly one
    request to the backend and makes it under the status [Working]; it
    leaves the registry of clients and the id of the client alone; and
    every frame it sends is a [responseStart], [response] or [responseEnd]
    frame that carries the tag it was called with. *)
Theorem stream_prompts_one_request E prompts flag_idle action w r w'
    (Hrun : stream_prompts E prompts flag_idle action w = (r, w')) :
  w_requests w' = w_requests w ++ [(Working, prompts)]
  /\ w_clients w' = w_clients w
  /\ ci_id (w_client w') = ci_id (w_client w)
  /\ exists new, w_sent w' = w_sent w ++ new /\ Forall (tagged action) new.
Proof.
  rewrite stream_prompts_eq in Hrun.
  destruct (stream_loop E action _ _ "" (stream_start prompts w)) as [r1 w1] eqn:Hloop.
  apply stream_loop_session in Hloop as ((Hq & Hc & Hi) & (new & Hn & Hf) & _).
  cbn [stream_start w_requests w_sent w_clients w_client push_request with_client
       set_status ci_status ci_id] in Hq, Hc, Hi, Hn.
  assert (Hf' : Forall (tagged action) new).
  { eapply Forall_impl; [exact Hf|]. apply loop_frame_tagged. }
  destruct r1 as [[|p]|e].
  - inversion Hrun; subst. repeat split; try assumption. now exists new.
  - apply stream_finish_session in Hrun as ((Hq2 & Hc2 & Hi2) & new2 & Hn2 & Hf2).
    repeat split; try congruence. exists (new ++ new2). split.
    + now rewrite Hn2, Hn, <- app_assoc.
    + apply Forall_app. now split.
  - inversion Hrun; subst. repeat split; try assumption. now exists new.
Qed.

Lemma stream_prompts_one_request_witness :
  w_requests (stream_prompts env_interrupt error_message_en true (Some "Welcome")
                open_world).2
  = [(Working, error_message_en)]
  /\ Forall (tagged (Some "Welcome"))
       (w_sent (stream_prompts env_interrupt error_message_en true (Some "Welcome")
                  open_world).2).
Proof.
  destruct (stream_prompts_one_request env_interrupt error_message_en true
              (Some "Welcome") open_world
              (stream_prompts env_interrupt error_message_en true (Some "Welcome")
                 open_world).1
              (stream_prompts env_interrupt error_message_en true (Some "Welcome")
                 open_world).2)
    as (Hreq & _ & _ & new & Hsent & Htag).
  - vm_compute. reflexivity.
  - split; [exact Hreq|]. rewrite Hsent. exact Htag.
Defined.

(** [ensure_ws_send_message] makes at most one attempt.  On a closed
    client it returns [False] at once, without a suspension.  Otherwise it
    awaits one [send]: it returns [True] when the send succeeds, [False]
    on [ConnectionClosedError], and lets any other [WebSocketException]
    through to its caller; the frame is sent in the first case only. *)
Theorem ensure_ws_send_message_one_attempt E f w r w'
    (Hrun : ensure_ws_send_message E f w = (r, w')) :
  (w_closed w = true -> r = Ok false /\ w' = w)
  /\ (w_closed w = false ->
      w_tick w' = S (w_tick w)
      /\ (send_outcome E (w_tick w) = SendOk ->
          r = Ok true /\ w_sent w' = w_sent w ++ [f])
      /\ (send_outcome E (w_tick w) = SendConnectionClosedError ->
          r = Ok false /\ w_sent w' = w_sent w)
      /\ (send_outcome E (w_tick w) = SendWebSocketException ->
          r = Raise WebSocketException /\ w_sent w' = w_sent w)).
Proof.
  rewrite ensure_ws_send_message_eq in Hrun.
  destruct (suspended_frame E w) as (Hsent & _ & _ & Htick & _).
  split; intros Hc; rewrite Hc in Hrun.
  - now inversion Hrun.
  - destruct (send_outcome E (w_tick w)); inversion Hrun; subst;
      cbn [w_tick w_sent push_sent]; rewrite Htick, Hsent;
      repeat split; intros; try discriminate; reflexivity.
Qed.

Lemma ensure_ws_send_message_one_attempt_witness :
  ensure_ws_send_message env_two_failures (ResponseEnd None)
    (next_tick (next_tick open_world))
  = (Raise WebSocketException,
     suspended env_two_failures (next_tick (next_tick open_world))).
Proof.
  destruct (ensure_ws_send_message_one_attempt env_two_failures (ResponseEnd None)
              (next_tick (next_tick open_world))
              (ensure_ws_send_message env_two_failures (ResponseEnd None)
                 (next_tick (next_tick open_world))).1
              (ensure_ws_send_message env_two_failures (ResponseEnd None)
                 (next_tick (next_tick open_world))).2)
    as [_ H].
  - vm_compute. reflexivity.
  - destruct (H eq_refl) as (_ & _ & _ & Hexc). destruct (Hexc eq_refl) as [Hr _].
    vm_compute. reflexivity.
Defined.

(* ================================================================= *)
(** ** 23. Deliveries that do not complete *)

(** A stream that ends with an exception is never reported as delivered:
    [stream_prompts] does not return [True], and it sends no
    [responseEnd].  When the stream fails before its first object (the
    backend refuses the request), the exception leaves [stream_prompts]
    and nothing at all is sent. *)
Theorem stream_prompts_failed_stream E prompts flag_idle action w r w' e
    (Hfails : (llm_stream E (w_tick w) prompts).2 = Some e)
    (Hrun : stream_prompts E prompts flag_idle action w = (r, w')) :
  r <> Ok true
  /\ (exists new, w_sent w' = w_sent w ++ new /\ Forall (loop_frame action) new)
  /\ ((llm_stream E (w_tick w) prompts).1 = [] -> r = Raise e /\ w_sent w' = w_sent w).
Proof.
  rewrite stream_prompts_eq, Hfails in Hrun.
  destruct (stream_loop E action _ (Some e) "" (stream_start prompts w))
    as [r1 w1] eqn:Hloop.
  pose proof (stream_loop_session _ _ _ _ _ _ _ _ Hloop) as (_ & Hsent & Hend).
  cbn [stream_start w_sent push_request with_client] in Hsent.
  assert (Hr : r = match r1 with Ok _ => Ok false | Raise x => Raise x end /\ w' = w1).
  { destruct r1 as [[|p]|x]; try (now inversion Hrun).
    specialize (Hend p eq_refl). discriminate Hend. }
  destruct Hr as [-> ->].
  refine (conj _ (conj Hsent _)).
  - destruct r1; discriminate.
  - intros Hnil. rewrite Hnil, stream_loop_nil in Hloop. inversion Hloop; subst.
    split; [reflexivity|]. now rewrite (proj1 (suspended_frame E _)).
Qed.

Lemma stream_prompts_failed_stream_witness :
  (stream_prompts env_refused error_message_en true None open_world).1
  = Raise ConnectionError
  /\ w_sent (stream_prompts env_refused error_message_en true None open_world).2 = [].
Proof.
  destruct (stream_prompts_failed_stream env_refused error_message_en true None
              open_world
              (stream_prompts env_refused error_message_en true None open_world).1
              (stream_prompts env_refused error_message_en true None open_world).2
              ConnectionError eq_refl)
    as (_ & _ & H).
  - vm_compute. reflexivity.
  - exact (H eq_refl).
Defined.

Lemma ensure_ws_send_message_closed E f w r w' :
  channel_closed E ->
  ensure_ws_send_message E f w = (r, w') -> r = Ok false /\ w_sent w' = w_sent w.
Proof.
  intros Hc. rewrite ensure_ws_send_message_eq, Hc.
  destruct (w_closed w); intros H; inversion H; subst; split; try reflexivity.
  apply suspended_frame.
Qed.

Lemma stream_loop_closed E action ending chunks :
  channel_closed E ->
  forall prev w r w',
    stream_loop E action chunks ending prev w = (r, w') ->
    w_sent w' = w_sent w /\ (forall p, r = Ok (Continue p) -> p = prev).
Proof.
  intros Hc. induction chunks as [|c rest IH]; intros prev w r w'.
  - rewrite stream_loop_nil. intros H.
    destruct ending; inversion H; subst; (split; [apply suspended_frame|]);
      intros p Hp; now inversion Hp.
  - rewrite stream_loop_cons. destruct (must_abort (suspended E w)).
    { intros H; inversion H; subst. split; [apply suspended_frame | discriminate]. }
    assert (Hon : forall r2 w2, on_chunk E action c prev (suspended E w) = (r2, w2) ->
              w_sent w2 = w_sent w /\ (forall p, r2 = Ok (Continue p) -> p = prev)).
    { intros r2 w2. rewrite on_chunk_eq.
      assert (Ht : forall w0 r0 w0',
                send_text E action (chunk_text c) prev w0 = (r0, w0') ->
                w_sent w0' = w_sent w0 /\ (forall p, r0 = Ok (Continue p) -> p = prev)).
      { intros w0 r0 w0'. rewrite send_text_eq, Hc.
        destruct (chunk_text c) as [t|]; [destruct (truthy t)|];
          intros H; inversion H; subst; (split; [try apply suspended_frame; reflexivity|]);
          intros p Hp; now inversion Hp. }
      destruct (has_message c).
      - destruct (status_eqb _ Working).
        + destruct (ensure_ws_send_message E (ResponseStart action) _)
            as [r1 w1] eqn:Hsend.
          apply (ensure_ws_send_message_closed _ _ _ _ _ Hc) in Hsend as [-> Hs].
          cbn [w_sent with_client] in Hs. rewrite (proj1 (suspended_frame E w)) in Hs.
          intros H; inversion H; subst. split; [exact Hs | discriminate].
        + intros H. apply Ht in H as [Hs Hp].
          rewrite (proj1 (suspended_frame E w)) in Hs. now split.
      - intros H; inversion H; subst. split; [apply suspended_frame|].
        intros p Hp. now inversion Hp. }
    destruct (on_chunk E action c prev (suspended E w)) as [r2 w2] eqn:Hr2.
    destruct (Hon _ _ eq_refl) as [Hs2 Hp2].
    destruct r2 as [[|p]|e].
    + intros H; inversion H; subst. split; [exact Hs2 | discriminate].
    + rewrite (Hp2 p eq_refl). intros H. apply IH in H as [Hs Hp].
      split; [congruence | exact Hp].
    + intros H; inversion H; subst. split; [exact Hs2 | discriminate].
Qed.

(** When the transport reports the connection closed at every send,
    [stream_prompts] sends nothing and does not return [True]. *)
Theorem stream_prompts_on_closed_channel E prompts flag_idle action w r w'
    (Hclosed : channel_closed E)
    (Hrun : stream_prompts E prompts flag_idle action w = (r, w')) :
  w_sent w' = w_sent w /\ r <> Ok true.
Proof.
  rewrite stream_prompts_eq in Hrun.
  destruct (stream_loop E action _ _ "" (stream_start prompts w)) as [r1 w1] eqn:Hloop.
  apply (stream_loop_closed _ _ _ _ Hclosed) in Hloop as [Hs Hp].
  cbn [stream_start w_sent push_request with_client] in Hs.
  destruct r1 as [[|p]|e].
  - inversion Hrun; subst. split; [exact Hs | discriminate].
  - rewrite (Hp p eq_refl), stream_finish_eq in Hrun. cbn [truthy] in Hrun.
    destruct (ensure_ws_send_message E (ResponseEnd action) w1) as [r2 w2] eqn:H2.
    apply (ensure_ws_send_message_closed _ _ _ _ _ Hclosed) in H2 as [-> Hs2].
    inversion Hrun; subst. split; [congruence | discriminate].
  - inversion Hrun; subst. split; [exact Hs | discriminate].
Qed.

Lemma stream_prompts_on_closed_channel_witness :
  stream_prompts env_channel_closed error_message_en true None open_world
  = (Ok false,
     suspended env_channel_closed
       (with_client (set_status Responding)
          (suspended env_channel_closed (stream_start error_message_en open_world)))).
Proof.
  destruct (stream_prompts_on_closed_channel env_channel_closed error_message_en
              true None open_world
              (stream_prompts env_channel_closed error_message_en true None open_world).1
              (stream_prompts env_channel_closed error_message_en true None open_world).2)
    as [Hs Hr].
  - intros n. reflexivity.
  - vm_compute. reflexivity.
  - vm_compute. reflexivity.
Defined.

(* ================================================================= *)
(** ** 24. The status after a delivery *)

Lemma ensure_ws_send_message_quiet_status E f w r w' :
  ensure_ws_send_message E f w = (r, w') ->
  quiet_during E (w_tick w) (w_tick w') ->
  ci_status (w_client w') = ci_status (w_client w).
Proof.
  rewrite ensure_ws_send_message_eq.
  pose proof (proj1 (proj2 (proj2 (proj2 (suspended_frame E w))))) as Ht.
  destruct (w_closed w); [intros H; now inversion H|].
  destruct (send_outcome E (w_tick w)); intros H Hq; inversion H; subst;
    cbn [push_sent w_client w_tick] in *; apply quiet_at_suspended_status, Hq; lia.
Qed.

Lemma send_text_quiet_status E action text prev w r w' :
  send_text E action text prev w = (r, w') ->
  quiet_during E (w_tick w) (w_tick w') ->
  ci_status (w_client w') = ci_status (w_client w).
Proof.
  rewrite send_text_eq.
  pose proof (proj1 (proj2 (proj2 (proj2 (suspended_frame E w))))) as Ht.
  destruct text as [t|]; [destruct (truthy t)|]; try (intros H; now inversion H).
  destruct (send_outcome E (w_tick w)); intros H Hq; inversion H; subst;
    cbn [push_sent w_client w_tick] in *; apply quiet_at_suspended_status, Hq; lia.
Qed.

Lemma on_chunk_quiet_status E action c prev w r w' :
  on_chunk E action c prev w = (r, w') ->
  quiet_during E (w_tick w) (w_tick w') ->
  busy (ci_status (w_client w)) = true ->
  ci_status (w_client w')
  = if has_message c then Responding else ci_status (w_client w).
Proof.
  rewrite on_chunk_eq. intros Hrun Hq Hbusy.
  destruct (has_message c); [|now inversion Hrun].
  destruct (status_eqb (ci_status (w_client w)) Working) eqn:Hst.
  - destruct (ensure_ws_send_message E (ResponseStart action) _) as [r1 w1] eqn:Hsend.
    pose proof (ensure_ws_send_message_tick _ _ _ _ _ Hsend) as Ht1.
    cbn [with_client w_tick] in Ht1.
    assert (Hw1 : w_tick w1 <= w_tick w' ->
                  ci_status (w_client w1) = Responding).
    { intros Hle.
      apply ensure_ws_send_message_quiet_status in Hsend; [exact Hsend|].
      apply (quiet_during_weaken E _ _ _ _ Hq); cbn [with_client w_tick]; lia. }
    destruct r1 as [[|]|e].
    + pose proof (send_text_tick _ _ _ _ _ _ _ Hrun) as Ht2.
      apply send_text_quiet_status in Hrun.
      * rewrite Hrun. apply Hw1. lia.
      * apply (quiet_during_weaken E _ _ _ _ Hq); lia.
    + inversion Hrun; subst. now apply Hw1.
    + inversion Hrun; subst. now apply Hw1.
  - apply send_text_quiet_status in Hrun; [|exact Hq]. rewrite Hrun.
    destruct (ci_status (w_client w)); try discriminate; reflexivity.
Qed.

Lemma stream_loop_quiet_status E action ending chunks :
  forall prev w p w',
    stream_loop E action chunks ending prev w = (Ok (Continue p), w') ->
    quiet_during E (w_tick w) (w_tick w') ->
    busy (ci_status (w_client w)) = true ->
    ci_status (w_client w')
    = if existsb has_message chunks then Responding else ci_status (w_client w).
Proof.
  induction chunks as [|c rest IH]; intros prev w p w'.
  - rewrite stream_loop_nil. destruct ending; intros H Hq _; inversion H; subst.
    apply quiet_at_suspended_status, Hq.
    rewrite (proj1 (proj2 (proj2 (proj2 (suspended_frame E w))))). lia.
  - rewrite stream_loop_cons. destruct (must_abort (suspended E w)); [discriminate|].
    pose proof (proj1 (proj2 (proj2 (proj2 (suspended_frame E w))))) as Ht.
    destruct (on_chunk E action c prev (suspended E w)) as [r2 w2] eqn:Hon.
    pose proof (on_chunk_tick _ _ _ _ _ _ _ Hon) as Ht2.
    destruct r2 as [[|p2]|e]; try discriminate.
    intros H Hq Hbusy. pose proof (stream_loop_tick _ _ _ _ _ _ _ _ H) as Ht3.
    assert (Hfetch : ci_status (w_client (suspended E w)) = ci_status (w_client w)).
    { apply quiet_at_suspended_status, Hq. lia. }
    apply on_chunk_quiet_status in Hon.
    + rewrite Hfetch in Hon. apply IH in H.
      * rewrite H, Hon. cbn [existsb].
        destruct (has_message c); cbn [orb]; [|reflexivity].
        now destruct (existsb has_message rest).
      * apply (quiet_during_weaken E _ _ _ _ Hq); lia.
      * rewrite Hon. destruct (has_message c); [reflexivity | exact Hbusy].
    + apply (quiet_during_weaken E _ _ _ _ Hq); lia.
    + now rewrite Hfetch.
Qed.

(** When no action arrives during a delivery that completes (at the
    suspensions from the one the call starts at to the one it ends at),
    [stream_prompts] leaves the client [Idle] if it was asked to
    ([flag_idle]); otherwise the client is left [Responding] when the
    stream held an object with a message, and [Working] when it held
    none. *)
Theorem stream_prompts_final_status E prompts flag_idle action w w'
    (Hrun : stream_prompts E prompts flag_idle action w = (Ok true, w'))
    (Hquiet : quiet_during E (w_tick w) (w_tick w')) :
  ci_status (w_client w')
  = if flag_idle then Idle
    else if existsb has_message (llm_stream E (w_tick w) prompts).1
         then Responding else Working.
Proof.
  rewrite stream_prompts_eq in Hrun.
  destruct (stream_loop E action _ _ "" (stream_start prompts w)) as [r1 w1] eqn:Hloop.
  destruct r1 as [[|p]|e]; try discriminate.
  pose proof (stream_loop_tick _ _ _ _ _ _ _ _ Hloop) as Ht1.
  pose proof (stream_finish_tick _ _ _ _ _ _ _ Hrun) as Ht2.
  change (w_tick (stream_start prompts w)) with (w_tick w) in Ht1.
  apply stream_loop_quiet_status in Hloop;
    [| apply (quiet_during_weaken E _ _ _ _ Hquiet); cbn; lia | reflexivity].
  cbn [stream_start push_request with_client w_client set_status ci_status] in Hloop.
  rewrite stream_finish_eq in Hrun.
  destruct (if truthy p
            then ensure_ws_send_message E (Response p action) w1
            else (Ok true, w1)) as [r2 w2] eqn:Hresend.
  destruct r2 as [[|]|e]; try discriminate.
  destruct (ensure_ws_send_message E (ResponseEnd action) w2) as [r3 w3] eqn:Hend.
  destruct r3 as [[|]|e]; try discriminate.
  pose proof (ensure_ws_send_message_tick _ _ _ _ _ Hend) as Ht3.
  assert (Hw' : w_tick w' = w_tick w3).
  { inversion Hrun. now destruct (flag_idle && _). }
  assert (H12 : w_tick w1 <= w_tick w2
                /\ (w_tick w2 <= w_tick w' ->
                    ci_status (w_client w2) = ci_status (w_client w1))).
  { destruct (truthy p).
    - pose proof (ensure_ws_send_message_tick _ _ _ _ _ Hresend) as Ht.
      split; [lia|]. intros Hle.
      apply ensure_ws_send_message_quiet_status in Hresend; [exact Hresend|].
      apply (quiet_during_weaken E _ _ _ _ Hquiet); lia.
    - inversion Hresend; subst. split; [lia | reflexivity]. }
  destruct H12 as [Ht12 Hst2].
  apply ensure_ws_send_message_quiet_status in Hend;
    [| apply (quiet_during_weaken E _ _ _ _ Hquiet); lia].
  assert (Hst : ci_status (w_client w3)
                = if existsb has_message (llm_stream E (w_tick w) prompts).1
                  then Responding else Working).
  { rewrite Hend, Hst2 by lia. exact Hloop. }
  inversion Hrun; subst. destruct flag_idle; cbn [andb].
  - rewrite Hst. now destruct (existsb has_message _).
  - exact Hst.
Qed.

(** The call that answers the action ['Welcome'] of a session: the action
    arrived before the call, nothing arrives during it. *)
Lemma stream_prompts_final_status_witness :
  inbound env_welcome 0 = [action_frame "Welcome"]
  /\ ci_status (w_client
       (stream_prompts env_welcome error_message_en false (Some "Welcome")
          (with_client (set_action None) (suspended env_welcome open_world))).2)
     = Responding.
Proof.
  split; [reflexivity|].
  apply (stream_prompts_final_status env_welcome error_message_en false
           (Some "Welcome")
           (with_client (set_action None) (suspended env_welcome open_world))).
  - vm_compute. reflexivity.
  - intros n [Hn _].
    change (w_tick (with_client (set_action None) (suspended env_welcome open_world)))
      with 1 in Hn.
    destruct n as [|n]; [lia | constructor].
Defined.

(* ================================================================= *)
(** ** 25. Templates of plain text and tokens *)

(** Plain text is copied, and the scan goes on after it with a character
    before the position that is no opening brace. *)
Lemma template_sub_plain repl s rest out :
  brace_free s = true ->
  (forall prev, is_char "{" prev = false -> template_sub repl 0 prev rest = out) ->
  forall prev, is_char "{" prev = false ->
    template_sub repl 0 prev (s +:+ rest) = s +:+ out.
Proof.
  intros Hs Hrest. induction s as [|c s IH]; intros prev Hprev.
  - now apply Hrest.
  - cbn [brace_free] in Hs. apply andb_prop in Hs as [Hc Hs].
    apply andb_prop in Hc as [Hopen Hclose]. apply negb_true_iff in Hopen, Hclose.
    rewrite !append_cons. cbn [template_sub].
    rewrite match_template_not_brace by exact Hopen.
    f_equal. apply (IH Hs). cbn [is_char]. exact Hopen.
Qed.

(** The text of well-formed parts never starts with a closing brace. *)
Lemma parts_head parts :
  forallb part_ok parts = true ->
  match String.concat "" (map part_text parts) with
  | String "}" _ => False
  | _ => True
  end.
Proof.
  induction parts as [|p parts IH]; intros H; [exact I|].
  cbn [forallb] in H. apply andb_prop in H as [Hp Hps].
  cbn [map]. rewrite concat_cons. destruct p as [s|k]; cbn [part_text part_ok] in *.
  - destruct s as [|c s]; [exact (IH Hps)|].
    cbn [brace_free] in Hp. apply andb_prop in Hp as [Hc _].
    apply andb_prop in Hc as [_ Hclose]. apply negb_true_iff in Hclose.
    rewrite append_cons.
    destruct c as [[] [] [] [] [] [] [] []]; try exact I. discriminate Hclose.
  - exact I.
Qed.

Lemma template_sub_parts data parts :
  forallb part_ok parts = true ->
  forall prev, is_char "{" prev = false ->
    template_sub (replace_content data) 0 prev (String.concat "" (map part_text parts))
    = String.concat "" (map (part_value data) parts).
Proof.
  induction parts as [|p parts IH]; intros H prev Hprev; [reflexivity|].
  pose proof (parts_head _ H) as Hhead0.
  cbn [forallb] in H. apply andb_prop in H as [Hp Hps].
  pose proof (parts_head _ Hps) as Hhead.
  cbn [map]. rewrite !concat_cons.
  destruct p as [s|k]; cbn [part_text part_value part_ok] in *.
  - apply template_sub_plain; [exact Hp | | exact Hprev]. intros q Hq. now apply IH.
  - destruct (is_key_inv k Hp) as (c & k' & -> & Hw).
    set (rest := String.concat "" (map part_text parts)) in *.
    replace (("{" +:+ String c k' +:+ "}") +:+ rest)
      with (String "{" (String c k' +:+ String "}" rest)).
    2:{ rewrite !append_assoc. reflexivity. }
    cbn [template_sub]. unfold match_template at 1. rewrite Hprev.
    rewrite (span_word_key _ rest Hw).
    assert (Hm : match rest with
                 | String "}" _ => None
                 | _ => Some (String c k', rest)
                 end = Some (String c k', rest)).
    { destruct rest as [|a r]; [reflexivity|].
      destruct a as [[] [] [] [] [] [] [] []]; try reflexivity. destruct Hhead. }
    rewrite Hm. f_equal.
    rewrite (template_sub_skip_token _ (String c k') rest).
    apply IH; [exact Hps | reflexivity].
Qed.

Lemma brace_free_append a b :
  brace_free a = true -> brace_free b = true -> brace_free (a +:+ b) = true.
Proof.
  intros Ha Hb. induction a as [|c a IH]; [exact Hb|].
  cbn [brace_free] in Ha. apply andb_prop in Ha as [Hc Ha].
  rewrite append_cons. cbn [brace_free]. now rewrite Hc, (IH Ha).
Qed.

(** A template made of plain text (no braces) and tokens renders as the
    same text with each token replaced, in place, by the value of its key
    (the empty string for a key without a value), provided the values
    have no braces.  In particular a text without braces renders as
    itself. *)
Theorem render_content_parts (data : option (gmap string string))
    (parts : list Part)
    (Hparts : forallb part_ok parts = true)
    (Hvalues : forallb (fun p => brace_free (part_value data p)) parts = true) :
  render_content data (String.concat "" (map part_text parts))
  = String.concat "" (map (part_value data) parts).
Proof.
  unfold render_content.
  rewrite (template_sub_parts data parts Hparts None eq_refl).
  assert (Hfree : brace_free (String.concat "" (map (part_value data) parts)) = true).
  { clear Hparts. induction parts as [|p parts IH]; [reflexivity|].
    cbn [forallb] in Hvalues. apply andb_prop in Hvalues as [Hp Hps].
    cbn [map]. rewrite concat_cons. apply brace_free_append; [exact Hp | now apply IH]. }
  rewrite (sub_pair_brace_free "}") by (auto || exact Hfree).
  now apply sub_pair_brace_free; [left|].
Qed.

Lemma render_content_parts_witness :
  render_content (Some {[ "fileName" := "cat.png" ]})
    "The user opened {fileName} ({size})."
  = "The user opened cat.png ().".
Proof.
  refine (eq_trans (render_content_parts (Some {[ "fileName" := "cat.png" ]})
                      [Plain "The user opened "; Field "fileName"; Plain " (";
                       Field "size"; Plain ")."] _ _) _);
    vm_compute; reflexivity.
Defined.

(* ================================================================= *)
(** ** 26. The conversation string *)

Lemma default_role_names_other lang :
  lang <> "zh" -> lang <> "en" -> default_role_names !! lang = None.
Proof.
  intros Hzh Hen. unfold default_role_names.
  rewrite lookup_insert_ne by congruence. now apply lookup_singleton_ne.
Qed.

(** A language without role names falls back to the built-in English
    names: this is so for the built-in table and a language other than
    ["zh"] and ["en"], and also for a table given by the caller, whose own
    English names are not used. *)
Theorem get_conversation_language_fallback (ci : IClientData) (lang : string)
    (role_names : option (gmap string (gmap string string)))
    (Hlang : lang <> "zh" /\ lang <> "en")
    (Hmissing : forall r, role_names = Some r -> r !! lang = None) :
  get_conversation ci lang role_names = get_conversation ci "en" None.
Proof.
  destruct Hlang as [Hzh Hen]. unfold get_conversation.
  destruct (ci_chatDetails ci) as [cd|]; [|reflexivity].
  destruct (cd_conversation cd); [reflexivity|].
  assert (Hnames : default role_names_en
                     (match role_names with
                      | Some r => if decide (r = ∅) then default_role_names else r
                      | None => default_role_names
                      end !! lang)
                   = default role_names_en (default_role_names !! "en")).
  { transitivity role_names_en; [|reflexivity].
    destruct role_names as [r|].
    - destruct (decide (r = ∅)).
      + now rewrite default_role_names_other.
      + now rewrite (Hmissing r eq_refl).
    - now rewrite default_role_names_other. }
  cbv zeta. rewrite Hnames. reflexivity.
Qed.

Lemma get_conversation_language_fallback_witness :
  (get_conversation two_messages_client "fr" (Some custom_role_names)).1
  = "User: ```hi```" +:+ newline +:+ "Cindex (You): ```hello```".
Proof.
  rewrite (get_conversation_language_fallback two_messages_client "fr"
             (Some custom_role_names)).
  - vm_compute. reflexivity.
  - split; discriminate.
  - intros r Hr. injection Hr as <-. vm_compute. reflexivity.
Defined.

Lemma ws_receiver_step_details m ci :
  ci_chatDetails (ws_receiver_step m ci)
  = match frame_details m with Some d => Some d | None => ci_chatDetails ci end.
Proof.
  destruct m as [|f]; [reflexivity|]. cbn. unfold on_present.
  destruct (f_lang f), (f_fileName f), (f_images f), (f_action f), (f_details f);
    cbn; try reflexivity;
    match goal with |- context [if ?b then _ else _] => destruct b end; reflexivity.
Qed.

Lemma ws_receiver_details ms :
  forall ci,
    ci_chatDetails (ws_receiver ms ci)
    = match last (omap frame_details ms) with
      | Some d => Some d
      | None => ci_chatDetails ci
      end.
Proof.
  induction ms as [|m ms IH]; intros ci; [reflexivity|].
  rewrite ws_receiver_cons, IH, ws_receiver_step_details.
  cbn [omap list_omap]. destruct (frame_details m) as [d|]; [|reflexivity].
  rewrite last_cons. now destruct (last (omap frame_details ms)).
Qed.

(** The cached conversation belongs to the chat details it was built
    from: once the receiver has handled messages of which the last one
    with ['details'] carried [cd], [get_conversation] answers from [cd],
    whatever was cached before.  It renders the messages of [cd], unless
    the client sent a ['conversation'] of its own with them, which is then
    returned as it is. *)
Theorem conversation_follows_latest_details (ms : list Inbound) (ci : IClientData)
    (cd : IClientChatDetails) (lang : string)
    (Hlatest : last (omap frame_details ms) = Some cd) :
  (get_conversation (ws_receiver ms ci) lang None).1
  = match cd_conversation cd with
    | Some s => s
    | None => render_conversation
                (default role_names_en (default_role_names !! lang)) (cd_messages cd)
    end.
Proof.
  unfold get_conversation. rewrite ws_receiver_details, Hlatest.
  destruct (cd_conversation cd); reflexivity.
Qed.

Lemma conversation_follows_latest_details_witness :
  (get_conversation
     (ws_receiver [details_frame (details_with "one" None); Malformed;
                   details_frame (details_with "two" None)]
        (get_conversation two_messages_client "en" None).2) "en" None).1
  = "User: ```two```".
Proof.
  rewrite (conversation_follows_latest_details _ _ (details_with "two" None));
    vm_compute; reflexivity.
Defined.

(* ================================================================= *)
(** ** 27. The changes of an edit *)

Lemma truthy_append a b : truthy (a +:+ b) = truthy a || truthy b.
Proof. destruct a; [destruct b|]; reflexivity. Qed.

(** The text of changes that [edit_photo] and [crop_rotate] build is
    non-empty exactly when some adjustment names a key of the original
    setup with a value that differs from the original one; so the
    ['imageNotEdited'] template is chosen exactly when no known setting
    changes, and keys the original setup lacks never count. *)
Theorem describe_changes_truthy E (original_setup adjustments : list (string * json)) :
  truthy (describe_changes E original_setup adjustments)
  = existsb (changed E original_setup) adjustments.
Proof.
  unfold describe_changes.
  assert (H : forall acc,
             truthy (fold_left
                       (fun changes kv =>
                          match list_to_map (M := gmap string json) original_setup
                                  !! kv.1 with
                          | Some old =>
                              if py_ne E kv.2 old
                              then changes +:+ kv.1 +:+ ": from " +:+ py_format E old
                                           +:+ " to " +:+ py_format E kv.2 +:+ ". "
                              else changes
                          | None => changes
                          end) adjustments acc)
             = truthy acc || existsb (changed E original_setup) adjustments).
  { induction adjustments as [|kv rest IH]; intros acc.
    - cbn. now rewrite orb_false_r.
    - cbn [fold_left existsb]. rewrite IH. unfold changed at 2.
      destruct (list_to_map original_setup !! kv.1) as [old|]; [|reflexivity].
      destruct (py_ne E kv.2 old); [|reflexivity].
      rewrite !truthy_append. cbn [truthy]. now rewrite !orb_true_r. }
  apply H.
Qed.

(* ================================================================= *)
(** ** 28. The intent of a chat message *)

Lemma intent_asked_sent E prompt_id w : w_sent (intent_asked E prompt_id w) = w_sent w.
Proof. unfold intent_asked. now rewrite (proj1 (suspended_frame E _)). Qed.

(** In the editor the intents are 1 to 5 and 7 to 9: a reply that is the
    number 0, 6, or a number above 9 has no flow of its own and is
    answered by [stream_not_understand]. *)
Theorem chat_in_editor_unknown_intent E w results intent
    (Hreply : llm_response E (w_tick w) (intent_prompt E "chatEditor" w) = Ok results)
    (Hstatus : ci_status (w_client (intent_asked E "chatEditor" w)) <> Interrupt)
    (Hparse : parse_intent (strip results) = Some intent)
    (Hintent : (intent = 0 \/ intent = 6 \/ 9 < intent)%N) :
  chat_in_editor E w = stream_not_understand E (intent_asked E "chatEditor" w).
Proof.
  unfold chat_in_editor. unfold bind at 1.
  rewrite ask_intent_eq, Hreply, (status_eqb_neq _ _ Hstatus), Hparse.
  destruct intent as [|p]; [reflexivity|].
  destruct Hintent as [Hi|[Hi|Hi]]; [discriminate Hi | injection Hi as ->; reflexivity |].
  do 4 (try (destruct p as [p|p|]; try reflexivity; try lia)).
Qed.

Lemma chat_in_editor_unknown_intent_witness :
  chat_in_editor env_editor_six
    (with_client (set_action None) (suspended env_editor_six open_world))
  = stream_not_understand env_editor_six
      (intent_asked env_editor_six "chatEditor"
         (with_client (set_action None) (suspended env_editor_six open_world))).
Proof.
  apply (chat_in_editor_unknown_intent env_editor_six _ "6" 6%N).
  - reflexivity.
  - vm_compute. discriminate.
  - vm_compute. reflexivity.
  - right. left. reflexivity.
Defined.

(** A reply that arrives after an interrupt is dropped unread: when the
    status is [Interrupt] once the intent request of a chat message
    returns, the handler of either page returns at once, whatever the
    reply says (a reply that is no number raises nothing), and it has sent
    nothing. *)
Theorem interrupted_intent_reply_dropped E w cd results
    (Hcd : ci_chatDetails (w_client w) = Some cd)
    (Hpage : cd_page cd = "blank" \/ cd_page cd = "editor")
    (Hreply : llm_response E (w_tick w) (intent_prompt E (chat_prompt_id cd) w)
              = Ok results)
    (Hinterrupt : ci_status (w_client (intent_asked E (chat_prompt_id cd) w))
                  = Interrupt) :
  dispatch E "Chat" w = (Ok tt, intent_asked E (chat_prompt_id cd) w)
  /\ w_sent (intent_asked E (chat_prompt_id cd) w) = w_sent w.
Proof.
  split; [|apply intent_asked_sent].
  unfold dispatch. run_coroutine. rewrite Hcd.
  change (String.eqb "Chat" "Welcome") with false.
  change (String.eqb "Chat" "ImageOpened") with false.
  change (String.eqb "Chat" "Chat") with true.
  rewrite bool_decide_true by (now exists cd). cbn [andb].
  unfold chat_prompt_id in *.
  destruct Hpage as [Hp|Hp]; rewrite Hp in *.
  - change (String.eqb "blank" "blank") with true in *. cbv iota in *.
    change (chat_in_blank_page E w = (Ok tt, intent_asked E "newFile" w)).
    unfold chat_in_blank_page. unfold bind at 1.
    now rewrite ask_intent_eq, Hreply, Hinterrupt.
  - change (String.eqb "editor" "blank") with false in *.
    change (String.eqb "editor" "editor") with true. cbv iota in *.
    change (chat_in_editor E w = (Ok tt, intent_asked E "chatEditor" w)).
    unfold chat_in_editor. unfold bind at 1.
    now rewrite ask_intent_eq, Hreply, Hinterrupt.
Qed.

Lemma interrupted_intent_reply_dropped_witness :
  (dispatch env_interrupted_reply "Chat"
     (with_client (set_action None) (suspended env_interrupted_reply open_world))).1
  = Ok tt
  /\ w_sent (dispatch env_interrupted_reply "Chat"
       (with_client (set_action None) (suspended env_interrupted_reply open_world))).2
     = [].
Proof.
  destruct (interrupted_intent_reply_dropped env_interrupted_reply
              (with_client (set_action None) (suspended env_interrupted_reply open_world))
              (default two_messages
                 (ci_chatDetails (w_client (suspended env_interrupted_reply open_world))))
              "You want to edit the photo.")
    as [Hrun Hsent].
  - reflexivity.
  - right. reflexivity.
  - reflexivity.
  - vm_compute. reflexivity.
  - rewrite Hrun. split; [reflexivity|]. cbn [snd]. rewrite Hsent. reflexivity.
Defined.

(* ================================================================= *)
(** ** 29. Handlers that lack their input *)

Lemma worker_body_action E w data :
  ci_action (w_client w) = Some data -> truthy data = true ->
  worker_body E w = dispatch E data (with_client (set_action None) w).
Proof. intros Ha Ht. now rewrite worker_body_eq, Ha, Ht. Qed.

(** The action ['ImageOpened'] without a file name, and the action
    ['AutoImageDesc'] without images, raise [ValueError] in the worker:
    the action is cleared, nothing is sent and no request is made, and the
    exception leaves [ws_llm_worker] on an open connection. *)
Theorem worker_missing_input E fuel w
    (Hopen : w_closed w = false)
    (Hreg : ci_id (w_client w) ∈ w_clients w)
    (Hcase : (ci_action (w_client w) = Some "ImageOpened"
              /\ ci_fileName (w_client w) = None)
             \/ (ci_action (w_client w) = Some "AutoImageDesc"
                 /\ ci_images (w_client w) = None)) :
  ws_llm_worker E (S fuel) w = (Raise ValueError, with_client (set_action None) w).
Proof.
  rewrite (ws_llm_worker_step E fuel w Hopen Hreg).
  destruct Hcase as [[Ha Hin]|[Ha Hin]];
    rewrite (worker_body_action E w _ Ha eq_refl); unfold dispatch; run_coroutine.
  - change (String.eqb "ImageOpened" "Welcome") with false.
    change (String.eqb "ImageOpened" "ImageOpened") with true. cbv iota.
    unfold create_image_opened_message. run_coroutine.
    cbn [w_client with_client set_action ci_fileName]. now rewrite Hin.
  - change (String.eqb "AutoImageDesc" "Welcome") with false.
    change (String.eqb "AutoImageDesc" "ImageOpened") with false.
    change (String.eqb "AutoImageDesc" "Chat") with false.
    change (String.eqb "AutoImageDesc" "AutoImageDesc") with true.
    cbn [andb]. cbv iota.
    unfold create_auto_image_desc_message. run_coroutine.
    cbn [w_client with_client set_action ci_images]. now rewrite Hin.
Qed.

Lemma worker_missing_input_witness :
  ws_llm_worker env_no_message 1 world_image_opened
  = (Raise ValueError, with_client (set_action None) world_image_opened).
Proof.
  apply (worker_missing_input env_no_message 0 world_image_opened).
  - reflexivity.
  - vm_compute. set_solver.
  - left. split; reflexivity.
Defined.


Lemma pick_setup_missing keys (setup : gmap string json) k :
  k ∈ keys -> setup !! k = None -> pick_setup keys setup = None.
Proof.
  induction keys as [|k0 keys IH]; intros Hin Hk; [now apply elem_of_nil in Hin|].
  apply elem_of_cons in Hin as [->|Hin]; cbn [pick_setup].
  - now rewrite Hk.
  - rewrite (IH Hin Hk). now destruct (setup !! k0).
Qed.

(** [edit_photo] and [crop_rotate] check their input before they ask the
    backend: without chat details or without a setup they raise
    [ValueError], and with a setup that lacks one of the settings they
    read they raise [KeyError]; in both cases no request is made, nothing
    is sent and no conversation is cached. *)
Theorem adjust_setup_guards E keys prompt_id w
    (Hbad : forall setup,
        ci_chatDetails (w_client w) ≫= cd_setup = Some setup ->
        exists k, k ∈ keys /\ setup !! k = None) :
  adjust_setup E keys prompt_id w
  = (Raise (match ci_chatDetails (w_client w) ≫= cd_setup with
            | Some _ => KeyError
            | None => ValueError
            end), w).
Proof.
  unfold adjust_setup. unfold bind at 1. unfold client at 1. run_coroutine.
  destruct (ci_chatDetails (w_client w)) as [cd|]; [|reflexivity].
  cbn [mbind option_bind] in *.
  destruct (cd_setup cd) as [setup|]; [|reflexivity].
  destruct (Hbad setup eq_refl) as (k & Hin & Hk).
  now rewrite (pick_setup_missing keys setup k Hin Hk).
Qed.

Lemma adjust_setup_guards_witness :
  edit_photo env_editor_no_setup
    (intent_asked env_editor_no_setup "chatEditor"
       (with_client (set_action None) (suspended env_editor_no_setup open_world)))
  = (Raise ValueError,
     intent_asked env_editor_no_setup "chatEditor"
       (with_client (set_action None) (suspended env_editor_no_setup open_world))).
Proof.
  apply (adjust_setup_guards env_editor_no_setup
           ["brightness"; "contrast"; "saturation"] "editImage").
  intros setup Hsetup. discriminate Hsetup.
Defined.

(* ================================================================= *)
(** ** 30. The reply to a request for adjustments *)

Lemma setup_asked_sent E prompt_id original w :
  w_sent (setup_asked E prompt_id original w) = w_sent w.
Proof. unfold setup_asked. now rewrite (proj1 (suspended_frame E _)). Qed.

(** What [edit_photo] and [crop_rotate] do with the reply of the backend
    when no interrupt arrived meanwhile.  A reply that is no JSON text
    (after the prefix of the template) is answered by
    [stream_not_understand].  A reply that is JSON is sent to the client
    as the new setup in a ['responseAction': 'editImage'] frame whatever
    its value is; when that value is no object, the handler then raises
    [AttributeError], with the frame already sent. *)
Theorem adjust_setup_reply E keys prompt_id w cd setup original results
    (Hcd : ci_chatDetails (w_client w) = Some cd)
    (Hsetup : cd_setup cd = Some setup)
    (Hpick : pick_setup keys setup = Some original)
    (Hreply : llm_response E (w_tick w) (setup_prompt E prompt_id original w)
              = Ok results)
    (Hstatus : ci_status (w_client (setup_asked E prompt_id original w)) <> Interrupt) :
  (json_loads E (default "" (p_jsonPrefix (setup_prompt E prompt_id original w))
                 +:+ strip results) = None ->
   adjust_setup E keys prompt_id w
   = stream_not_understand E (setup_asked E prompt_id original w))
  /\ (forall adjustments,
        json_loads E (default "" (p_jsonPrefix (setup_prompt E prompt_id original w))
                      +:+ strip results) = Some adjustments ->
        (forall members, adjustments <> JObject members) ->
        w_closed (setup_asked E prompt_id original w) = false ->
        send_outcome E (w_tick (setup_asked E prompt_id original w)) = SendOk ->
        ci_status (w_client (suspended E (setup_asked E prompt_id original w)))
          <> Interrupt ->
        adjust_setup E keys prompt_id w
        = (Raise AttributeError,
           push_sent (ResponseAction "editImage" [("setup", adjustments)])
             (suspended E (setup_asked E prompt_id original w)))).
Proof.
  assert (Hrun : adjust_setup E keys prompt_id w
    = match json_loads E (default "" (p_jsonPrefix (setup_prompt E prompt_id original w))
                          +:+ strip results) with
      | None => stream_not_understand E (setup_asked E prompt_id original w)
      | Some adjustments =>
          match ensure_ws_send_message E
                  (ResponseAction "editImage" [("setup", adjustments)])
                  (setup_asked E prompt_id original w) with
          | (Ok _, w3) =>
              if status_eqb (ci_status (w_client w3)) Interrupt then (Ok tt, w3)
              else match adjustments with
                   | JObject items =>
                       match stream_prompts E
                               (if truthy (describe_changes E original items)
                                then prompt E (ci_lang (w_client w3)) "imageEdited"
                                       [("changes", describe_changes E original items)]
                                else prompt E (ci_lang (w_client w3)) "imageNotEdited" [])
                               true None w3 with
                       | (Ok _, w4) => (Ok tt, w4)
                       | (Raise e, w4) => (Raise e, w4)
                       end
                   | _ => (Raise AttributeError, w3)
                   end
          | (Raise e, w3) => (Raise e, w3)
          end
      end).
  { unfold adjust_setup, setup_asked, setup_prompt, conversation.
    unfold bind at 1. unfold client at 1. unfold bind at 1. unfold get at 1, ret at 1.
    rewrite Hcd, Hsetup, Hpick.
    unfold bind at 1. unfold bind at 1. unfold client at 1.
    unfold bind at 1. unfold get at 1, ret at 1.
    destruct (get_conversation (w_client w) "en" None) as [s ci'] eqn:Hc.
    unfold bind at 1. unfold client_do at 1, modify at 1. unfold ret at 1.
    unfold bind at 1. rewrite _response_from_llm_eq.
    cbn [w_tick with_client fst snd] in *.
    unfold setup_asked, setup_prompt in Hreply, Hstatus. rewrite Hc in Hreply, Hstatus.
    cbn [fst snd] in Hreply, Hstatus. rewrite Hreply.
    unfold bind at 1. unfold client at 1. unfold bind at 1. unfold get at 1, ret at 1.
    rewrite (status_eqb_neq _ _ Hstatus).
    destruct (json_loads E _) as [adjustments|]; [|reflexivity].
    unfold bind at 1.
    destruct (ensure_ws_send_message E _ _) as [[b|e] w3]; [|reflexivity].
    unfold bind at 1. unfold client at 1. unfold bind at 1. unfold get at 1, ret at 1.
    destruct (status_eqb (ci_status (w_client w3)) Interrupt); [reflexivity|].
    destruct adjustments; reflexivity. }
  split.
  - intros Hnone. now rewrite Hrun, Hnone.
  - intros adjustments Hsome Hobj Hopen Hsend Hstatus2.
    rewrite Hrun, Hsome, ensure_ws_send_message_eq, Hopen, Hsend.
    cbn [push_sent w_client]. rewrite (status_eqb_neq _ _ Hstatus2).
    destruct adjustments; try reflexivity. now contradiction (Hobj members).
Qed.

Lemma adjust_setup_reply_witness :
  edit_photo env_number_reply
    (intent_asked env_number_reply "chatEditor"
       (with_client (set_action None) (suspended env_number_reply open_world)))
  = (Raise AttributeError,
     push_sent (ResponseAction "editImage" [("setup", JNumber "4")])
       (suspended env_number_reply
          (setup_asked env_number_reply "editImage"
             [("brightness", JNumber "1"); ("contrast", JNumber "1");
              ("saturation", JNumber "1")]
             (intent_asked env_number_reply "chatEditor"
                (with_client (set_action None)
                   (suspended env_number_reply open_world)))))).
Proof.
  refine (proj2 (adjust_setup_reply env_number_reply
                   ["brightness"; "contrast"; "saturation"] "editImage"
                   (intent_asked env_number_reply "chatEditor"
                      (with_client (set_action None)
                         (suspended env_number_reply open_world)))
                   (default two_messages
                      (ci_chatDetails
                         (w_client
                            (intent_asked env_number_reply "chatEditor"
                               (with_client (set_action None)
                                  (suspended env_number_reply open_world))))))
                   editor_setup
                   [("brightness", JNumber "1"); ("contrast", JNumber "1");
                    ("saturation", JNumber "1")]
                   "4" _ _ _ _ _) (JNumber "4") _ _ _ _ _);
    try (vm_compute; reflexivity); vm_compute; discriminate.
Defined.

(* ================================================================= *)
(** ** 31. An undisturbed delivery *)

Lemma calm_suspended E t w : calm E t -> t <= w_tick w -> suspended E w = next_tick w.
Proof. intros Hcalm Ht. unfold suspended. now rewrite (proj1 (Hcalm _ Ht)). Qed.

Lemma calm_later E t t' : calm E t -> t <= t' -> calm E t'.
Proof. intros Hcalm Ht n Hn. apply Hcalm. lia. Qed.

Lemma set_status_same ci : set_status (ci_status ci) ci = ci.
Proof. now destruct ci. Qed.

Lemma on_chunk_calm E t action c w :
  calm E t -> t <= w_tick w ->
  w_closed w = false -> busy (ci_status (w_client w)) = true ->
  exists w2,
    on_chunk E action c "" w = (Ok (Continue ""), w2)
    /\ w_closed w2 = false
    /\ w_clients w2 = w_clients w
    /\ w_requests w2 = w_requests w
    /\ w_tick w <= w_tick w2
    /\ w_client w2
       = set_status (if has_message c then Responding else ci_status (w_client w))
           (w_client w)
    /\ w_sent w2
       = w_sent w
         ++ (if has_message c && status_eqb (ci_status (w_client w)) Working
             then [ResponseStart action] else [])
         ++ chunk_frames action c.
Proof.
  intros Hcalm Ht Hopen Hbusy.
  assert (Hsend : forall n, t <= n -> send_outcome E n = SendOk)
    by (intros n Hn; apply Hcalm, Hn).
  rewrite on_chunk_eq. unfold chunk_frames.
  destruct (has_message c) eqn:Hm.
  2:{ exists w. destruct c; try discriminate Hm. cbn [chunk_text andb app].
      rewrite app_nil_r, set_status_same. now repeat split. }
  cbn [andb].
  destruct (status_eqb (ci_status (w_client w)) Working) eqn:Hst.
  - rewrite ensure_ws_send_message_eq. cbn [w_closed with_client w_tick].
    rewrite Hopen, (Hsend _ Ht), (calm_suspended E t _ Hcalm) by exact Ht.
    rewrite send_text_eq.
    destruct (chunk_text c) as [text|]; [destruct (truthy text)|].
    + cbn [w_tick push_sent next_tick with_client].
      rewrite Hsend by lia. rewrite (calm_suspended E t _ Hcalm) by (cbn; lia).
      eexists. split; [reflexivity|]. cbn. rewrite Hopen.
      repeat split; [lia|]. now rewrite <- app_assoc.
    + eexists. split; [reflexivity|]. cbn. rewrite Hopen. repeat split. lia.
    + eexists. split; [reflexivity|]. cbn. rewrite Hopen. repeat split. lia.
  - assert (Hresp : ci_status (w_client w) = Responding).
    { destruct (ci_status (w_client w)); try discriminate; reflexivity. }
    rewrite send_text_eq.
    destruct (chunk_text c) as [text|]; [destruct (truthy text)|].
    + rewrite (Hsend _ Ht), (calm_suspended E t _ Hcalm) by exact Ht.
      eexists. split; [reflexivity|]. cbn. rewrite Hopen, <- Hresp, set_status_same.
      repeat split. lia.
    + exists w. rewrite <- Hresp, set_status_same. cbn. rewrite app_nil_r.
      now repeat split.
    + exists w. rewrite <- Hresp, set_status_same. cbn. rewrite app_nil_r.
      now repeat split.
Qed.

Lemma stream_loop_calm E t action chunks :
  calm E t ->
  forall w,
    t <= w_tick w -> w_closed w = false -> ci_id (w_client w) ∈ w_clients w ->
    busy (ci_status (w_client w)) = true ->
    exists w',
      stream_loop E action chunks None "" w = (Ok (Continue ""), w')
      /\ w_closed w' = false
      /\ w_clients w' = w_clients w
      /\ w_requests w' = w_requests w
      /\ w_tick w <= w_tick w'
      /\ w_client w'
         = set_status (if existsb has_message chunks then Responding
                       else ci_status (w_client w)) (w_client w)
      /\ w_sent w'
         = w_sent w
           ++ (if existsb has_message chunks
                  && status_eqb (ci_status (w_client w)) Working
               then [ResponseStart action] else [])
           ++ flat_map (chunk_frames action) chunks.
Proof.
  intros Hcalm. induction chunks as [|c rest IH]; intros w Ht Hopen Hreg Hbusy.
  - rewrite stream_loop_nil, (calm_suspended E t _ Hcalm) by exact Ht. eexists.
    split; [reflexivity|]. cbn. rewrite app_nil_r, set_status_same.
    repeat split; [exact Hopen | lia].
  - rewrite stream_loop_cons, (calm_suspended E t _ Hcalm) by exact Ht.
    assert (Hgo : must_abort (next_tick w) = false).
    { unfold must_abort. cbn [next_tick w_client w_clients w_closed].
      rewrite bool_decide_true by exact Hreg. rewrite Hopen.
      destruct (ci_status (w_client w)); try discriminate Hbusy; reflexivity. }
    rewrite Hgo.
    destruct (on_chunk_calm E t action c (next_tick w) Hcalm
                ltac:(cbn; lia) Hopen Hbusy)
      as (w2 & Hon & Hopen2 & Hclients & Hreq & Htick & Hclient & Hsent).
    rewrite Hon.
    cbn [next_tick w_client w_clients w_sent w_requests w_tick]
      in Hclients, Hreq, Htick, Hclient, Hsent.
    destruct (IH w2) as (w' & Hrun & Hopen' & Hclients' & Hreq' & Htick' & Hclient'
                         & Hsent').
    + lia.
    + exact Hopen2.
    + rewrite Hclient, Hclients. exact Hreg.
    + rewrite Hclient. cbn [set_status ci_status]. now destruct (has_message c).
    + exists w'. split; [exact Hrun|]. split; [exact Hopen'|].
      split; [congruence|]. split; [congruence|]. split; [lia|].
      rewrite Hclient', Hsent', Hsent, Hclient. cbn [existsb flat_map set_status ci_status].
      destruct (has_message c) eqn:Hm; cbn [orb andb status_eqb].
      * split; [now destruct (existsb has_message rest)|].
        rewrite andb_false_r. cbn [app].
        destruct (status_eqb (ci_status (w_client w)) Working);
          now rewrite <- !app_assoc.
      * assert (Hnone : chunk_frames action c = [])
          by (destruct c; try discriminate Hm; reflexivity).
        split; [now destruct (existsb has_message rest)|].
        rewrite Hnone. cbn [app]. now rewrite app_nil_r.
Qed.

Lemma stream_prompts_calm E prompts flag_idle action w :
  calm E (w_tick w) -> w_closed w = false -> ci_id (w_client w) ∈ w_clients w ->
  (llm_stream E (w_tick w) prompts).2 = None ->
  exists w',
    stream_prompts E prompts flag_idle action w = (Ok true, w')
    /\ w_closed w' = false
    /\ w_clients w' = w_clients w
    /\ w_requests w' = w_requests w ++ [(Working, prompts)]
    /\ w_tick w <= w_tick w'
    /\ w_client w'
       = set_status (if flag_idle then Idle
                     else if existsb has_message (llm_stream E (w_tick w) prompts).1
                          then Responding else Working) (w_client w)
    /\ w_sent w' = w_sent w ++ delivered action (llm_stream E (w_tick w) prompts).1.
Proof.
  intros Hcalm Hopen Hreg Hstream. rewrite stream_prompts_eq, Hstream.
  destruct (stream_loop_calm E (w_tick w) action (llm_stream E (w_tick w) prompts).1
              Hcalm (stream_start prompts w) (le_n _) Hopen Hreg eq_refl)
    as (w1 & Hrun & Hopen1 & Hclients1 & Hreq1 & Htick1 & Hclient1 & Hsent1).
  cbn [stream_start push_request with_client w_sent w_client w_clients w_requests
       w_tick set_status ci_status status_eqb] in Hclients1, Hreq1, Htick1, Hclient1, Hsent1.
  rewrite Hrun, stream_finish_eq. cbn [truthy].
  rewrite ensure_ws_send_message_eq, Hopen1, (proj2 (Hcalm _ Htick1)),
    (calm_suspended E (w_tick w) _ Hcalm) by exact Htick1.
  eexists. split; [reflexivity|].
  assert (Hbusy : status_in (ci_status (w_client w1)) [Working; Responding] = true).
  { rewrite Hclient1. cbn [set_status ci_status]. now destruct (existsb has_message _). }
  cbn [push_sent next_tick w_client]. rewrite Hbusy, andb_true_r.
  assert (Hsent : w_sent w1 ++ [ResponseEnd action]
                  = w_sent w ++ delivered action (llm_stream E (w_tick w) prompts).1).
  { rewrite Hsent1. unfold delivered. rewrite andb_true_r. now rewrite <- !app_assoc. }
  destruct flag_idle; cbn; rewrite Hclient1; cbn [set_status];
    (repeat split; [exact Hopen1 | exact Hclients1 | exact Hreq1 | lia | exact Hsent]).
Qed.

(** An undisturbed delivery completes.  On an open, registered client,
    when from the call on no message arrives, every send succeeds and the
    stream ends without an exception, [stream_prompts] returns [True],
    and the frames it sends are: [responseStart] if some object of the
    stream has a message, one [response] for each object whose text is not
    empty, with that text, in order, and [responseEnd]. *)
Theorem stream_prompts_delivers E prompts flag_idle action w
    (Hcalm : calm E (w_tick w))
    (Hopen : w_closed w = false)
    (Hreg : ci_id (w_client w) ∈ w_clients w)
    (Hstream : (llm_stream E (w_tick w) prompts).2 = None) :
  exists w',
    stream_prompts E prompts flag_idle action w = (Ok true, w')
    /\ w_sent w' = w_sent w ++ delivered action (llm_stream E (w_tick w) prompts).1.
Proof.
  destruct (stream_prompts_calm E prompts flag_idle action w Hcalm Hopen Hreg Hstream)
    as (w' & Hrun & _ & _ & _ & _ & _ & Hsent).
  now exists w'.
Qed.

Lemma stream_prompts_delivers_witness :
  exists w',
    stream_prompts env_calm error_message_en true (Some "Welcome") open_world
    = (Ok true, w')
    /\ w_sent w' = [ResponseStart (Some "Welcome"); Response "Hi" (Some "Welcome");
                    Response " there" (Some "Welcome"); ResponseEnd (Some "Welcome")].
Proof.
  apply (stream_prompts_delivers env_calm error_message_en true (Some "Welcome")
           open_world).
  - intros n _. split; reflexivity.
  - reflexivity.
  - vm_compute. reflexivity.
  - reflexivity.
Defined.

(* ================================================================= *)
(** ** 32. What no step of a session does *)

Lemma grows_refl w : grows w w.
Proof.
  refine (conj eq_refl (conj eq_refl (conj (fun H => H) (conj _ _))));
    exists []; now rewrite app_nil_r.
Qed.

Lemma grows_trans w1 w2 w3 : grows w1 w2 -> grows w2 w3 -> grows w1 w3.
Proof.
  intros (Hc1 & Hi1 & Hs1 & [n1 Hn1] & [r1 Hr1]) (Hc2 & Hi2 & Hs2 & [n2 Hn2] & [r2 Hr2]).
  refine (conj _ (conj _ (conj _ (conj _ _)))).
  - congruence.
  - congruence.
  - auto.
  - exists (n1 ++ n2). now rewrite Hn2, Hn1, app_assoc.
  - exists (r1 ++ r2). now rewrite Hr2, Hr1, app_assoc.
Qed.

Lemma deliver_not_closed w ev :
  ci_status (w_client w) <> Closed -> ci_status (w_client (deliver w ev)) <> Closed.
Proof.
  destruct ev as [m|]; cbn [deliver]; [|now intros H].
  destruct (w_closed w); [now intros H|]. cbn [with_client w_client].
  rewrite ws_receiver_step_status. intros H.
  destruct (frame_action m); [|exact H]. now destruct (busy _).
Qed.

Lemma grows_suspended E w : grows w (suspended E w).
Proof.
  destruct (suspended_frame E w) as (Hsent & Hreq & Hclients & _ & Hid).
  refine (conj Hclients (conj Hid (conj _ (conj _ _)))).
  - unfold suspended.
    change (ci_status (w_client w)) with (ci_status (w_client (next_tick w))).
    generalize (next_tick w) as w0. induction (inbound E (w_tick w)) as [|ev evs IH];
      intros w0 H0; [exact H0|].
    cbn [fold_left]. apply IH. now apply deliver_not_closed.
  - exists []. now rewrite app_nil_r.
  - exists []. now rewrite app_nil_r.
Qed.

Lemma grows_push_sent f w : grows w (push_sent f w).
Proof.
  refine (conj eq_refl (conj eq_refl (conj (fun H => H) (conj _ _)))).
  - now exists [f].
  - exists []. cbn. now rewrite app_nil_r.
Qed.

Lemma grows_push_request p w : grows w (push_request p w).
Proof.
  refine (conj eq_refl (conj eq_refl (conj (fun H => H) (conj _ _)))).
  - exists []. cbn. now rewrite app_nil_r.
  - now eexists.
Qed.

Lemma grows_with_client f w :
  ci_id (f (w_client w)) = ci_id (w_client w) ->
  (ci_status (w_client w) <> Closed -> ci_status (f (w_client w)) <> Closed) ->
  grows w (with_client f w).
Proof.
  intros Hid Hst. refine (conj eq_refl (conj Hid (conj Hst (conj _ _))));
    exists []; cbn; now rewrite app_nil_r.
Qed.

Lemma steady_ret {A} (a : A) : steady (ret a).
Proof. intros w r w' H. inversion H. apply grows_refl. Qed.

Lemma steady_raise {A} e : steady (raise (A := A) e).
Proof. intros w r w' H. inversion H. apply grows_refl. Qed.

Lemma steady_get : steady get.
Proof. intros w r w' H. inversion H. apply grows_refl. Qed.

Lemma steady_client : steady client.
Proof. intros w r w' H. inversion H. apply grows_refl. Qed.

Lemma steady_bind {A B} (m : M A) (k : A -> M B) :
  steady m -> (forall a, steady (k a)) -> steady (bind m k).
Proof.
  intros Hm Hk w r w' H. unfold bind in H.
  destruct (m w) as [[a|e] w1] eqn:Hrun.
  - apply grows_trans with w1; [now apply (Hm w _ _ Hrun) | now apply (Hk a w1 r w')].
  - inversion H; subst. now apply (Hm w _ _ Hrun).
Qed.

Lemma steady_suspend E : steady (suspend E).
Proof. intros w r w' H. rewrite suspend_eq in H. inversion H. apply grows_suspended. Qed.

Lemma steady_push_sent f : steady (modify (push_sent f)).
Proof. intros w r w' H. inversion H. apply grows_push_sent. Qed.

Lemma steady_push_request p : steady (modify (push_request p)).
Proof. intros w r w' H. inversion H. apply grows_push_request. Qed.

Lemma steady_set_status st : st <> Closed -> steady (client_do (set_status st)).
Proof. intros Hst w r w' H. inversion H. now apply grows_with_client. Qed.

Lemma steady_set_action a : steady (client_do (set_action a)).
Proof. intros w r w' H. inversion H. now apply grows_with_client. Qed.

Lemma steady_set_lang l : steady (client_do (set_lang l)).
Proof. intros w r w' H. inversion H. now apply grows_with_client. Qed.

Lemma steady_conversation lang : steady (conversation lang).
Proof.
  intros w r w' H. unfold conversation in H. run_coroutine.
  cbv [bind ret get modify client client_do] in H.
  destruct (get_conversation (w_client w) lang None) as [s ci'] eqn:Hc.
  inversion H; subst. unfold get_conversation in Hc.
  destruct (ci_chatDetails (w_client w)) as [cd|];
    [destruct (cd_conversation cd)|]; inversion Hc; subst;
    now apply grows_with_client.
Qed.

Create HintDb steady.

#[local] Hint Resolve steady_get steady_client steady_suspend steady_push_sent
  steady_push_request steady_set_action steady_set_lang steady_conversation : steady.

#[local] Hint Extern 1 (steady (client_do (set_status _))) =>
  apply steady_set_status; discriminate : steady.

Ltac steady_step :=
  match goal with
  | |- steady (bind _ _) => apply steady_bind; [|intros ?]
  | |- steady (ret _) => apply steady_ret
  | |- steady (raise _) => apply steady_raise
  | |- steady (match ?x with _ => _ end) => destruct x
  | |- steady _ => solve [auto with steady]
  end.

Ltac steady := repeat steady_step.

Lemma steady_ensure_ws_send_message E f : steady (ensure_ws_send_message E f).
Proof. unfold ensure_ws_send_message. steady. Qed.

#[local] Hint Resolve steady_ensure_ws_send_message : steady.

Lemma steady__response_from_llm E prompts : steady (_response_from_llm E prompts).
Proof. unfold _response_from_llm. steady. Qed.

Lemma steady_stream_loop E action ending chunks :
  forall prev, steady (stream_loop E action chunks ending prev).
Proof.
  induction chunks as [|c rest IH]; intros prev; cbn [stream_loop].
  - steady.
  - unfold on_chunk, send_text. steady.
Qed.

#[local] Hint Resolve steady__response_from_llm steady_stream_loop : steady.

Lemma steady_stream_prompts E prompts flag_idle action :
  steady (stream_prompts E prompts flag_idle action).
Proof. unfold stream_prompts, stream_finish. steady. Qed.

#[local] Hint Resolve steady_stream_prompts : steady.

Lemma steady_get_last_message : steady get_last_message.
Proof. unfold get_last_message. steady. Qed.

Lemma steady_stream_not_understand E : steady (stream_not_understand E).
Proof. unfold stream_not_understand. steady. Qed.

#[local] Hint Resolve steady_get_last_message steady_stream_not_understand : steady.

Lemma steady_adjust_setup E keys prompt_id : steady (adjust_setup E keys prompt_id).
Proof. unfold adjust_setup. steady. Qed.

Lemma steady_switch_lang_by_message E : steady (switch_lang_by_message E).
Proof.
  unfold switch_lang_by_message, switch_to, stream_about_last_message. steady.
Qed.

#[local] Hint Resolve steady_adjust_setup steady_switch_lang_by_message : steady.

Lemma steady_ask_intent E prompt_id : steady (ask_intent E prompt_id).
Proof. unfold ask_intent. steady. Qed.

#[local] Hint Resolve steady_ask_intent : steady.

Lemma steady_dispatch E data : steady (dispatch E data).
Proof.
  unfold dispatch, create_welcome_message, create_image_opened_message,
    create_auto_image_desc_message, chat_in_blank_page, chat_in_editor,
    edit_photo, crop_rotate, describe_image, file_action, stream_plain,
    stream_about_conversation.
  steady.
Qed.

#[local] Hint Resolve steady_dispatch : steady.

Lemma steady_ws_llm_worker E fuel : steady (ws_llm_worker E fuel).
Proof.
  induction fuel as [|fuel IH]; cbn [ws_llm_worker]; [steady|].
  unfold worker_body. steady.
Qed.


(** Whatever the receiver, the transport and the backend do,
    [ws_llm_worker] (every handler included) never changes the registry
    of clients nor the id of its client, never sets the status [Closed],
    and never takes back a frame it sent or a request it made. *)
Theorem ws_llm_worker_grows E fuel w : grows w (ws_llm_worker E fuel w).2.
Proof.
  apply (steady_ws_llm_worker E fuel w (ws_llm_worker E fuel w).1).
  apply surjective_pairing.
Qed.

(** [ws_runtime] unregisters its client and marks it [Closed] exactly
    when both loops return.  When the worker raises, the last two lines
    of [ws_runtime] are skipped: the client stays in [self.clients], with
    a status other than [Closed].  The id of the client is the new value
    of the counter in every case. *)
Theorem ws_runtime_registration E fuel client_index (clients : gset nat) :
  ci_id (w_client (ws_runtime E fuel client_index clients).2) = S client_index
  /\ match (ws_runtime E fuel client_index clients).1 with
     | SessionClosed =>
         (S client_index ∉ w_clients (ws_runtime E fuel client_index clients).2)
         /\ ci_status (w_client (ws_runtime E fuel client_index clients).2) = Closed
     | SessionCrashed _ | SessionRunning =>
         S client_index ∈ w_clients (ws_runtime E fuel client_index clients).2
         /\ ci_status (w_client (ws_runtime E fuel client_index clients).2) <> Closed
     end.
Proof.
  unfold ws_runtime.
  destruct (ws_llm_worker E fuel _) as [r w] eqn:Hrun.
  apply steady_ws_llm_worker in Hrun as (Hclients & Hid & Hstatus & _).
  cbn [w_client w_clients initial_client ci_id ci_status] in Hclients, Hid, Hstatus.
  assert (Hopen : ci_status (w_client w) <> Closed) by now apply Hstatus.
  assert (Hin : S client_index ∈ w_clients w).
  { rewrite Hclients. apply elem_of_union_l. now apply elem_of_singleton. }
  destruct r as [[|]|e]; cbn [fst snd unregister w_client w_clients set_status ci_id
                              ci_status]; rewrite ?Hid;
    (split; [reflexivity|]); split; try exact Hopen; try exact Hin; try reflexivity.
  rewrite elem_of_difference, elem_of_singleton. now intros [_ Hne].
Qed.

(* ================================================================= *)
(** ** 33. A session without actions *)

Lemma deliver_closed_sticky evs :
  forall w, w_closed w = true -> w_closed (fold_left deliver evs w) = true.
Proof.
  induction evs as [|ev evs IH]; intros w Hw; [exact Hw|].
  cbn [fold_left]. apply IH. destruct ev as [m|]; cbn [deliver]; [|reflexivity].
  now rewrite Hw.
Qed.

Lemma deliver_close evs :
  CloseConn ∈ evs -> forall w, w_closed (fold_left deliver evs w) = true.
Proof.
  induction evs as [|ev evs IH]; intros Hin w; [now apply elem_of_nil in Hin|].
  apply elem_of_cons in Hin as [<-|Hin]; cbn [fold_left].
  - now apply deliver_closed_sticky.
  - now apply IH.
Qed.

Lemma quiet_suspended_action E w :
  quiet E -> ci_action (w_client (suspended E w)) = ci_action (w_client w).
Proof.
  intros Hq. unfold suspended. specialize (Hq (w_tick w)).
  change (ci_action (w_client w)) with (ci_action (w_client (next_tick w))).
  generalize (next_tick w) as w0.
  induction Hq as [|ev evs Hev _ IH]; intros w0; [reflexivity|].
  cbn [fold_left]. rewrite IH. destruct ev as [m|]; cbn [deliver]; [|reflexivity].
  destruct (w_closed w0); [reflexivity|]. cbn [with_client w_client].
  rewrite ws_receiver_step_action. destruct m as [|f]; [reflexivity|].
  cbn [frame_action]. cbn [quiet_event] in Hev. now rewrite Hev.
Qed.

Lemma ws_llm_worker_closed E fuel w :
  w_closed w = true -> ws_llm_worker E (S fuel) w = (Ok LoopEnded, w).
Proof. intros Hc. cbn [ws_llm_worker]. run_coroutine. now rewrite Hc. Qed.

Lemma ws_llm_worker_idle E k :
  quiet E -> CloseConn ∈ inbound E k ->
  forall fuel w,
    ci_action (w_client w) = None -> w_tick w <= k -> k + 1 - w_tick w < fuel ->
    exists w',
      ws_llm_worker E fuel w = (Ok LoopEnded, w')
      /\ w_sent w' = w_sent w /\ w_requests w' = w_requests w.
Proof.
  intros Hq Hclose. induction fuel as [|fuel IH]; intros w Ha Htick Hfuel; [lia|].
  destruct (w_closed w) eqn:Hopen.
  { exists w. now rewrite ws_llm_worker_closed. }
  destruct (decide (ci_id (w_client w) ∈ w_clients w)) as [Hreg|Hreg].
  2:{ exists w. cbn [ws_llm_worker]. run_coroutine.
      now rewrite bool_decide_false, andb_false_r by exact Hreg. }
  rewrite (ws_llm_worker_step E fuel w Hopen Hreg), worker_body_eq, Ha.
  destruct (suspended_frame E w) as (Hsent & Hreq & _ & Ht & _).
  rewrite <- Hsent, <- Hreq.
  destruct (decide (w_tick w = k)) as [Hk|Hk].
  - destruct fuel as [|fuel]; [lia|]. exists (suspended E w).
    rewrite ws_llm_worker_closed; [now repeat split|].
    unfold suspended. apply deliver_close. now rewrite Hk.
  - apply IH; [now rewrite quiet_suspended_action | lia | lia].
Qed.

(** A session in which no action arrives ends cleanly when the client
    leaves: given enough passes of the worker loop after the close,
    [ws_runtime] returns with the client marked [Closed] and removed from
    the registry; nothing was sent and no request was made. *)
Theorem idle_session_closes E fuel client_index (clients : gset nat) k
    (Hquiet : quiet E)
    (Hclose : CloseConn ∈ inbound E k)
    (Hfuel : k + 1 < fuel) :
  exists w,
    ws_runtime E fuel client_index clients = (SessionClosed, w)
    /\ w_sent w = [] /\ w_requests w = []
    /\ ci_status (w_client w) = Closed
    /\ w_clients w = clients ∖ {[ S client_index ]}.
Proof.
  unfold ws_runtime.
  destruct (ws_llm_worker_idle E k Hquiet Hclose fuel
              {| w_client := initial_client (S client_index); w_closed := false;
                 w_clients := {[ S client_index ]} ∪ clients; w_tick := 0;
                 w_sent := []; w_requests := [] |} eq_refl)
    as (w' & Hrun & Hsent & Hreq); cbn [w_tick]; [lia | lia |].
  pose proof (steady_ws_llm_worker _ _ _ _ _ Hrun) as (Hclients & Hid & _).
  rewrite Hrun. eexists. split; [reflexivity|].
  cbn [unregister w_sent w_requests w_client w_clients set_status ci_status].
  rewrite Hsent, Hreq, Hclients, Hid. cbn [w_sent w_requests w_client w_clients
    initial_client ci_id].
  repeat split. apply set_eq. intros x.
  rewrite !elem_of_difference, elem_of_union, elem_of_singleton. tauto.
Qed.

Lemma idle_session_closes_witness :
  exists w,
    ws_runtime env_leaves 4 0 ∅ = (SessionClosed, w)
    /\ w_sent w = [] /\ w_requests w = []
    /\ ci_status (w_client w) = Closed
    /\ w_clients w = ∅ ∖ {[ 1 ]}.
Proof.
  apply (idle_session_closes env_leaves 4 0 ∅ 2).
  - intros n. unfold env_leaves, example_env, inbound.
    destruct (Nat.eqb n 2); repeat constructor.
  - cbn. constructor.
  - lia.
Defined.

(* ================================================================= *)
(** ** 34. Loading the prompt files *)

Lemma add_prompt_data_lookup
    (prompt_data prompts : gmap string (gmap string IChatPrompt)) :
  forall lang,
    add_prompt_data prompt_data prompts !! lang
    = match prompt_data !! lang with
      | Some lang_prompts => Some (lang_prompts ∪ default ∅ (prompts !! lang))
      | None => prompts !! lang
      end.
Proof.
  unfold add_prompt_data.
  apply (map_fold_weak_ind
           (fun r m => forall lang,
                r !! lang = match m !! lang with
                            | Some lang_prompts =>
                                Some (lang_prompts ∪ default ∅ (prompts !! lang))
                            | None => prompts !! lang
                            end)).
  - intros lang. now rewrite lookup_empty.
  - intros i x m r Hi IH lang.
    pose proof (IH i) as Hri. rewrite Hi in Hri.
    destruct (decide (i = lang)) as [->|Hne].
    + rewrite lookup_insert_eq, Hri.
      destruct (prompts !! lang) as [loaded|]; rewrite lookup_insert_eq;
        cbn [default from_option id]; [reflexivity|].
      now rewrite (right_id_L ∅ (∪)).
    + rewrite (lookup_insert_ne m) by exact Hne. rewrite <- IH.
      destruct (r !! i); now rewrite lookup_insert_ne.
Qed.

Lemma add_prompt_data_entry
    (prompt_data prompts : gmap string (gmap string IChatPrompt)) lang prompt_id :
  catalog_entry (add_prompt_data prompt_data prompts) lang prompt_id
  = match catalog_entry prompt_data lang prompt_id with
    | Some p => Some p
    | None => catalog_entry prompts lang prompt_id
    end.
Proof.
  unfold catalog_entry. rewrite add_prompt_data_lookup.
  destruct (prompt_data !! lang) as [lang_prompts|]; cbn [default from_option id].
  - rewrite lookup_union. destruct (lang_prompts !! prompt_id) as [p|].
    + now destruct (default ∅ (prompts !! lang) !! prompt_id).
    + now rewrite (left_id_L None (∪)).
  - now rewrite lookup_empty.
Qed.

(** When [__init__] returns, the template [get_prompts] finds for a
    language and a prompt id is the one of the last file, in the order of
    the listing, among the files the loop reads that define it; what was
    loaded before stays for the ids no file defines.  Files whose name
    does not end in [.prompts.json] or starts with a dot are not read. *)
Theorem init_last_file_wins (file_names : list PromptFile)
    (prompts0 prompts : gmap string (gmap string IChatPrompt))
    (Hload : __init__ (Some file_names) prompts0 = Ok prompts) :
  forall lang prompt_id,
    catalog_entry prompts lang prompt_id
    = match last (omap (file_entry lang prompt_id) file_names) with
      | Some p => Some p
      | None => catalog_entry prompts0 lang prompt_id
      end.
Proof.
  intros lang prompt_id. cbn [__init__] in Hload. revert prompts0 Hload.
  induction file_names as [|f rest IH]; intros prompts0 Hload.
  - cbn in Hload. now injection Hload as <-.
  - cbn [load_prompt_files] in Hload. cbn [omap list_omap]. unfold file_entry at 1.
    destruct (is_prompt_file f).
    + destruct (pf_content f) as [| |prompt_data]; try discriminate Hload.
      rewrite (IH _ Hload), add_prompt_data_entry.
      destruct (catalog_entry prompt_data lang prompt_id) as [p|]; [|reflexivity].
      rewrite last_cons.
      now destruct (last (omap (file_entry lang prompt_id) rest)).
    + now apply IH.
Qed.

Lemma init_last_file_wins_witness :
  exists prompts,
    __init__ (Some example_folder) ∅ = Ok prompts
    /\ catalog_entry prompts "en" "welcome" = Some (system_prompt "Welcome")
    /\ catalog_entry prompts "en" "about" = Some (system_prompt "About").
Proof.
  destruct (__init__ (Some example_folder) ∅) as [prompts|e] eqn:Hload;
    [|vm_compute in Hload; discriminate Hload].
  exists prompts. split; [reflexivity|].
  rewrite !(init_last_file_wins example_folder ∅ prompts Hload).
  split; vm_compute; reflexivity.
Defined.

(* ================================================================= *)
(** ** 35. Undisturbed handlers *)

(** The actions with a tag of their own.  On an open, registered client
    with the action ['Welcome'], ['ImageOpened'] (and a file name) or
    ['AutoImageDesc'] (and images) pending, when nothing disturbs the
    worker and the stream ends without an exception, one pass of the
    worker loop clears the action, makes one request with the template of
    the action in the language of the client, delivers the stream in
    frames tagged with the action, and leaves the client [Idle]. *)
Theorem action_is_delivered E w data prompts
    (Hcalm : calm E (w_tick w))
    (Hopen : w_closed w = false)
    (Hreg : ci_id (w_client w) ∈ w_clients w)
    (Haction : ci_action (w_client w) = Some data)
    (Hcase : (data = "Welcome"
              /\ prompts = prompt E (ci_lang (w_client w)) "welcome" [])
             \/ (data = "ImageOpened"
                 /\ exists file_name,
                      ci_fileName (w_client w) = Some file_name
                      /\ prompts = prompt E (ci_lang (w_client w)) "imageOpened"
                                     [("file_name", file_name)])
             \/ (data = "AutoImageDesc"
                 /\ exists imgs,
                      ci_images (w_client w) = Some imgs
                      /\ set_first_images imgs
                           (prompt E (ci_lang (w_client w)) "autoDescription" [])
                         = Some prompts))
    (Hstream : (llm_stream E (w_tick w) prompts).2 = None) :
  exists w',
    worker_body E w = (Ok tt, w')
    /\ w_client w' = set_status Idle (set_action None (w_client w))
    /\ w_requests w' = w_requests w ++ [(Working, prompts)]
    /\ w_sent w' = w_sent w ++ delivered (Some data) (llm_stream E (w_tick w) prompts).1.
Proof.
  destruct (stream_prompts_calm E prompts true (Some data)
              (with_client (set_action None) w) Hcalm Hopen Hreg Hstream)
    as (w' & Hrun & _ & _ & Hreq & _ & Hclient & Hsent).
  exists w'. refine (conj _ (conj Hclient (conj Hreq Hsent))).
  assert (Htruthy : truthy data = true)
    by (destruct Hcase as [[-> _]|[[-> _]|[-> _]]]; reflexivity).
  rewrite (worker_body_action E w data Haction Htruthy).
  unfold dispatch. run_coroutine.
  destruct Hcase as [[-> ->]|[[-> (file_name & Hfile & ->)]|[-> (imgs & Himgs & Hset)]]].
  - change (String.eqb "Welcome" "Welcome") with true. cbv iota.
    unfold create_welcome_message. run_coroutine.
    cbn [w_client with_client set_action ci_lang] in *.
    now rewrite Hrun.
  - change (String.eqb "ImageOpened" "Welcome") with false.
    change (String.eqb "ImageOpened" "ImageOpened") with true. cbv iota.
    unfold create_image_opened_message. run_coroutine.
    cbn [w_client with_client set_action ci_lang ci_fileName] in *.
    rewrite Hfile. now rewrite Hrun.
  - change (String.eqb "AutoImageDesc" "Welcome") with false.
    change (String.eqb "AutoImageDesc" "ImageOpened") with false.
    change (String.eqb "AutoImageDesc" "Chat") with false.
    change (String.eqb "AutoImageDesc" "AutoImageDesc") with true.
    cbn [andb]. cbv iota.
    unfold create_auto_image_desc_message. run_coroutine.
    cbn [w_client with_client set_action ci_lang ci_images] in *.
    rewrite Himgs, Hset. now rewrite Hrun.
Qed.


Lemma action_is_delivered_witness :
  exists w',
    worker_body env_welcome (suspended env_welcome open_world) = (Ok tt, w')
    /\ ci_status (w_client w') = Idle
    /\ w_sent w' = [ResponseStart (Some "Welcome"); Response "Hi" (Some "Welcome");
                    Response " there" (Some "Welcome"); ResponseEnd (Some "Welcome")].
Proof.
  destruct (action_is_delivered env_welcome (suspended env_welcome open_world)
              "Welcome" error_message_en)
    as (w' & Hrun & Hclient & _ & Hsent).
  - intros n Hn. destruct n as [|n]; [cbn in Hn; lia|]. split; reflexivity.
  - reflexivity.
  - vm_compute. reflexivity.
  - reflexivity.
  - left. split; reflexivity.
  - reflexivity.
  - exists w'. split; [exact Hrun|]. rewrite Hclient, Hsent. split; reflexivity.
Defined.

Lemma get_last_message_eq w cd m :
  ci_chatDetails (w_client w) = Some cd -> last (cd_messages cd) = Some m ->
  get_last_message w = (Ok (msg_content m), w).
Proof. intros Hcd Hlast. unfold get_last_message. run_coroutine. now rewrite Hcd, Hlast. Qed.

(** Changing the language.  When the reply to the request about the
    language is [1] or [2] (with or without blanks around it) and nothing
    disturbs the worker, [switch_lang_by_message] sets the language of the
    client to ["zh"] or ["en"], tells the client so in a
    ['responseAction': 'switchLang'] frame, delivers the ['langSwitched']
    template of the new language, and leaves the client [Idle].  Its own
    request is made under the status the handler was entered with. *)
Theorem switch_lang_by_message_switches E w cd m results lang
    (Hcalm : calm E (w_tick w))
    (Hopen : w_closed w = false)
    (Hreg : ci_id (w_client w) ∈ w_clients w)
    (Hstatus : ci_status (w_client w) <> Interrupt)
    (Hcd : ci_chatDetails (w_client w) = Some cd)
    (Hlast : last (cd_messages cd) = Some m)
    (Hreply : llm_response E (w_tick w)
                (prompt E "en" "switchLanguage" [("last_message", msg_content m)])
              = Ok results)
    (Hintent : (parse_intent (strip results) = Some 1%N /\ lang = "zh")
               \/ (parse_intent (strip results) = Some 2%N /\ lang = "en"))
    (Hstream : (llm_stream E (S (S (w_tick w)))
                  (prompt E lang "langSwitched" [("lang", lang)])).2 = None) :
  exists w',
    switch_lang_by_message E w = (Ok tt, w')
    /\ w_client w' = set_status Idle (set_lang lang (w_client w))
    /\ w_requests w'
       = w_requests w
         ++ [(ci_status (w_client w),
              prompt E "en" "switchLanguage" [("last_message", msg_content m)]);
             (Working, prompt E lang "langSwitched" [("lang", lang)])]
    /\ w_sent w'
       = w_sent w
         ++ ResponseAction "switchLang" [("lang", JString lang)]
            :: delivered None
                 (llm_stream E (S (S (w_tick w)))
                    (prompt E lang "langSwitched" [("lang", lang)])).1.
Proof.
  set (ask := prompt E "en" "switchLanguage" [("last_message", msg_content m)]) in *.
  set (answer := prompt E lang "langSwitched" [("lang", lang)]) in *.
  set (w1 := next_tick (push_request ask w)).
  set (w2 := with_client (set_lang lang) w1).
  set (w3 := push_sent (ResponseAction "switchLang" [("lang", JString lang)])
               (next_tick w2)).
  destruct (stream_prompts_calm E answer true None w3) as
    (w' & Hrun & _ & _ & Hreq & _ & Hclient & Hsent).
  { apply (calm_later E (w_tick w)); [exact Hcalm | cbn; lia]. }
  { exact Hopen. }
  { exact Hreg. }
  { exact Hstream. }
  exists w'. refine (conj _ (conj _ (conj _ _))).
  - assert (Hswitch : switch_to E lang w1 = (Ok tt, w')).
    { unfold switch_to. unfold bind at 1. unfold client_do at 1, modify at 1.
      fold w2. unfold bind at 1. rewrite ensure_ws_send_message_eq.
      change (w_closed w2) with (w_closed w). change (w_tick w2) with (S (w_tick w)).
      rewrite Hopen, (proj2 (Hcalm (S (w_tick w)) ltac:(lia))).
      rewrite (calm_suspended E (w_tick w) _ Hcalm) by (cbn; lia).
      fold w3. unfold bind at 1. fold answer. now rewrite Hrun. }
    unfold switch_lang_by_message. unfold bind at 1.
    rewrite (get_last_message_eq w cd m Hcd Hlast). fold ask.
    unfold bind at 1. rewrite _response_from_llm_eq, Hreply.
    rewrite (calm_suspended E (w_tick w) _ Hcalm) by (cbn; lia). fold w1.
    unfold bind at 1. unfold client at 1. unfold bind at 1. unfold get at 1, ret at 1.
    change (ci_status (w_client w1)) with (ci_status (w_client w)).
    rewrite (status_eqb_neq _ _ Hstatus).
    destruct Hintent as [[-> ->]|[-> ->]]; exact Hswitch.
  - rewrite Hclient. reflexivity.
  - rewrite Hreq. cbn. now rewrite <- app_assoc.
  - rewrite Hsent. cbn. now rewrite <- app_assoc.
Qed.

Lemma switch_lang_by_message_switches_witness :
  exists w',
    switch_lang_by_message env_switch world_asks_english = (Ok tt, w')
    /\ ci_lang (w_client w') = "en"
    /\ w_sent w' = [ResponseAction "switchLang" [("lang", JString "en")];
                    ResponseStart None; Response "OK" None; ResponseEnd None].
Proof.
  destruct (switch_lang_by_message_switches env_switch world_asks_english
              (details_with "English please" None)
              {| msg_role := "user"; msg_content := "English please";
                 msg_images := None |} " 2 " "en")
    as (w' & Hrun & Hclient & _ & Hsent).
  - intros n _. split; reflexivity.
  - reflexivity.
  - vm_compute. reflexivity.
  - discriminate.
  - reflexivity.
  - reflexivity.
  - reflexivity.
  - right. split; [vm_compute; reflexivity | reflexivity].
  - reflexivity.
  - exists w'. split; [exact Hrun|]. rewrite Hclient, Hsent. split; reflexivity.
Defined.

(* ================================================================= *)
(** ** 36. Blanks around a reply *)

Lemma string_of_list_ascii_snoc l c :
  string_of_list_ascii (l ++ [c]) = string_of_list_ascii l +:+ String c "".
Proof. induction l as [|a l IH]; [reflexivity|]. cbn. now rewrite IH. Qed.

Lemma string_rev_cons c s : string_rev (String c s) = string_rev s +:+ String c "".
Proof. unfold string_rev. cbn [list_ascii_of_string rev]. apply string_of_list_ascii_snoc. Qed.

Lemma string_rev_append a b : string_rev (a +:+ b) = string_rev b +:+ string_rev a.
Proof.
  induction a as [|c a IH].
  - change ("" +:+ b) with b. change (string_rev "") with "". now rewrite append_empty_r.
  - now rewrite append_cons, !string_rev_cons, IH, append_assoc.
Qed.

Lemma string_rev_involutive s : string_rev (string_rev s) = s.
Proof.
  induction s as [|c s IH]; [reflexivity|].
  now rewrite string_rev_cons, string_rev_append, IH.
Qed.

Lemma string_rev_length s : String.length (string_rev s) = String.length s.
Proof.
  induction s as [|c s IH]; [reflexivity|].
  rewrite string_rev_cons, length_append, IH. cbn. lia.
Qed.

Lemma all_digits_append a b : all_digits (a +:+ b) = all_digits a && all_digits b.
Proof.
  induction a as [|c a IH]; [reflexivity|].
  rewrite append_cons. cbn [all_digits]. now rewrite IH, andb_assoc.
Qed.

Lemma all_blank_append a b : all_blank (a +:+ b) = all_blank a && all_blank b.
Proof.
  induction a as [|c a IH]; [reflexivity|].
  rewrite append_cons. cbn [all_blank]. now rewrite IH, andb_assoc.
Qed.

Lemma all_digits_rev s : all_digits (string_rev s) = all_digits s.
Proof.
  induction s as [|c s IH]; [reflexivity|].
  rewrite string_rev_cons, all_digits_append, IH. cbn [all_digits].
  now rewrite andb_true_r, andb_comm.
Qed.

Lemma all_blank_rev s : all_blank (string_rev s) = all_blank s.
Proof.
  induction s as [|c s IH]; [reflexivity|].
  rewrite string_rev_cons, all_blank_append, IH. cbn [all_blank].
  now rewrite andb_true_r, andb_comm.
Qed.

Lemma first_stripped_blank c r :
  is_blank c = true ->
  first_stripped py_whitespace (String c r) = Some r
  /\ first_stripped (map string_rev py_whitespace) (String c r) = Some r.
Proof.
  destruct c as [[] [] [] [] [] [] [] []]; intros H;
    first [discriminate H | split; reflexivity].
Qed.

Lemma first_stripped_digit c r :
  is_digit c = true ->
  first_stripped py_whitespace (String c r) = None
  /\ first_stripped (map string_rev py_whitespace) (String c r) = None.
Proof.
  destruct c as [[] [] [] [] [] [] [] []]; intros H;
    first [discriminate H | split; reflexivity].
Qed.

(** Leading blanks go, and a digit stops the scan. *)
Lemma lstrip_with_blanks ws pad c r :
  (forall a s, is_blank a = true -> first_stripped ws (String a s) = Some s) ->
  first_stripped ws (String c r) = None ->
  all_blank pad = true ->
  forall fuel, String.length pad <= fuel ->
    lstrip_with ws fuel (pad +:+ String c r) = String c r.
Proof.
  intros Hblank Hstop. induction pad as [|a pad IH]; intros Hpad fuel Hfuel.
  - change ("" +:+ String c r) with (String c r).
    destruct fuel; cbn [lstrip_with]; [reflexivity | now rewrite Hstop].
  - cbn [all_blank] in Hpad. apply andb_prop in Hpad as [Ha Hpad].
    destruct fuel as [|fuel]; [cbn in Hfuel; lia|].
    rewrite append_cons. cbn [lstrip_with]. rewrite (Hblank a _ Ha).
    apply (IH Hpad). cbn in Hfuel. lia.
Qed.

Lemma strip_eq s l :
  lstrip_with py_whitespace (String.length s) s = l ->
  strip s
  = string_rev (lstrip_with (map string_rev py_whitespace) (String.length l)
                  (string_rev l)).
Proof. intros <-. reflexivity. Qed.

Lemma strip_blanks pad1 c core pad2 c' core' :
  all_blank pad1 = true -> all_blank pad2 = true ->
  is_digit c = true -> is_digit c' = true ->
  string_rev (String c core) = String c' core' ->
  strip (pad1 +:+ String c core +:+ pad2) = String c core.
Proof.
  intros H1 H2 Hc Hc' Hrev. rewrite (append_cons c core pad2).
  assert (Hleft : lstrip_with py_whitespace
                    (String.length (pad1 +:+ String c (core +:+ pad2)))
                    (pad1 +:+ String c (core +:+ pad2))
                  = String c (core +:+ pad2)).
  { apply (lstrip_with_blanks py_whitespace pad1 c (core +:+ pad2)).
    - intros a s Ha. exact (proj1 (first_stripped_blank a s Ha)).
    - exact (proj1 (first_stripped_digit c _ Hc)).
    - exact H1.
    - rewrite length_append. lia. }
  assert (Hturn : string_rev (String c (core +:+ pad2))
                  = string_rev pad2 +:+ String c' core').
  { now rewrite <- append_cons, string_rev_append, Hrev. }
  assert (Hlong : String.length (string_rev pad2)
                  <= String.length (String c (core +:+ pad2))).
  { rewrite string_rev_length, <- append_cons, length_append. lia. }
  assert (Hright : lstrip_with (map string_rev py_whitespace)
                     (String.length (String c (core +:+ pad2)))
                     (string_rev pad2 +:+ String c' core')
                   = String c' core').
  { apply (lstrip_with_blanks (map string_rev py_whitespace) (string_rev pad2) c' core').
    - intros a s Ha. exact (proj2 (first_stripped_blank a s Ha)).
    - exact (proj2 (first_stripped_digit c' _ Hc')).
    - rewrite all_blank_rev. exact H2.
    - exact Hlong. }
  assert (Hback : string_rev (String c' core') = String c core).
  { rewrite <- Hrev. apply string_rev_involutive. }
  exact (eq_trans (strip_eq _ _ Hleft)
           (eq_trans
              (f_equal string_rev
                 (eq_trans
                    (f_equal (lstrip_with (map string_rev py_whitespace)
                                (String.length (String c (core +:+ pad2)))) Hturn)
                    Hright))
              Hback)).
Qed.

(** Blanks around a numeric reply do not matter: a reply made of digits
    (at most 4300), with any number of ASCII blanks before and after
    them, is read as the number the digits spell, so the handler does not
    raise [ValueError] for it. *)
Theorem parse_intent_ignores_blanks (pad1 digits pad2 : string)
    (Hpad1 : all_blank pad1 = true)
    (Hpad2 : all_blank pad2 = true)
    (Hdigits : all_digits digits = true)
    (Hsome : digits <> "")
    (Hshort : String.length digits <= 4300) :
  parse_intent (strip (pad1 +:+ digits +:+ pad2)) = Some (digits_value 0 digits).
Proof.
  destruct digits as [|c core]; [now contradiction Hsome|].
  destruct (string_rev (String c core)) as [|c' core'] eqn:Hrev.
  { apply (f_equal String.length) in Hrev. rewrite string_rev_length in Hrev.
    discriminate Hrev. }
  assert (Hc : is_digit c = true).
  { cbn [all_digits] in Hdigits. now apply andb_prop in Hdigits as [Hc _]. }
  assert (Hc' : is_digit c' = true).
  { pose proof (all_digits_rev (String c core)) as Hall.
    rewrite Hrev, Hdigits in Hall. cbn [all_digits] in Hall.
    now apply andb_prop in Hall as [Hc' _]. }
  rewrite (strip_blanks pad1 c core pad2 c' core' Hpad1 Hpad2 Hc Hc' Hrev).
  unfold parse_intent. rewrite Hdigits.
  apply Nat.leb_le in Hshort. now rewrite Hshort.
Qed.

Lemma parse_intent_ignores_blanks_witness :
  parse_intent (strip (" " +:+ "4" +:+ String (ascii_of_nat 10) "")) = Some 4%N.
Proof.
  apply (parse_intent_ignores_blanks " " "4" (String (ascii_of_nat 10) ""));
    first [reflexivity | discriminate | cbn; lia].
Defined.

(* ================================================================= *)
(** ** 37. An undisturbed chat *)

Lemma get_conversation_client ci lang :
  ci_id (get_conversation ci lang None).2 = ci_id ci
  /\ ci_lang (get_conversation ci lang None).2 = ci_lang ci.
Proof.
  unfold get_conversation. destruct (ci_chatDetails ci) as [cd|]; [|now split].
  destruct (cd_conversation cd); now split.
Qed.

Lemma get_conversation_cached ci lang cd :
  ci_chatDetails ci = Some cd ->
  exists cd',
    ci_chatDetails (get_conversation ci lang None).2 = Some cd'
    /\ cd_conversation cd' = Some (get_conversation ci lang None).1.
Proof.
  intros Hcd. unfold get_conversation. rewrite Hcd.
  destruct (cd_conversation cd) as [s|] eqn:Hs.
  - exists cd. now split.
  - eexists. split; reflexivity.
Qed.

Lemma dispatch_editor_chat E w cd :
  ci_chatDetails (w_client w) = Some cd -> cd_page cd = "editor" ->
  dispatch E "Chat" w = chat_in_editor E w.
Proof.
  intros Hcd Hpage. unfold dispatch. run_coroutine.
  rewrite Hcd, Hpage. reflexivity.
Qed.

Lemma stream_plain_calm E template w :
  calm E (w_tick w) -> w_closed w = false -> ci_id (w_client w) ∈ w_clients w ->
  (llm_stream E (w_tick w) (prompt E (ci_lang (w_client w)) template [])).2 = None ->
  exists w',
    stream_plain E template w = (Ok tt, w')
    /\ w_client w' = set_status Idle (w_client w)
    /\ w_requests w'
       = w_requests w ++ [(Working, prompt E (ci_lang (w_client w)) template [])]
    /\ w_sent w'
       = w_sent w
         ++ delivered None
              (llm_stream E (w_tick w) (prompt E (ci_lang (w_client w)) template [])).1.
Proof.
  intros Hcalm Hopen Hreg Hstream.
  destruct (stream_prompts_calm E _ true None w Hcalm Hopen Hreg Hstream)
    as (w' & Hrun & _ & _ & Hreq & _ & Hclient & Hsent).
  exists w'. refine (conj _ (conj Hclient (conj Hreq Hsent))).
  unfold stream_plain. run_coroutine. now rewrite Hrun.
Qed.

Lemma file_action_calm E name template w :
  calm E (w_tick w) -> w_closed w = false -> ci_id (w_client w) ∈ w_clients w ->
  (llm_stream E (S (w_tick w)) (prompt E (ci_lang (w_client w)) template [])).2 = None ->
  exists w',
    file_action E name template w = (Ok tt, w')
    /\ w_client w' = set_status Idle (w_client w)
    /\ w_requests w'
       = w_requests w ++ [(Working, prompt E (ci_lang (w_client w)) template [])]
    /\ w_sent w'
       = w_sent w
         ++ ResponseAction name []
            :: delivered None
                 (llm_stream E (S (w_tick w))
                    (prompt E (ci_lang (w_client w)) template [])).1.
Proof.
  intros Hcalm Hopen Hreg Hstream.
  set (w1 := push_sent (ResponseAction name []) (next_tick w)).
  destruct (stream_prompts_calm E (prompt E (ci_lang (w_client w)) template [])
              true None w1) as (w' & Hrun & _ & _ & Hreq & _ & Hclient & Hsent).
  { apply (calm_later E (w_tick w)); [exact Hcalm | cbn; lia]. }
  { exact Hopen. }
  { exact Hreg. }
  { exact Hstream. }
  exists w'. refine (conj _ (conj Hclient (conj Hreq _))).
  - unfold file_action. unfold bind at 1.
    rewrite ensure_ws_send_message_eq, Hopen, (proj2 (Hcalm _ (le_n _))).
    rewrite (calm_suspended E (w_tick w) _ Hcalm) by lia. fold w1.
    unfold bind at 1. unfold client at 1. unfold bind at 1. unfold get at 1, ret at 1.
    change (ci_lang (w_client w1)) with (ci_lang (w_client w)).
    unfold bind at 1. now rewrite Hrun.
  - rewrite Hsent. cbn. now rewrite <- app_assoc.
Qed.

Lemma stream_about_conversation_calm E template w cd conv :
  ci_chatDetails (w_client w) = Some cd -> cd_conversation cd = Some conv ->
  calm E (w_tick w) -> w_closed w = false -> ci_id (w_client w) ∈ w_clients w ->
  (llm_stream E (w_tick w)
     (prompt E (ci_lang (w_client w)) template [("conversation", conv)])).2 = None ->
  exists w',
    stream_about_conversation E template w = (Ok tt, w')
    /\ w_client w' = set_status Idle (w_client w)
    /\ w_requests w'
       = w_requests w
         ++ [(Working, prompt E (ci_lang (w_client w)) template [("conversation", conv)])]
    /\ w_sent w'
       = w_sent w
         ++ delivered None
              (llm_stream E (w_tick w)
                 (prompt E (ci_lang (w_client w)) template [("conversation", conv)])).1.
Proof.
  intros Hcd Hconv Hcalm Hopen Hreg Hstream.
  set (w1 := with_client (fun _ => w_client w) w).
  destruct (stream_prompts_calm E
              (prompt E (ci_lang (w_client w)) template [("conversation", conv)])
              true None w1 Hcalm Hopen Hreg Hstream)
    as (w' & Hrun & _ & _ & Hreq & _ & Hclient & Hsent).
  exists w'. refine (conj _ (conj Hclient (conj Hreq Hsent))).
  unfold stream_about_conversation, conversation.
  unfold bind at 1. unfold client at 1. unfold bind at 1. unfold get at 1, ret at 1.
  unfold bind at 1. unfold bind at 1. unfold client at 1.
  unfold bind at 1. unfold get at 1, ret at 1.
  unfold get_conversation. rewrite Hcd, Hconv.
  unfold bind at 1. unfold client_do at 1, modify at 1. unfold ret at 1. fold w1.
  unfold bind at 1. now rewrite Hrun.
Qed.

(** A chat message that is answered with one template.  On an open,
    registered client, when nothing disturbs the worker and the reply to
    the intent request is the number of such a flow (open, save, about,
    casual chat), the handler of the page makes two requests, both under
    [Working]: the intent request, then the request with the template of
    the flow in the language of the client, which is given the very
    conversation string of the intent request when it takes one.  It
    sends the ['responseAction'] of the flow, if it has one, and after it
    the frames of the stream, and leaves the client [Idle]. *)
Theorem chat_is_answered E w cd results intent name template with_conversation
    (Hcalm : calm E (w_tick w))
    (Hopen : w_closed w = false)
    (Hreg : ci_id (w_client w) ∈ w_clients w)
    (Hcd : ci_chatDetails (w_client w) = Some cd)
    (Hreply : llm_response E (w_tick w) (intent_prompt E (chat_prompt_id cd) w)
              = Ok results)
    (Hparse : parse_intent (strip results) = Some intent)
    (Hflow : chat_flow cd intent = Some (name, template, with_conversation))
    (Hstream : (llm_stream E (S (w_tick w) + length (action_frames name))
                  (chat_answer E w template with_conversation)).2 = None) :
  exists w',
    dispatch E "Chat" w = (Ok tt, w')
    /\ ci_status (w_client w') = Idle
    /\ w_requests w'
       = w_requests w
         ++ [(Working, intent_prompt E (chat_prompt_id cd) w);
             (Working, chat_answer E w template with_conversation)]
    /\ w_sent w'
       = w_sent w ++ action_frames name
         ++ delivered None
              (llm_stream E (S (w_tick w) + length (action_frames name))
                 (chat_answer E w template with_conversation)).1.
Proof.
  set (pid := chat_prompt_id cd) in *.
  set (lang := ci_lang (w_client w)) in *.
  pose proof (get_conversation_client (w_client w) lang) as [Hid Hlang].
  destruct (get_conversation_cached (w_client w) lang cd Hcd) as (cd' & Hcd' & Hconv').
  set (conv := (get_conversation (w_client w) lang None).1) in *.
  set (ci1 := (get_conversation (w_client w) lang None).2) in *.
  set (wA := intent_asked E pid w).
  assert (Hasked : wA = next_tick
                          (push_request (intent_prompt E pid w)
                             (with_client (set_status Working)
                                (with_client (fun _ => ci1) w)))).
  { unfold wA, intent_asked. fold lang. fold ci1.
    now apply (calm_suspended E (w_tick w) _ Hcalm). }
  assert (HcalmA : calm E (w_tick wA)).
  { apply (calm_later E (w_tick w)); [exact Hcalm | rewrite Hasked; cbn; lia]. }
  assert (HopenA : w_closed wA = false) by (rewrite Hasked; exact Hopen).
  assert (HregA : ci_id (w_client wA) ∈ w_clients wA).
  { rewrite Hasked. cbn. rewrite Hid. exact Hreg. }
  assert (HtickA : w_tick wA = S (w_tick w)) by (rewrite Hasked; reflexivity).
  assert (HlangA : ci_lang (w_client wA) = lang).
  { rewrite Hasked. cbn. exact Hlang. }
  assert (HcdA : ci_chatDetails (w_client wA) = Some cd').
  { rewrite Hasked. cbn. exact Hcd'. }
  assert (HreqA : w_requests wA = w_requests w ++ [(Working, intent_prompt E pid w)]).
  { rewrite Hasked. reflexivity. }
  assert (HsentA : w_sent wA = w_sent w) by (rewrite Hasked; reflexivity).
  assert (HstatusA : status_eqb (ci_status (w_client wA)) Interrupt = false).
  { rewrite Hasked. reflexivity. }
  assert (Hdone : forall (handler : M unit) answer pre,
             (exists w',
                handler wA = (Ok tt, w')
                /\ w_client w' = set_status Idle (w_client wA)
                /\ w_requests w' = w_requests wA ++ [(Working, answer)]
                /\ w_sent w' = w_sent wA ++ pre) ->
             exists w',
               handler wA = (Ok tt, w')
               /\ ci_status (w_client w') = Idle
               /\ w_requests w'
                  = w_requests w ++ [(Working, intent_prompt E pid w); (Working, answer)]
               /\ w_sent w' = w_sent w ++ pre).
  { intros handler answer pre (w' & Hrun & Hclient & Hreq & Hsent).
    exists w'. split; [exact Hrun|]. split; [now rewrite Hclient|].
    split; [rewrite Hreq, HreqA; now rewrite <- app_assoc | now rewrite Hsent, HsentA]. }
  assert (Hask : ask_intent E pid w = (Ok (Some intent), wA)).
  { rewrite ask_intent_eq, Hreply. fold wA. now rewrite HstatusA, Hparse. }
  unfold chat_flow in Hflow. unfold chat_answer in *. fold lang in Hstream |- *.
  fold conv in Hstream |- *.
  destruct (String.eqb (cd_page cd) "blank") eqn:Hblank.
  - apply String.eqb_eq in Hblank.
    assert (Hpid : pid = "newFile") by (unfold pid, chat_prompt_id; now rewrite Hblank).
    rewrite (dispatch_blank_chat E w cd Hcd Hblank).
    unfold chat_in_blank_page. unfold bind at 1. rewrite <- Hpid, Hask.
    destruct intent as [|p]; [discriminate Hflow|].
    do 3 (try destruct p as [p|p|]); try discriminate Hflow;
      injection Hflow as <- <- <-; cbn [action_frames length app] in Hstream |- *;
      rewrite ?Nat.add_0_r, ?Nat.add_1_r, <- ?HtickA, <- HlangA in Hstream |- *.
    + apply Hdone. now apply (stream_about_conversation_calm E "casualChat" wA cd' conv).
    + apply Hdone. now apply (stream_about_conversation_calm E "about" wA cd' conv).
    + apply Hdone. now apply stream_plain_calm.
    + apply (Hdone _ _ (ResponseAction "openFile" [] :: _)). now apply file_action_calm.
  - destruct (String.eqb (cd_page cd) "editor") eqn:Heditor; [|discriminate Hflow].
    apply String.eqb_eq in Heditor.
    assert (Hpid : pid = "chatEditor")
      by (unfold pid, chat_prompt_id; now rewrite Heditor).
    rewrite (dispatch_editor_chat E w cd Hcd Heditor).
    unfold chat_in_editor. unfold bind at 1. rewrite <- Hpid, Hask.
    destruct intent as [|p]; [discriminate Hflow|].
    do 4 (try destruct p as [p|p|]); try discriminate Hflow;
      injection Hflow as <- <- <-; cbn [action_frames length app] in Hstream |- *;
      rewrite ?Nat.add_0_r, ?Nat.add_1_r, <- ?HtickA, <- HlangA in Hstream |- *.
    + apply Hdone. now apply (stream_about_conversation_calm E "casualChat" wA cd' conv).
    + apply Hdone. now apply (stream_about_conversation_calm E "about" wA cd' conv).
    + apply (Hdone _ _ (ResponseAction "saveFile" [] :: _)). now apply file_action_calm.
    + apply (Hdone _ _ (ResponseAction "openFile" [] :: _)). now apply file_action_calm.
Qed.

Lemma chat_is_answered_witness :
  exists w',
    dispatch env_about "Chat"
      (with_client (set_action None) (suspended env_about open_world)) = (Ok tt, w')
    /\ ci_status (w_client w') = Idle
    /\ map fst (w_requests w') = [Working; Working]
    /\ w_sent w' = [ResponseStart None; Response "I edit photos." None; ResponseEnd None].
Proof.
  destruct (chat_is_answered env_about
              (with_client (set_action None) (suspended env_about open_world))
              (default two_messages
                 (ci_chatDetails (w_client (suspended env_about open_world))))
              "4" 4%N None "about" true)
    as (w' & Hrun & Hstatus & Hreq & Hsent).
  - intros n Hn. destruct n as [|n]; [cbn in Hn; lia|]. split; reflexivity.
  - reflexivity.
  - vm_compute. reflexivity.
  - reflexivity.
  - reflexivity.
  - vm_compute. reflexivity.
  - reflexivity.
  - reflexivity.
  - exists w'. split; [exact Hrun|]. split; [exact Hstatus|].
    rewrite Hreq, Hsent. split; reflexivity.
Defined.
